(** * Trend summaries of long-running load tests: summarize_all_runs.py

    A shallow embedding of the trend statistics, the two loaders, the series
    builders, the metric computations and the orchestrating loop of
    [summarize_all_runs.py], with the properties its specification states.

    Conventions of the embedding.
    - A float cell is [fval]: [NaN] or a finite value.  Finite values are
      carried as rationals ([Q]); every finite binary float is one, and the
      arithmetic is the exact one (no rounding, no infinities).
    - The only irrational steps of the program, [math.sqrt] and scipy's
      [norm.cdf], produce the p-value, which therefore lives in [R]; the
      normal distribution function is a variable of the development.
    - Python exceptions are the [Raise] results of [outcome].
    - Counts of rows are far below 2^63 and are carried as unbounded
      integers.  The one product of counts, in the tie term of the
      significance test, is computed on an int64 array and wraps around as
      numpy's does.
    - The cells of a table are ASCII text or numbers. *)

From Stdlib Require Import List ZArith QArith Qround Reals Psatz Bool.
From Stdlib Require Import String Ascii Permutation Sorted.
From Stdlib Require Decimal DecimalString DecimalPos.
Import ListNotations.

Local Open Scope Z_scope.

(** ** Floats, exceptions *)

Inductive fval : Type :=
| NaN
| Fin (q : Q).

Definition isnan (v : fval) : bool :=
  match v with NaN => true | Fin _ => false end.

(** [a[~np.isnan(a)]] *)
Definition drop_nan (y : list fval) : list Q :=
  flat_map (fun v => match v with NaN => [] | Fin q => [q] end) y.

Inductive exn : Type :=
| ValueError (msg : string)
| IndexError
| KeyError (column : string)
| SystemExit (msg : string)
| TypeError.

Inductive outcome (A : Type) : Type :=
| Ok (a : A)
| Raise (e : exn).
Arguments Ok {A} a.
Arguments Raise {A} e.

Definition bind {A B} (m : outcome A) (k : A -> outcome B) : outcome B :=
  match m with
  | Ok a => k a
  | Raise e => Raise e
  end.

Notation "x <- m ;; k" := (bind m (fun x => k))
  (at level 61, m at next level, right associativity).
Notation "' p <- m ;; k" := (bind m (fun p => k))
  (at level 61, p pattern, m at next level, right associativity).

(** ** Sorting and order statistics *)

Section Sort.
Context {A : Type} (leb : A -> A -> bool).

(** Stable insertion: [a] goes before the first element it is not above. *)
Fixpoint insert (a : A) (l : list A) : list A :=
  match l with
  | [] => [a]
  | b :: t => if leb a b then a :: b :: t else b :: insert a t
  end.

Fixpoint isort (l : list A) : list A :=
  match l with
  | [] => []
  | a :: t => insert a (isort t)
  end.
End Sort.

Definition sortQ : list Q -> list Q := isort Qle_bool.

Definition sumQ (l : list Q) : Q := fold_right Qplus 0%Q l.
Definition sumZ (l : list Z) : Z := fold_right Z.add 0 l.

(** [np.median] / [np.nanmedian] of values without NaN: the middle of the
    sorted values, or the mean of the two middle ones; NaN when empty. *)
Definition median_sorted (s : list Q) : fval :=
  match s with
  | [] => NaN
  | _ =>
    let n := List.length s in
    if Nat.even n
    then Fin ((nth (n / 2 - 1) s 0%Q + nth (n / 2) s 0%Q) / 2)%Q
    else Fin (nth (n / 2) s 0%Q)
  end.

Definition median (l : list Q) : fval := median_sorted (sortQ l).

(** ** Trend statistics *)

(** [np.sign] *)
Definition sign (q : Q) : Z :=
  match Qcompare q 0 with
  | Lt => -1
  | Eq => 0
  | Gt => 1
  end.

(** The loop [for k in range(n - 1): S += np.sign(y[k + 1:] - y[k]).sum()]:
    iteration [k] takes [y[k]] against the values after it. *)
Fixpoint S_statistic (y : list Q) : Z :=
  match y with
  | [] => 0
  | a :: t => sumZ (map (fun b => sign (b - a)) t) + S_statistic t
  end.

(** [np.unique(y, return_counts=True)]: the sorted values, one entry per run
    of equal values, with the length of the run. *)
Fixpoint run_lengths (s : list Q) : list (Q * Z) :=
  match s with
  | [] => []
  | a :: t =>
    match run_lengths t with
    | (b, c) :: r => if Qeq_bool a b then (a, c + 1) :: r else (a, 1) :: (b, c) :: r
    | [] => [(a, 1)]
    end
  end.

Definition unique_counts (y : list Q) : list (Q * Z) := run_lengths (sortQ y).

(** The arithmetic of an int64 array: a result outside of
    [-2^63, 2^63) wraps around. *)
Definition wrap64 (z : Z) : Z := (z + 2 ^ 63) mod 2 ^ 64 - 2 ^ 63.

Definition add64 (a b : Z) : Z := wrap64 (a + b).
Definition sub64 (a b : Z) : Z := wrap64 (a - b).
Definition mul64 (a b : Z) : Z := wrap64 (a * b).

(** [counts * (counts - 1) * (2 * counts + 5)], element by element on the
    int64 array [counts]. *)
Definition tie_weight (c : Z) : Z :=
  mul64 (mul64 c (sub64 c 1)) (add64 (mul64 2 c) 5).

(** [np.sum] of the int64 array. *)
Definition tie_term (y : list Q) : Z :=
  fold_right add64 0 (map (fun vc => tie_weight (snd vc)) (unique_counts y)).

(** [n * (n - 1) * (2 * n + 5) - tie_term]: [n] is a Python int, so the
    product is exact.  For fewer than 1,664,511 values it is below 2^63 and
    the difference is the one of two int64 numbers, without overflow.  For
    longer series the product does not fit int64: numpy before 2.0 then
    subtracts in float64, which is the exact difference kept here (floats
    are exact numbers in this file); from numpy 2.0 on the subtraction
    raises OverflowError instead, which is not modelled. *)
Definition var_numerator (y : list Q) : Z :=
  let n := Z.of_nat (List.length y) in
  n * (n - 1) * (2 * n + 5) - tie_term y.

(** [varS = (n * (n - 1) * (2 * n + 5) - tie_term) / 18.0] *)
Definition variance (y : list Q) : Q := (inject_Z (var_numerator y) / 18)%Q.

(** The result of the significance test: NaN or a real number. *)
Inductive pval : Type :=
| PNaN
| PVal (p : R).

(** The continuity-corrected score and the two-sided p-value. *)
Definition z_score (S : Z) (varS : R) : R :=
  if 0 <? S then (IZR (S - 1) / sqrt varS)%R
  else if S <? 0 then (IZR (S + 1) / sqrt varS)%R
  else 0%R.

Section MannKendall.
(** [scipy.stats.norm.cdf] *)
Variable norm_cdf : R -> R.

Definition two_sided (S : Z) (varS : Q) : R :=
  (2 * (1 - norm_cdf (Rabs (z_score S (Q2R varS)))))%R.

Definition mann_kendall_pvalue (y0 : list fval) : pval :=
  let y := drop_nan y0 in
  let n := List.length y in
  if (n <? 3)%nat then PNaN
  else
    let S := S_statistic y in
    let varS := variance y in
    if Qle_bool varS 0 then PVal 1
    else PVal (two_sided S varS).
End MannKendall.

Definition Qlt_bool (a b : Q) : bool := negb (Qle_bool b a).

(** A point is [(x, y)].  The valid points of two parallel arrays:
    [m = ~np.isnan(y) & ~np.isnan(x); y = y[m]; x = x[m]]. *)
Definition valid_points (y x : list fval) : list (Q * Q) :=
  flat_map (fun yx =>
              match yx with
              | (Fin b, Fin a) => [(a, b)]
              | _ => []
              end) (combine y x).

(** The slope of [scipy.stats.theilslopes(y, x)]:
    [deltax = x[:, np.newaxis] - x], [deltay = y[:, np.newaxis] - y],
    [slopes = deltay[deltax > 0] / deltax[deltax > 0]] (the mask is read row
    by row), and [medslope = np.median(slopes)], NaN when no slope is left. *)
Definition masked_slopes (pts : list (Q * Q)) : list Q :=
  flat_map (fun p =>
    flat_map (fun q =>
      let deltax := (fst p - fst q)%Q in
      let deltay := (snd p - snd q)%Q in
      if Qlt_bool 0 deltax then [(deltay / deltax)%Q] else []) pts) pts.

Definition theilslopes (pts : list (Q * Q)) : fval := median (masked_slopes pts).

Definition theil_sen_slope (y x : list fval) : fval :=
  let pts := valid_points y x in
  if (List.length pts <? 2)%nat then NaN else theilslopes pts.

(** ** Parsing helpers *)

Local Open Scope string_scope.

(** A cell of an untyped column.  [_to_bool] and [_to_int_or_nan] look at a
    value in two ways only: [isinstance(v, (bool, np.bool_))] and [str(v)].
    So a value that is not a bool is carried as its [str]: the int 200 is
    ["200"], the float 200.0 is ["200.0"], a missing value is ["nan"] and
    [None] is ["None"].  Text is ASCII. *)
Inductive cell : Type :=
| CBool (b : bool)
| CText (s : string).

(** [str(v)] *)
Definition py_str (v : cell) : string :=
  match v with
  | CBool true => "True"
  | CBool false => "False"
  | CText s => s
  end.

(** The characters of a text. *)
Definition chars : string -> list ascii := list_ascii_of_string.

(** [str.isspace] on ASCII: tab, LF, VT, FF, CR, FS, GS, RS, US and space. *)
Definition is_space (c : ascii) : bool :=
  let n := nat_of_ascii c in
  ((9 <=? n) && (n <=? 13) || (28 <=? n) && (n <=? 32))%nat.

Fixpoint lstrip (s : string) : string :=
  match s with
  | String c t => if is_space c then lstrip t else s
  | EmptyString => EmptyString
  end.

Fixpoint rstrip (s : string) : string :=
  match s with
  | String c t =>
    match rstrip t with
    | EmptyString => if is_space c then EmptyString else String c EmptyString
    | t' => String c t'
    end
  | EmptyString => EmptyString
  end.

(** [str.strip] *)
Definition strip (s : string) : string := rstrip (lstrip s).

Definition lower_char (c : ascii) : ascii :=
  let n := nat_of_ascii c in
  if ((65 <=? n) && (n <=? 90))%nat then ascii_of_nat (n + 32) else c.

(** [str.lower] *)
Fixpoint lower (s : string) : string :=
  match s with
  | String c t => String (lower_char c) (lower t)
  | EmptyString => EmptyString
  end.

Definition mem_string (s : string) (l : list string) : bool :=
  existsb (String.eqb s) l.

Definition _to_bool (v : cell) : bool :=
  match v with
  | CBool b => b
  | _ => mem_string (lower (strip (py_str v))) ["true"; "1"; "yes"; "y"]
  end.

Definition is_digit (c : ascii) : bool :=
  let n := nat_of_ascii c in ((48 <=? n) && (n <=? 57))%nat.

Definition digit_value (c : ascii) : Z := Z.of_nat (nat_of_ascii c - 48).

(** The digits of a base-10 literal of [int()]: decimal digits, where single
    underscores may separate two digits.  [after_digit] says that the
    previous character was a digit. *)
Fixpoint digits (after_digit : bool) (acc : Z) (s : string) : option Z :=
  match s with
  | EmptyString => if after_digit then Some acc else None
  | String c t =>
    if is_digit c then digits true (10 * acc + digit_value c) t
    else if (Ascii.eqb c "_" && after_digit)%bool then digits false acc t
    else None
  end.

(** The number of decimal digits of a text. *)
Fixpoint digit_count (s : string) : nat :=
  match s with
  | EmptyString => O
  | String c t => if is_digit c then S (digit_count t) else digit_count t
  end.

(** [sys.get_int_max_str_digits()], with its default value. *)
Definition int_max_str_digits : nat := 4300.

(** [int(s)] for a text [s], [None] when it raises [ValueError]: surrounding
    white space, an optional sign, then the digits, of which there are at
    most [int_max_str_digits]. *)
Definition py_int (s : string) : option Z :=
  if (int_max_str_digits <? digit_count (strip s))%nat then None
  else
    match strip s with
    | String c t =>
      if Ascii.eqb c "+" then digits false 0 t
      else if Ascii.eqb c "-" then option_map Z.opp (digits false 0 t)
      else digits false 0 (String c t)
    | EmptyString => None
    end.

(** [_to_int_or_nan]: [None] is the NaN of the [except] branch. *)
Definition _to_int_or_nan (v : cell) : option Z := py_int (strip (py_str v)).

(** ** The request log *)

(** A cell of the [timeStamp] or the [elapsed] column, as the table holds it:
    a number, NaN where the cell is missing, or a text, in a column that
    pandas did not read as numbers. *)
Inductive value : Type :=
| Number (v : fval)
| Text (s : string).

Definition is_text (v : value) : bool :=
  match v with Text _ => true | Number _ => false end.

Definition is_number (v : value) : bool :=
  match v with Number (Fin _) => true | _ => false end.

(** The numbers of a numeric column. *)
Definition numbers (col : list value) : list Q :=
  flat_map (fun v => match v with Number (Fin q) => [q] | _ => [] end) col.

(** A row of the request-log table, its cells as read.  The XML branch of
    the loader makes [timeStamp] and [elapsed] numbers; the CSV branch
    returns the table of [pd.read_csv] as it is. *)
Record jrow : Type := mk_jrow {
  timeStamp : value;
  elapsed : value;
  success : cell;
  responseCode : cell;
  label : cell;
  responseMessage : cell
}.

(** A DataFrame of the request log: the names of its columns and its rows.
    A field of a row whose column is absent is never read. *)
Record jtl_frame : Type := mk_jtl_frame {
  jcolumns : list string;
  jrows : list jrow
}.

(** An element of [xml.etree.ElementTree]. *)
#[warnings="-register-all"]
Inductive xml : Type :=
| Element (tag : string) (attrib : list (string * string)) (children : list xml).

Definition xml_tag (e : xml) : string := match e with Element t _ _ => t end.
Definition xml_attrib (e : xml) : list (string * string) :=
  match e with Element _ a _ => a end.

(** [root.iter()]: the element, then its descendants, in document order. *)
Fixpoint iter (e : xml) : list xml :=
  match e with
  | Element _ _ cs => e :: flat_map iter cs
  end.

(** [node.attrib.get(k)] *)
Fixpoint attrib_get (k : string) (a : list (string * string)) : option string :=
  match a with
  | [] => None
  | (k', v) :: t => if String.eqb k k' then Some v else attrib_get k t
  end.

(** The value of an attribute as a cell; an absent one is [None]. *)
Definition attr_cell (o : option string) : cell :=
  match o with
  | Some s => CText s
  | None => CText "None"
  end.

(** A file as the two parsers see it: the result of [pd.read_csv(path)] and
    of [ET.parse(path).getroot()], [None] where the parser raises. *)
Record jtl_file : Type := mk_jtl_file {
  as_csv : option jtl_frame;
  as_xml : option xml
}.

Definition mandatory : list string := ["timeStamp"; "elapsed"; "success"].

(** [set(a).issubset(b)] *)
Definition issubset (a b : list string) : bool :=
  forallb (fun c => mem_string c b) a.

Definition is_sample (e : xml) : bool :=
  mem_string (xml_tag e) ["httpSample"; "sample"].

Definition xml_columns : list string :=
  ["timeStamp"; "elapsed"; "success"; "responseCode"; "label"; "responseMessage"].

Section Loaders.
(** [pd.to_numeric(_, errors="coerce")] on one attribute value. *)
Variable to_numeric : option string -> fval.

Definition sample_row (e : xml) : jrow :=
  let a := xml_attrib e in
  {| timeStamp := Number (to_numeric (attrib_get "ts" a));
     elapsed := Number (to_numeric (attrib_get "t" a));
     success := CBool (_to_bool (attr_cell (attrib_get "s" a)));
     responseCode := attr_cell (attrib_get "rc" a);
     label := attr_cell (attrib_get "lb" a);
     responseMessage := attr_cell (attrib_get "rm" a) |}.

(** The first [try] block: the table read as CSV, when it has the three
    mandatory columns. *)
Definition csv_attempt (f : jtl_file) : option jtl_frame :=
  match as_csv f with
  | Some df => if issubset mandatory (jcolumns df) then Some df else None
  | None => None
  end.

Definition xml_fallback (f : jtl_file) : outcome jtl_frame :=
  match as_xml f with
  | None => Raise (ValueError "Could not parse as CSV or XML")
  | Some root =>
    let rows := map sample_row (filter is_sample (iter root)) in
    match rows with
    | [] => Raise (ValueError "No JMeter sample nodes found in XML JTL")
    | _ => Ok {| jcolumns := xml_columns; jrows := rows |}
    end
  end.

(** The rows that each encoding yields. *)
Definition csv_rows (f : jtl_file) : list jrow :=
  match csv_attempt f with
  | Some df => jrows df
  | None => []
  end.

Definition xml_rows (f : jtl_file) : list jrow :=
  match as_xml f with
  | Some root => map sample_row (filter is_sample (iter root))
  | None => []
  end.

Definition read_jmeter_jtl (f : jtl_file) : outcome jtl_frame :=
  match csv_attempt f with
  | Some df => Ok df
  | None => xml_fallback f
  end.
End Loaders.

(** ** The resource table *)

(** A row of [monitor_results.csv]; a missing timestamp is [None]. *)
Record mrow : Type := mk_mrow {
  timestamp : option Z;
  scope : string;
  container_name : string;
  memory_mib : fval
}.

Record monitor_frame : Type := mk_monitor_frame {
  mcolumns : list string;
  mrows : list mrow
}.

(** The order of [sort_values]: ascending, missing values last. *)
Definition option_leb (a b : option Z) : bool :=
  match a, b with
  | Some x, Some y => (x <=? y)%Z
  | Some _, None => true
  | None, Some _ => false
  | None, None => true
  end.

Definition fval_leb (a b : fval) : bool :=
  match a, b with
  | Fin x, Fin y => Qle_bool x y
  | Fin _, NaN => true
  | NaN, Fin _ => false
  | NaN, NaN => true
  end.

Definition read_monitor_csv (f : monitor_frame) : outcome monitor_frame :=
  if negb (mem_string "timestamp" (mcolumns f))
  then Raise (ValueError "missing 'timestamp' column")
  else Ok {| mcolumns := mcolumns f;
             mrows := isort (fun a b => option_leb (timestamp a) (timestamp b)) (mrows f) |}.

(** ** The canonical resource series *)

Definition has_column (c : string) (f : monitor_frame) : bool :=
  mem_string c (mcolumns f).

Definition is_project (r : mrow) : bool := String.eqb (scope r) "project".
Definition is_all (r : mrow) : bool := String.eqb (container_name r) "ALL".

(** A series: (timestamp, memory_mib) rows without missing values. *)
Definition series : Type := list (Z * Q).

Definition complete_row (r : mrow) : list (Z * Q) :=
  match timestamp r, memory_mib r with
  | Some t, Fin m => [(t, m)]
  | _, _ => []
  end.

(** [rows[["timestamp", "memory_mib"]].dropna()] *)
Definition select_dropna (f : monitor_frame) (rows : list mrow) : outcome series :=
  if negb (has_column "timestamp" f) then Raise (KeyError "timestamp")
  else if negb (has_column "memory_mib" f) then Raise (KeyError "memory_mib")
  else Ok (flat_map complete_row rows).

Definition timestamps (rows : list mrow) : list Z :=
  flat_map (fun r => match timestamp r with Some t => [t] | None => [] end) rows.

Definition at_time (t : Z) (r : mrow) : bool :=
  match timestamp r with
  | Some t' => (t' =? t)%Z
  | None => false
  end.

(** The keys of [groupby("timestamp")]: the timestamps present, each once, in
    ascending order; rows without a timestamp belong to no group. *)
Definition group_keys (rows : list mrow) : list Z :=
  isort Z.leb (nodup Z.eq_dec (timestamps rows)).

(** [.sum()] of a group skips missing values. *)
Definition group_sum (rows : list mrow) (t : Z) : Q :=
  sumQ (drop_nan (map memory_mib (filter (at_time t) rows))).

Definition groupby_sum (f : monitor_frame) : outcome series :=
  if negb (has_column "timestamp" f) then Raise (KeyError "timestamp")
  else if negb (has_column "memory_mib" f) then Raise (KeyError "memory_mib")
  else Ok (map (fun t => (t, group_sum (mrows f) t)) (group_keys (mrows f))).

Definition build_memory_series (monitor : monitor_frame) : outcome series :=
  let rows := mrows monitor in
  if (has_column "scope" monitor && existsb is_project rows)%bool
  then select_dropna monitor (filter is_project rows)
  else if (has_column "container_name" monitor && existsb is_all rows)%bool
  then select_dropna monitor (filter is_all rows)
  else if negb (has_column "container_name" monitor)
  then Raise (ValueError "lacks both project markers and container_name")
  else groupby_sum monitor.

(** ** Metrics *)

Record config : Type := mk_config {
  warmup_hours : Q;
  early_start_h : Q;
  early_end_h : Q;
  late_duration_h : Q;
  bin_minutes : Z;
  latency_filter : string;
  min_samples_per_bin : Z
}.

(** Milliseconds to hours: [/ 1000.0 / 3600.0]. *)
Definition ms_to_hours (q : Q) : Q := (q / 1000 / 3600)%Q.

Definition Qmax (a b : Q) : Q := if Qle_bool a b then b else a.

(** [np.nanmax] of a non-empty array without NaN. *)
Definition nanmax (l : list Q) : Q :=
  match l with
  | [] => 0%Q
  | a :: t => fold_left Qmax t a
  end.

Definition fsub (a b : fval) : fval :=
  match a, b with
  | Fin x, Fin y => Fin (x - y)%Q
  | _, _ => NaN
  end.

(** The early/late delta of both metric functions, on (time, value) pairs:
    the median of the late window minus the median of the early window, NaN
    when a window is empty. *)
Definition early_late_delta (c : config) (pts : list (Q * Q)) : fval :=
  let tmax := nanmax (map fst pts) in
  let early :=
    filter (fun p => (Qle_bool (early_start_h c) (fst p)
                      && Qlt_bool (fst p) (early_end_h c))%bool) pts in
  let late_start := Qmax (warmup_hours c) (tmax - late_duration_h c)%Q in
  let late :=
    filter (fun p => (Qle_bool late_start (fst p) && Qle_bool (fst p) tmax)%bool) pts in
  match early, late with
  | _ :: _, _ :: _ => fsub (median (map snd late)) (median (map snd early))
  | _, _ => NaN
  end.

(** A request with the columns added by [compute_latency_metrics], once
    [dropna(subset=["t_hours", "elapsed"])] has left the rows with a time and
    an [elapsed] cell ([latency]) that is not missing. *)
Record timed : Type := mk_timed {
  t_hours : Q;
  latency : value;
  success_bool : bool;
  resp_int : option Z
}.

(** [pandas] quantile 0.95 of a group, with linear interpolation between the
    two nearest ranks of the sorted values. *)
Definition quantile95 (vals : list Q) : Q :=
  let s := sortQ vals in
  let m := List.length s in
  let pos := ((19 # 20) * inject_Z (Z.of_nat (m - 1)))%Q in
  let lo := Z.to_nat (Qfloor pos) in
  let frac := (pos - inject_Z (Qfloor pos))%Q in
  let a := nth lo s 0%Q in
  let b := nth (Nat.min (lo + 1) (m - 1)) s 0%Q in
  (a + frac * (b - a))%Q.

(** [(t_minutes // bin_minutes).astype(int)] with [t_minutes = t_hours * 60.0].
    The floor is the one of the exact quotient; the quotient of the doubles
    is rounded, and a request on the boundary of two bins can fall into the
    lower one there. *)
Definition bin_of (bin_minutes : Z) (r : timed) : Z :=
  Qfloor ((t_hours r * 60) / inject_Z bin_minutes)%Q.

Definition in_bin (bin_minutes b : Z) (r : timed) : bool :=
  (bin_of bin_minutes r =? b)%Z.

(** The groups of [groupby("bin")["elapsed"]]: the bins present, ascending,
    each with the [elapsed] cells of its rows. *)
Definition bin_groups (bin_minutes : Z) (jj : list timed)
  : list (Z * list value) :=
  let keys := isort Z.leb (nodup Z.eq_dec (map (bin_of bin_minutes) jj)) in
  map (fun k =>
         (k, map latency (filter (in_bin bin_minutes k) jj)))
      keys.

(** [cnt[cnt >= min_samples_per_bin].index], then [p95.loc[valid_bins]]. *)
Definition valid_bin (min_samples : Z) (g : Z * list value) : bool :=
  (min_samples <=? Z.of_nat (List.length (snd g)))%Z.

Definition p95_series (bin_minutes min_samples : Z) (jj : list timed)
  : list (Z * Q) :=
  map (fun g => (fst g, quantile95 (numbers (snd g))))
      (filter (valid_bin min_samples) (bin_groups bin_minutes jj)).

(** One row of the request log is an error. *)
Definition row_success (r : jrow) : bool := _to_bool (success r).

Definition row_resp_int (has_code : bool) (r : jrow) : option Z :=
  if has_code then _to_int_or_nan (responseCode r) else None.

Definition ge_400 (o : option Z) : bool :=
  match o with Some z => (400 <=? z)%Z | None => false end.

Definition lt_400 (o : option Z) : bool :=
  match o with Some z => (z <? 400)%Z | None => false end.

Definition isna (o : option Z) : bool :=
  match o with Some _ => false | None => true end.

(** [(~success_bool) | (resp_int >= 400) | resp_int.isna()] *)
Definition error_mask (has_code : bool) (r : jrow) : bool :=
  (negb (row_success r) || ge_400 (row_resp_int has_code r)
   || isna (row_resp_int has_code r))%bool.

Definition count_errors (has_code : bool) (rows : list jrow) : Z :=
  Z.of_nat (List.length (filter (error_mask has_code) rows)).

Definition latency_subset (mode : string) (j : list timed) : outcome (list timed) :=
  if String.eqb mode "all" then Ok j
  else if String.eqb mode "success" then Ok (filter success_bool j)
  else if String.eqb mode "http<400"
  then Ok (filter (fun r => (success_bool r && lt_400 (resp_int r))%bool) j)
  else Raise (ValueError "--latency-filter must be one of: all, success, http<400").

Definition memory_metrics : Type := (fval * pval * fval)%type.
Definition latency_metrics : Type := (fval * pval * fval * Z)%type.

(** The order of [sort_values] on a column of the request log: numbers
    ascending, texts in the order of [str], missing values last.  Beside a
    text, the only number that is sorted is a missing one. *)
Definition value_leb (a b : value) : bool :=
  match a, b with
  | Number x, Number y => fval_leb x y
  | Text s, Text t => String.leb s t
  | Text _, Number _ => true
  | Number _, Text _ => false
  end.

(** [sort_values("timeStamp")]: a column that holds a text and a number has
    no order, the comparison of the two raises. *)
Definition sort_values (rows : list jrow) : outcome (list jrow) :=
  let col := map timeStamp rows in
  if (existsb is_text col && existsb is_number col)%bool then Raise TypeError
  else Ok (isort (fun a b => value_leb (timeStamp a) (timeStamp b)) rows).

(** The [elapsed] column of a table is not numeric: it holds a text. *)
Definition elapsed_is_text (df : jtl_frame) : bool :=
  existsb (fun r => is_text (elapsed r)) (jrows df).

Section Metrics.
Variable norm_cdf : R -> R.
Variable to_numeric : option string -> fval.

(** [pd.to_numeric(_, errors="coerce")] on one cell of a column. *)
Definition numeric (v : value) : fval :=
  match v with
  | Number x => x
  | Text s => to_numeric (Some s)
  end.

(** The rows left by [dropna(subset=["t_hours", "elapsed"])]: a row without
    a numeric timestamp or without an [elapsed] cell is dropped, a row whose
    [elapsed] cell is a text stays. *)
Definition timed_row (has_code : bool) (t0 : Q) (r : jrow) : list timed :=
  match numeric (timeStamp r), elapsed r with
  | NaN, _ => []
  | Fin _, Number NaN => []
  | Fin ts, e =>
    [{| t_hours := ms_to_hours (ts - t0);
        latency := e;
        success_bool := row_success r;
        resp_int := row_resp_int has_code r |}]
  end.

Definition compute_memory_metrics (monitor_path : monitor_frame) (c : config)
  : outcome memory_metrics :=
  mon <- read_monitor_csv monitor_path ;;
  built <- build_memory_series mon ;;
  let sorted := isort (fun a b => (fst a <=? fst b)%Z) built in
  match sorted with
  | [] => Raise IndexError
  | (t0, _) :: _ =>
    let pts := map (fun tm => (ms_to_hours (inject_Z (fst tm - t0)), snd tm)) sorted in
    (* warm-up exclusion *)
    let pts := filter (fun p => Qle_bool (warmup_hours c) (fst p)) pts in
    if (List.length pts <? 3)%nat then Ok (NaN, PNaN, NaN)
    else
      let y := map (fun p => Fin (snd p)) pts in
      let x := map (fun p => Fin (fst p)) pts in
      let slope := theil_sen_slope y x in
      let pval := mann_kendall_pvalue norm_cdf y in
      Ok (slope, pval, early_late_delta c pts)
  end.

(** [compute_latency_metrics] down to its warm-up exclusion: the error
    count and the rows that are left. *)
Definition warm_requests (jtl_path : jtl_file) (c : config)
  : outcome (Z * list timed) :=
  df <- read_jmeter_jtl to_numeric jtl_path ;;
  j <- sort_values (jrows df) ;;
  if negb (issubset mandatory (jcolumns df))
  then Raise (ValueError "Unexpected JMeter schema")
  else
    let has_code := mem_string "responseCode" (jcolumns df) in
    (* total errors (independent of latency filter) *)
    let total_errors := count_errors has_code j in
    (* time axis *)
    match drop_nan (map (fun r => numeric (timeStamp r)) j) with
    | [] => Raise IndexError
    | t0 :: _ =>
      let j := flat_map (timed_row has_code t0) j in
      (* warm-up exclusion *)
      Ok (total_errors,
          filter (fun r => Qle_bool (warmup_hours c) (t_hours r)) j)
    end.

(** The type of the [elapsed] column of the table that the loader returns
    for a file: it is not numeric. *)
Definition text_latencies (jtl_path : jtl_file) : bool :=
  match read_jmeter_jtl to_numeric jtl_path with
  | Ok df => elapsed_is_text df
  | Raise _ => false
  end.

(** [compute_latency_metrics] from the binning on, for the subset [jj];
    [text_elapsed] says that the [elapsed] column is not numeric, which
    [g.quantile(0.95)] refuses. *)
Definition binned_trend (c : config) (text_elapsed : bool) (jj : list timed)
  : outcome (fval * pval * fval) :=
  if (bin_minutes c =? 0)%Z
  then Raise (ValueError "Cannot convert non-finite values (NA or inf) to integer")
  else if text_elapsed then Raise TypeError
  else
    let p95 := p95_series (bin_minutes c) (min_samples_per_bin c) jj in
    if (List.length p95 <? 5)%nat then Ok (NaN, PNaN, NaN)
    else
      let pts :=
        map (fun bp => ((inject_Z (fst bp) * (inject_Z (bin_minutes c) / 60))%Q,
                        snd bp)) p95 in
      let y := map (fun p => Fin (snd p)) pts in
      let x := map (fun p => Fin (fst p)) pts in
      let slope := theil_sen_slope y x in
      let pval := mann_kendall_pvalue norm_cdf y in
      Ok (slope, pval, early_late_delta c pts).

Definition compute_latency_metrics (jtl_path : jtl_file) (c : config)
  : outcome latency_metrics :=
  ' (total_errors, j) <- warm_requests jtl_path c ;;
  if (List.length j <? 10)%nat then Ok (NaN, PNaN, NaN, total_errors)
  else
    (* latency subset *)
    jj <- latency_subset (latency_filter c) j ;;
    if (List.length jj <? 10)%nat then Ok (NaN, PNaN, NaN, total_errors)
    else
      ' (slope, pval, delta) <- binned_trend c (text_latencies jtl_path) jj ;;
      Ok (slope, pval, delta, total_errors).

(** ** Orchestration *)

Record SummaryRow : Type := mk_SummaryRow {
  app_name : string;
  memory_slope_mib_per_hour : fval;
  memory_mk_pvalue : pval;
  p95_slope_ms_per_hour : fval;
  p95_mk_pvalue : pval;
  delta_memory_early_late : fval;
  delta_p95_early_late : fval;
  total_errors : Z
}.

(** A discovered run: [(app_name, monitor_path, jmeter_path)]. *)
Definition run : Type := (string * monitor_frame * jtl_file)%type.

(** The body of the loop over the runs. *)
Definition summarize_run (c : config) (r : run) : outcome SummaryRow :=
  let '(name, monitor_path, jmeter_path) := r in
  ' (mem_slope, mem_p, mem_delta) <- compute_memory_metrics monitor_path c ;;
  ' (p95_slope, p95_p, p95_delta, errors) <- compute_latency_metrics jmeter_path c ;;
  Ok {| app_name := name;
        memory_slope_mib_per_hour := mem_slope;
        memory_mk_pvalue := mem_p;
        p95_slope_ms_per_hour := p95_slope;
        p95_mk_pvalue := p95_p;
        delta_memory_early_late := mem_delta;
        delta_p95_early_late := p95_delta;
        total_errors := errors |}.

(** [for ... in runs: ...; rows.append(...)]: an exception of an iteration
    leaves the loop. *)
Fixpoint summarize_all (c : config) (runs : list run) : outcome (list SummaryRow) :=
  match runs with
  | [] => Ok []
  | r :: rest =>
    row <- summarize_run c r ;;
    rows <- summarize_all c rest ;;
    Ok (row :: rows)
  end.

(** [main] from the discovered runs on: the table written to the output. *)
Definition main (c : config) (runs : list run) : outcome (list SummaryRow) :=
  match runs with
  | [] => Raise (SystemExit "No runs discovered")
  | _ =>
    rows <- summarize_all c runs ;;
    Ok (isort (fun a b => String.leb (app_name a) (app_name b)) rows)
  end.
End Metrics.

(** ** Reference definitions, in the words of the specification *)

(** The entries of an array that are numbers, in their order. *)
Fixpoint finite (y : list fval) : list Q :=
  match y with
  | [] => []
  | NaN :: t => finite t
  | Fin q :: t => q :: finite t
  end.

(** Index pairs [(i, j)] with [i < j < n], in the order of two nested loops. *)
Definition index_pairs (n : nat) : list (nat * nat) :=
  flat_map (fun i => map (fun j => (i, j)) (seq (S i) (n - S i))) (seq 0 n).

(** The sum, over all pairs of positions [i < j], of the sign of
    [y[j] - y[i]]. *)
Definition S_reference (y : list Q) : Z :=
  fold_right Z.add 0
    (map (fun ij => Z.sgn (Qnum (nth (snd ij) y 0%Q - nth (fst ij) y 0%Q)))
         (index_pairs (List.length y))).

(** How many times a value appears. *)
Definition multiplicity (v : Q) (y : list Q) : Z :=
  Z.of_nat (List.length (filter (Qeq_bool v) y)).

(** The distinct values, each at its first appearance. *)
Fixpoint distinct_values (y : list Q) : list Q :=
  match y with
  | [] => []
  | a :: t => a :: filter (fun b => negb (Qeq_bool a b)) (distinct_values t)
  end.

(** For each distinct value appearing k times, k(k-1)(2k+5). *)
Definition tie_reference (y : list Q) : Z :=
  fold_right Z.add 0
    (map (fun v => let k := multiplicity v y in k * (k - 1) * (2 * k + 5))
         (distinct_values y)).

Definition variance_reference (y : list Q) : Q :=
  let n := Z.of_nat (List.length y) in
  (inject_Z (n * (n - 1) * (2 * n + 5) - tie_reference y) / 18)%Q.

(** S moved by 1 toward zero. *)
Definition toward_zero (S : Z) : Z := S - Z.sgn S.

Definition mann_kendall_reference (norm_cdf : R -> R) (y0 : list fval) : pval :=
  let y := finite y0 in
  if (List.length y <? 3)%nat then PNaN
  else if Qle_bool (variance_reference y) 0 then PVal 1
  else
    let z := (IZR (toward_zero (S_reference y)) / sqrt (Q2R (variance_reference y)))%R in
    PVal (2 * (1 - norm_cdf (Rabs z)))%R.

(** The slopes [(y[j] - y[i]) / (x[j] - x[i])] over the pairs of positions
    [i < j] with different x. *)
Definition reference_slopes (pts : list (Q * Q)) : list Q :=
  flat_map (fun ij =>
              let p := nth (fst ij) pts (0, 0)%Q in
              let q := nth (snd ij) pts (0, 0)%Q in
              if Qeq_bool (fst p) (fst q) then []
              else [((snd q - snd p) / (fst q - fst p))%Q])
           (index_pairs (List.length pts)).

(** The points [(x[i], y[i])] of the positions where both arrays hold a
    number. *)
Definition paired (y x : list fval) : list (Q * Q) :=
  flat_map (fun i =>
              match nth i x NaN, nth i y NaN with
              | Fin a, Fin b => [(a, b)]
              | _, _ => []
              end)
           (seq 0 (List.length y)).

(** [v] is the value of rank [k] (from 0) among [l]: at most [k] values are
    below it, and more than [k] are not above it. *)
Definition of_rank (l : list Q) (k : nat) (v : Q) : Prop :=
  (List.length (filter (fun u => negb (Qle_bool v u)) l) <= k)%nat /\
  (k < List.length (filter (fun u => Qle_bool u v) l))%nat.

(** [m] is the median of [l]: the value of the middle rank, or the mean of
    the values of the two middle ranks. *)
Definition median_of (l : list Q) (m : Q) : Prop :=
  exists a b,
    of_rank l ((List.length l - 1) / 2)%nat a /\
    of_rank l (List.length l / 2)%nat b /\
    (m == (a + b) / 2)%Q.

(** A request is an error: its success flag is false, or its status code is
    at least 400, or it is missing or does not parse.  [has_code] says that
    the table has a status column. *)
Definition is_error (has_code : bool) (r : jrow) : bool :=
  match _to_bool (success r),
        (if has_code then _to_int_or_nan (responseCode r) else None) with
  | false, _ => true
  | true, None => true
  | true, Some code => (400 <=? code)%Z
  end.

(** The usage values of the rows of one sample time, without the missing
    ones. *)
Fixpoint usage_at (t : Z) (rows : list mrow) : list Q :=
  match rows with
  | [] => []
  | r :: rest =>
    match timestamp r, memory_mib r with
    | Some t', Fin m => if Z.eq_dec t' t then m :: usage_at t rest else usage_at t rest
    | _, _ => usage_at t rest
    end
  end.

(** Equality of two float results as numbers. *)
Definition feq (a b : fval) : Prop :=
  match a, b with
  | NaN, NaN => True
  | Fin x, Fin y => (x == y)%Q
  | _, _ => False
  end.

(** ** Auxiliary functions of the proofs *)

(** The results of [g] on every element and each later one, in the order of
    two nested loops. *)
Fixpoint pairs_from {A B} (g : A -> A -> list B) (l : list A) : list B :=
  match l with
  | [] => []
  | a :: t => (flat_map (g a) t ++ pairs_from g t)%list
  end.

(** The tie weight and the tie term without the wrap-around. *)
Definition exact_weight (c : Z) : Z := c * (c - 1) * (2 * c + 5).

Definition exact_tie_term (y : list Q) : Z :=
  sumZ (map (fun vc => exact_weight (snd vc)) (unique_counts y)).

(** The variance numerator without the wrap-around. *)
Definition exact_numerator (y : list Q) : Z :=
  let n := Z.of_nat (List.length y) in
  n * (n - 1) * (2 * n + 5) - exact_tie_term y.

(** The tie term counted element by element: an element of a group of [k]
    equal values brings [(k - 1) * (2 * k + 5)]. *)
Definition tie_share (k : Z) : Z := (k - 1) * (2 * k + 5).

Definition tie_by_element (y : list Q) : Z :=
  sumZ (map (fun x => tie_share (multiplicity x y)) y).

(** The tests of the first two branches of [build_memory_series]. *)
Definition tagged (f : monitor_frame) : bool :=
  (has_column "scope" f && existsb is_project (mrows f))%bool.

Definition sentinel (f : monitor_frame) : bool :=
  (has_column "container_name" f && existsb is_all (mrows f))%bool.

(** A row gives the series a value at time [t]. *)
Definition sample_at (t : Z) (r : mrow) : bool :=
  (at_time t r && negb (isnan (memory_mib r)))%bool.

(** The next pair of positions. *)
Definition shift (ij : nat * nat) : nat * nat := (S (fst ij), S (snd ij)).

(** The order of [sortQ] as a relation. *)
Definition Qle_b (a b : Q) : Prop := Qle_bool a b = true.

(** One cell of the mask of [theilslopes]: the slope of [p] against [q]
    where [deltax > 0]. *)
Definition masked_slope (p q : Q * Q) : list Q :=
  if Qlt_bool 0 (fst p - fst q) then [((snd p - snd q) / (fst p - fst q))%Q]
  else [].

(** The slope of the reference for a pair of points. *)
Definition reference_slope (p q : Q * Q) : list Q :=
  if Qeq_bool (fst p) (fst q) then []
  else [((snd q - snd p) / (fst q - fst p))%Q].

(** The two cells of the mask for one pair of points. *)
Definition both_cells (p q : Q * Q) : list Q :=
  (masked_slope p q ++ masked_slope q p)%list.

(** ** Example inputs *)

(** A coercion for the examples: the texts that [int()] reads are numbers,
    everything else is missing. *)
Definition integers_only (o : option string) : fval :=
  match o with
  | Some s =>
    match py_int s with
    | Some z => Fin (inject_Z z)
    | None => NaN
    end
  | None => NaN
  end.

(** A log of twelve requests, ten seconds apart, the last one failed with
    status 500. *)
Definition request (ts : Z) (ok code : string) : jrow :=
  {| timeStamp := Number (Fin (inject_Z ts)); elapsed := Number (Fin 50);
     success := CText ok; responseCode := CText code;
     label := CText "home"; responseMessage := CText "OK" |}.

Definition twelve_requests : jtl_file :=
  {| as_csv :=
       Some {| jcolumns := ["timeStamp"; "elapsed"; "success"; "responseCode"];
               jrows :=
                 (map (fun i => request (Z.of_nat i * 10000) "true" "200") (seq 0 11)
                  ++ [request 110000 "false" "500"])%list |};
     as_xml := None |}.

Definition with_filter (mode : string) : config :=
  {| warmup_hours := 0; early_start_h := 1; early_end_h := 2;
     late_duration_h := 2; bin_minutes := 1; latency_filter := mode;
     min_samples_per_bin := 5 |}.

(** A log of four requests: one failed by its flag only, one by its status
    only, one with a status that is no number, and one served. *)
Definition outcome_row (ts : Z) (ok : bool) (code : string) : jrow :=
  {| timeStamp := Number (Fin (inject_Z ts)); elapsed := Number (Fin 50);
     success := CBool ok; responseCode := CText code;
     label := CText "home"; responseMessage := CText "" |}.

Definition four_outcomes : jtl_file :=
  {| as_csv :=
       Some {| jcolumns := ["timeStamp"; "elapsed"; "label"; "responseCode";
                            "responseMessage"; "success"];
               jrows :=
                 [outcome_row 0 false "200";
                  outcome_row 10000 true "404";
                  outcome_row 20000 true
                    "Non HTTP response code: java.net.SocketException";
                  outcome_row 30000 true "200"] |};
     as_xml := None |}.

(** A CSV log of twelve requests where the [elapsed] cell of the first one
    is the word [timeout]: pandas then reads the whole column as texts. *)
Definition slow_request (ts : Z) (e : string) : jrow :=
  {| timeStamp := Number (Fin (inject_Z ts)); elapsed := Text e;
     success := CBool true; responseCode := CText "200";
     label := CText "home"; responseMessage := CText "OK" |}.

Definition text_latency_log : jtl_file :=
  {| as_csv :=
       Some {| jcolumns := ["timeStamp"; "elapsed"; "success"; "responseCode"];
               jrows := slow_request 0 "timeout"
                        :: map (fun i => slow_request (Z.of_nat i * 10000) "50")
                               (seq 1 11) |};
     as_xml := None |}.

(** Nine requests after the warm-up: five in the first minute, four in the
    second. *)
Definition served (seconds : Z) : timed :=
  {| t_hours := ms_to_hours (inject_Z (seconds * 1000));
     latency := Number (Fin 50);
     success_bool := true; resp_int := Some 200 |}.

Definition five_and_four : list timed :=
  map served [0; 10; 20; 30; 40; 60; 70; 80; 90].

(** A resource table and a request log with their header line only. *)
Definition monitor_columns : list string :=
  ["timestamp"; "timestamp_local"; "project"; "container_name"; "container_id";
   "memory_mib"; "memory_percent"; "cpu_percent"; "scope"].

Definition header_only_monitor : monitor_frame :=
  {| mcolumns := monitor_columns; mrows := [] |}.

Definition header_only_log : jtl_file :=
  {| as_csv :=
       Some {| jcolumns := ["timeStamp"; "elapsed"; "success"; "responseCode"];
               jrows := [] |};
     as_xml := None |}.

(** A resource table whose only sample has no usage value, and a log whose
    only request has no timestamp. *)
Definition monitor_without_usage : monitor_frame :=
  {| mcolumns := monitor_columns;
     mrows := [ {| timestamp := Some 1000; scope := "project";
                   container_name := "ALL"; memory_mib := NaN |} ] |}.

Definition log_without_time : jtl_file :=
  {| as_csv :=
       Some {| jcolumns := ["timeStamp"; "elapsed"; "success"; "responseCode"];
               jrows := [ {| timeStamp := Number NaN; elapsed := Number (Fin 50);
                             success := CBool true; responseCode := CText "200";
                             label := CText "home";
                             responseMessage := CText "OK" |} ] |};
     as_xml := None |}.

(** The requests of [twelve_requests] with their elapsed hours. *)
Definition twelve_timed : list timed :=
  match as_csv twelve_requests with
  | Some df => flat_map (timed_row integers_only true 0) (jrows df)
  | None => []
  end.

(** An XML log with one sample. *)
Definition one_sample_xml : jtl_file :=
  {| as_csv := Some {| jcolumns := ["<?xml version=1.0?>"]; jrows := [] |};
     as_xml :=
       Some (Element "testResults" [("version", "1.2")]
               [Element "httpSample"
                  [("t", "50"); ("ts", "1000"); ("s", "true"); ("lb", "home");
                   ("rc", "200"); ("rm", "OK")] []]) |}.

(** A resource table with the two required columns only. *)
Definition untagged_monitor : monitor_frame :=
  {| mcolumns := ["timestamp"; "memory_mib"];
     mrows := [ {| timestamp := Some 1000; scope := ""; container_name := "";
                   memory_mib := Fin 10 |} ] |}.

(** Two whole-run rows written for one timestamp. *)
Definition project_row (t : Z) (m : Q) : mrow :=
  {| timestamp := Some t; scope := "project"; container_name := "ALL";
     memory_mib := Fin m |}.

Definition container_row (t : Z) (name : string) (m : Q) : mrow :=
  {| timestamp := Some t; scope := "container"; container_name := name;
     memory_mib := Fin m |}.

Definition doubled_project_rows : monitor_frame :=
  {| mcolumns := monitor_columns;
     mrows := [container_row 1000 "web" 10; project_row 1000 10;
               container_row 1000 "db" 20; project_row 1000 30] |}.

(** Per-container rows only. *)
Definition containers_only : monitor_frame :=
  {| mcolumns := monitor_columns;
     mrows := [container_row 1000 "web" 10; container_row 1000 "db" 20;
               container_row 2000 "web" 11; container_row 2000 "db" 21] |}.

(** A resource table whose time column has another name. *)
Definition monitor_without_timestamp : monitor_frame :=
  {| mcolumns := ["time"; "memory_mib"; "scope"];
     mrows := [ {| timestamp := None; scope := "project"; container_name := "";
                   memory_mib := Fin 10 |} ] |}.

Definition default_config : config := with_filter "http<400".

(** A table without a scope column, with rows of the sentinel component. *)
Definition sentinel_rows : monitor_frame :=
  {| mcolumns := ["timestamp"; "container_name"; "memory_mib"];
     mrows := [container_row 1000 "web" 10; container_row 1000 "ALL" 30;
               container_row 2000 "ALL" 31] |}.

(** A log that is no XML document and, as a table, has other columns. *)
Definition unreadable_log : jtl_file :=
  {| as_csv := Some {| jcolumns := ["time"; "duration"]; jrows := [] |};
     as_xml := None |}.

(** A stand-in for the normal distribution function in the examples. *)
Definition flat_cdf (z : R) : R := (1 / 2)%R.

(** Two discovered runs: the first has a resource table without a timestamp
    column, the second is complete. *)
Definition run_a : run := ("app-a", monitor_without_timestamp, twelve_requests).
Definition run_b : run := ("app-b", containers_only, twelve_requests).

Definition row_b : SummaryRow :=
  {| app_name := "app-b";
     memory_slope_mib_per_hour := NaN; memory_mk_pvalue := PNaN;
     p95_slope_ms_per_hour := NaN; p95_mk_pvalue := PNaN;
     delta_memory_early_late := NaN; delta_p95_early_late := NaN;
     total_errors := 1 |}.

(** A distribution function for the examples: 1/2 at zero, rising to 1. *)
Definition ramp_cdf (z : R) : R := (1 - / (2 * (1 + z)))%R.

Definition rising_with_gap : list fval := [Fin 1; Fin 2; NaN; Fin 3; Fin 2].

(** A series of 1,664,511 equal values and a larger one at its end. *)
Definition long_tied_series : list Q :=
  (repeat 1%Q (N.to_nat 1664511) ++ [2%Q])%list.

(** Parallel arrays for the examples. *)
Definition sample_y : list fval := [Fin 5; Fin 1; NaN; Fin 4; Fin 9].
Definition sample_x : list fval := [Fin 2; Fin 0; Fin 7; Fin 1; NaN].

(** ** Further definitions *)

(** An element is the root or one of its descendants. *)
Inductive within : xml -> xml -> Prop :=
| within_self (e : xml) : within e e
| within_child (e c : xml) (t : string) (a : list (string * string))
    (cs : list xml) :
    In c cs -> within e c -> within e (Element t a cs).

(** A text of white space only. *)
Definition all_space (s : string) : Prop := Forall (fun c => is_space c = true) (chars s).

(** [str(z)] of an int: the decimal digits, after a minus sign when
    negative. *)
Definition decimal (z : Z) : string :=
  DecimalString.NilEmpty.string_of_int (Z.to_int z).

(** The value of decimal digits read after [acc]. *)
Fixpoint uint_value (acc : Z) (u : Decimal.uint) : Z :=
  match u with
  | Decimal.Nil => acc
  | Decimal.D0 d => uint_value (10 * acc + 0) d
  | Decimal.D1 d => uint_value (10 * acc + 1) d
  | Decimal.D2 d => uint_value (10 * acc + 2) d
  | Decimal.D3 d => uint_value (10 * acc + 3) d
  | Decimal.D4 d => uint_value (10 * acc + 4) d
  | Decimal.D5 d => uint_value (10 * acc + 5) d
  | Decimal.D6 d => uint_value (10 * acc + 6) d
  | Decimal.D7 d => uint_value (10 * acc + 7) d
  | Decimal.D8 d => uint_value (10 * acc + 8) d
  | Decimal.D9 d => uint_value (10 * acc + 9) d
  end.

(** A transaction sample with two sub-samples, as JMeter nests them. *)
Definition nested_xml : jtl_file :=
  {| as_csv := None;
     as_xml :=
       Some (Element "testResults" []
               [Element "sample" [("t", "90"); ("ts", "1000"); ("s", "true")]
                  [Element "httpSample" [("t", "40"); ("ts", "1000"); ("s", "true")] [];
                   Element "httpSample" [("t", "50"); ("ts", "1040"); ("s", "true")]
                     [Element "assertionResult" [] []]]]) |}.

Definition digit_text (u : Decimal.uint) : string :=
  DecimalString.NilEmpty.string_of_uint u.

(** The time and value columns handed to the estimators, from (time, value)
    pairs. *)
Definition values_of (pts : list (Q * Q)) : list fval := map (fun p => Fin (snd p)) pts.
Definition times_of (pts : list (Q * Q)) : list fval := map (fun p => Fin (fst p)) pts.

(** The time of a bin: [bins * (bin_minutes / 60.0)]. *)
Definition bin_hours (bin_minutes : Z) (bp : Z * Q) : Q * Q :=
  ((inject_Z (fst bp) * (inject_Z bin_minutes / 60))%Q, snd bp).

(** Forty served requests, ten seconds apart; the latency grows by a
    millisecond per request. *)
Definition forty_requests : list timed :=
  map (fun i => {| t_hours := ms_to_hours (inject_Z (Z.of_nat i * 10000));
                   latency := Number (Fin (inject_Z (50 + Z.of_nat i)));
                   success_bool := true; resp_int := Some 200 |})
      (seq 0 40).

(** A change of unit or scale applied to every value of a column; a missing
    value stays missing. *)
Definition rescale (g : Q -> Q) (v : fval) : fval :=
  match v with
  | NaN => NaN
  | Fin q => Fin (g q)
  end.

(** Mebibytes to bytes. *)
Definition mib_to_bytes (q : Q) : Q := (1048576 * q)%Q.

(** A falling series for the examples. *)
Definition falling : list fval := [Fin 9; Fin 7; NaN; Fin 4; Fin 2].

(** The number of pairs of [n] values, and the variance numerator without
    ties. *)
Definition pair_count (n : Z) : Z := n * (n - 1) / 2.
Definition untied_numerator (n : Z) : Z := n * (n - 1) * (2 * n + 5).

(** [compute_memory_metrics] down to its warm-up exclusion: the samples that
    are left, as (elapsed hours, usage) pairs. *)
Definition warm_samples (monitor_path : monitor_frame) (c : config)
  : outcome (list (Q * Q)) :=
  mon <- read_monitor_csv monitor_path ;;
  built <- build_memory_series mon ;;
  let sorted := isort (fun a b => (fst a <=? fst b)%Z) built in
  match sorted with
  | [] => Raise IndexError
  | (t0, _) :: _ =>
    Ok (filter (fun p => Qle_bool (warmup_hours c) (fst p))
          (map (fun tm => (ms_to_hours (inject_Z (fst tm - t0)), snd tm)) sorted))
  end.

(** A point is in the early window. *)
Definition in_early (c : config) (p : Q * Q) : bool :=
  (Qle_bool (early_start_h c) (fst p) && Qlt_bool (fst p) (early_end_h c))%bool.

(** The name of a discovered run. *)
Definition run_name (r : run) : string := fst (fst r).

(** An hourly project series over four hours, and the default settings of
    the command line. *)
Definition hourly_monitor : monitor_frame :=
  {| mcolumns := monitor_columns;
     mrows := [project_row 7200000 120; project_row 0 100;
               project_row 3600000 110; project_row 14400000 140;
               project_row 10800000 130] |}.

Definition command_line_defaults : config :=
  {| warmup_hours := 1 # 2; early_start_h := 1; early_end_h := 2;
     late_duration_h := 2; bin_minutes := 1; latency_filter := "http<400";
     min_samples_per_bin := 5 |}.

(** A second complete run, discovered after [run_b], whose name comes
    first. *)
Definition run_alpha : run := ("alpha", containers_only, twelve_requests).

Definition row_alpha : SummaryRow :=
  {| app_name := "alpha";
     memory_slope_mib_per_hour := NaN; memory_mk_pvalue := PNaN;
     p95_slope_ms_per_hour := NaN; p95_mk_pvalue := PNaN;
     delta_memory_early_late := NaN; delta_p95_early_late := NaN;
     total_errors := 1 |}.

(** The three names of the latency filter. *)
Definition known_filter (mode : string) : Prop :=
  mode = "all" \/ mode = "success" \/ mode = "http<400".

(** Per-container rows where one sample time has no usage value at all. *)
Definition containers_with_gap : monitor_frame :=
  {| mcolumns := monitor_columns;
     mrows := [container_row 1000 "web" 10; container_row 1000 "db" 20;
               {| timestamp := Some 2000; scope := "container";
                  container_name := "web"; memory_mib := NaN |};
               {| timestamp := Some 2000; scope := "container";
                  container_name := "db"; memory_mib := NaN |}] |}.

(** * Properties *)

(** ** Sorting *)

Section SortFacts.
Context {A : Type} (leb : A -> A -> bool).

Lemma insert_perm (a : A) (l : list A) : Permutation (insert leb a l) (a :: l).
Proof.
  induction l as [|b t IH]; simpl; [reflexivity|].
  destruct (leb a b); [reflexivity|].
  rewrite IH. apply perm_swap.
Qed.

Lemma isort_perm (l : list A) : Permutation (isort leb l) l.
Proof.
  induction l as [|a t IH]; simpl; [reflexivity|].
  rewrite insert_perm. now constructor.
Qed.

Lemma isort_length (l : list A) : List.length (isort leb l) = List.length l.
Proof. apply Permutation_length, isort_perm. Qed.

Lemma isort_nil_inv (l : list A) : isort leb l = [] -> l = [].
Proof.
  intros H. apply Permutation_nil. rewrite <- H. apply isort_perm.
Qed.

Hypothesis leb_total : forall a b, leb a b = true \/ leb b a = true.
Hypothesis leb_trans : forall a b c, leb a b = true -> leb b c = true -> leb a c = true.

Let le (a b : A) : Prop := leb a b = true.

Lemma insert_sorted (a : A) (l : list A) :
  StronglySorted le l -> StronglySorted le (insert leb a l).
Proof.
  induction 1 as [|b t Hs IH Hall]; simpl.
  - repeat constructor.
  - destruct (leb a b) eqn:E.
    + constructor; [now constructor|].
      constructor; [exact E|].
      eapply Forall_impl; [|exact Hall]. intros x Hx. eapply leb_trans; eassumption.
    + assert (Hba : le b a) by (destruct (leb_total a b); [congruence|assumption]).
      constructor; [exact IH|].
      eapply Permutation_Forall; [symmetry; apply insert_perm|].
      constructor; [exact Hba | exact Hall].
Qed.

Lemma isort_sorted (l : list A) : StronglySorted le (isort leb l).
Proof.
  induction l; simpl; [constructor | now apply insert_sorted].
Qed.
End SortFacts.

Lemma filter_length_perm {A} (p : A -> bool) (l l' : list A) :
  Permutation l l' -> List.length (filter p l) = List.length (filter p l').
Proof.
  induction 1; simpl; try congruence.
  - destruct (p x); simpl; congruence.
  - destruct (p x), (p y); reflexivity.
Qed.

(** ** The sorted request log *)

Lemma sort_values_cases (rows : list jrow) :
  sort_values rows = Raise TypeError \/
  sort_values rows =
    Ok (isort (fun a b => value_leb (timeStamp a) (timeStamp b)) rows).
Proof. unfold sort_values. destruct (_ && _)%bool; auto. Qed.

Lemma sort_values_perm (rows j : list jrow) :
  sort_values rows = Ok j -> Permutation j rows.
Proof.
  destruct (sort_values_cases rows) as [E|E]; rewrite E; [discriminate|].
  intros H. inversion H. apply isort_perm.
Qed.

Lemma sort_values_numbers (rows : list jrow) :
  (forall r, In r rows -> is_text (timeStamp r) = false) ->
  sort_values rows =
    Ok (isort (fun a b => value_leb (timeStamp a) (timeStamp b)) rows).
Proof.
  intros H. unfold sort_values.
  replace (existsb is_text (map timeStamp rows)) with false; [reflexivity|].
  symmetry. apply not_true_is_false. intros E.
  apply existsb_exists in E as [v [Hv Ev]].
  apply in_map_iff in Hv as [r [<- Hr]]. rewrite (H r Hr) in Ev. discriminate.
Qed.

(** ** The error count *)

Lemma error_mask_is_error (has_code : bool) (r : jrow) :
  error_mask has_code r = is_error has_code r.
Proof.
  unfold error_mask, is_error, row_success, row_resp_int.
  destruct (_to_bool (success r)); [|reflexivity].
  destruct has_code; [|reflexivity].
  destruct (_to_int_or_nan (responseCode r)); simpl; [|reflexivity].
  now rewrite orb_false_r.
Qed.

Lemma count_errors_perm (has_code : bool) (l l' : list jrow) :
  Permutation l l' -> count_errors has_code l = count_errors has_code l'.
Proof.
  intros H. unfold count_errors. f_equal. now apply filter_length_perm.
Qed.

Lemma warm_requests_errors nt (f : jtl_file) (c : config) te j :
  warm_requests nt f c = Ok (te, j) ->
  exists df, read_jmeter_jtl nt f = Ok df /\
             te = count_errors (mem_string "responseCode" (jcolumns df)) (jrows df).
Proof.
  unfold warm_requests. destruct (read_jmeter_jtl nt f) as [df|e]; simpl; [|discriminate].
  destruct (sort_values (jrows df)) as [sorted|] eqn:Es; simpl; [|discriminate].
  destruct (negb _); [discriminate|].
  destruct (drop_nan _); [discriminate|].
  intros H. inversion H; subst. exists df. split; [reflexivity|].
  apply count_errors_perm. now apply sort_values_perm.
Qed.

Lemma latency_metrics_errors nc nt (f : jtl_file) (c : config) s p d te :
  compute_latency_metrics nc nt f c = Ok (s, p, d, te) ->
  exists j, warm_requests nt f c = Ok (te, j).
Proof.
  unfold compute_latency_metrics.
  destruct (warm_requests nt f c) as [[te' j]|e]; simpl; [|discriminate].
  intros H. exists j. f_equal. f_equal.
  destruct (List.length j <? 10)%nat; [now inversion H|].
  destruct (latency_subset _ j) as [jj|]; simpl in H; [|discriminate].
  destruct (List.length jj <? 10)%nat; [now inversion H|].
  destruct (binned_trend nc c _ jj) as [[[s' p'] d']|]; simpl in H; [|discriminate].
  now inversion H.
Qed.

(** C5: when [compute_latency_metrics] returns, the error count it reports
    is the number of rows of the loaded log whose success flag is false, or
    whose status code is at least 400, or whose status code is missing or
    does not parse; so two runs on the same log, whatever their filter mode,
    warm-up or other settings, report the same count. *)
Theorem total_errors_independent_of_filter
    nc nt (f : jtl_file) (c1 c2 : config) (m1 m2 : latency_metrics) :
  compute_latency_metrics nc nt f c1 = Ok m1 ->
  compute_latency_metrics nc nt f c2 = Ok m2 ->
  exists df,
    read_jmeter_jtl nt f = Ok df /\
    snd m1 =
      Z.of_nat (List.length
                  (filter (is_error (mem_string "responseCode" (jcolumns df)))
                          (jrows df))) /\
    snd m2 = snd m1.
Proof.
  destruct m1 as [[[s1 p1] d1] te1], m2 as [[[s2 p2] d2] te2]. intros H1 H2.
  apply latency_metrics_errors in H1 as [j1 H1].
  apply latency_metrics_errors in H2 as [j2 H2].
  apply warm_requests_errors in H1 as [df1 [R1 E1]].
  apply warm_requests_errors in H2 as [df2 [R2 E2]].
  exists df1. cbn [snd]. split; [exact R1|]. split.
  - rewrite E1. unfold count_errors. do 2 f_equal.
    apply filter_ext. intros r. apply error_mask_is_error.
  - rewrite R1 in R2. inversion R2; subst. reflexivity.
Qed.

Lemma total_errors_independent_of_filter_witness :
  compute_latency_metrics flat_cdf integers_only four_outcomes
    (with_filter "all") = Ok (NaN, PNaN, NaN, 3) /\
  compute_latency_metrics flat_cdf integers_only four_outcomes
    (with_filter "success") = Ok (NaN, PNaN, NaN, 3) /\
  exists df,
    read_jmeter_jtl integers_only four_outcomes = Ok df /\
    3 = Z.of_nat (List.length
                    (filter (is_error (mem_string "responseCode" (jcolumns df)))
                            (jrows df))) /\
    3 = 3.
Proof.
  split; [vm_compute; reflexivity|]. split; [vm_compute; reflexivity|].
  apply (total_errors_independent_of_filter
           flat_cdf integers_only four_outcomes
           (with_filter "all") (with_filter "success")
           (NaN, PNaN, NaN, 3) (NaN, PNaN, NaN, 3)).
  - vm_compute. reflexivity.
  - vm_compute. reflexivity.
Defined.

(** ** Status codes that do not parse *)

Lemma digits_other (s : string) :
  forall (after_digit : bool) (acc : Z) (c : ascii),
    In c (chars s) -> is_digit c = false -> c <> "_"%char ->
    digits after_digit acc s = None.
Proof.
  induction s as [|a t IH]; simpl; intros b acc c Hin Hd Hu; [contradiction|].
  destruct Hin as [->|Hin].
  - rewrite Hd. apply Ascii.eqb_neq in Hu. now rewrite Hu.
  - destruct (is_digit a); [eapply IH; eassumption|].
    destruct (Ascii.eqb a "_" && b)%bool; [eapply IH; eassumption | reflexivity].
Qed.

Lemma lstrip_keeps (s : string) (c : ascii) :
  In c (chars s) -> is_space c = false -> In c (chars (lstrip s)).
Proof.
  induction s as [|a t IH]; simpl; intros Hin Hs; [contradiction|].
  destruct (is_space a) eqn:E.
  - destruct Hin as [->|Hin]; [congruence | now apply IH].
  - exact Hin.
Qed.

Lemma rstrip_keeps (s : string) (c : ascii) :
  In c (chars s) -> is_space c = false -> In c (chars (rstrip s)).
Proof.
  induction s as [|a t IH]; simpl; intros Hin Hs; [contradiction|].
  destruct Hin as [->|Hin].
  - destruct (rstrip t); [rewrite Hs|]; simpl; auto.
  - specialize (IH Hin Hs). destruct (rstrip t); [contradiction|]. now right.
Qed.

Lemma strip_keeps (s : string) (c : ascii) :
  In c (chars s) -> is_space c = false -> In c (chars (strip s)).
Proof.
  intros Hin Hs. unfold strip. apply rstrip_keeps; [|exact Hs].
  now apply lstrip_keeps.
Qed.

Lemma py_int_dot (s : string) : In "."%char (chars s) -> py_int s = None.
Proof.
  intros Hin. apply strip_keeps in Hin; [|reflexivity].
  unfold py_int. destruct (_ <? _)%nat; [reflexivity|].
  destruct (strip s) as [|c t]; [reflexivity|].
  assert (Hd : forall u b, In "."%char (chars u) -> digits b 0 u = None).
  { intros u b Hu. eapply digits_other; [exact Hu|reflexivity|discriminate]. }
  destruct (Ascii.eqb c "+") eqn:Ep; [apply Ascii.eqb_eq in Ep; subst|];
    [|destruct (Ascii.eqb c "-") eqn:Em; [apply Ascii.eqb_eq in Em; subst|]].
  - destruct Hin as [Hin|Hin]; [discriminate|]. now apply Hd.
  - destruct Hin as [Hin|Hin]; [discriminate|]. now rewrite Hd.
  - now apply Hd.
Qed.

(** C10: a request whose status-code cell does not parse as a base-10
    integer once stripped gets a missing [resp_int] and is counted as an
    error, also when its success flag is true; every text with a decimal
    point is such a cell, ["200.0"] for one. *)
Theorem unparseable_status_counts_as_error (r : jrow) :
  py_int (strip (py_str (responseCode r))) = None ->
  _to_int_or_nan (responseCode r) = None /\
  error_mask true r = true /\
  (forall rows, count_errors true (r :: rows) = 1 + count_errors true rows) /\
  (forall s, In "."%char (chars s) -> _to_int_or_nan (CText s) = None) /\
  _to_int_or_nan (CText "200.0") = None.
Proof.
  intros H.
  assert (E : error_mask true r = true).
  { unfold error_mask, row_resp_int, _to_int_or_nan. rewrite H. simpl.
    now rewrite orb_true_r. }
  repeat split.
  - exact H.
  - exact E.
  - intros rows. unfold count_errors. cbn [filter]. rewrite E.
    cbn [List.length]. rewrite Nat2Z.inj_succ. lia.
  - intros s Hs. unfold _to_int_or_nan. simpl. apply py_int_dot.
    now apply strip_keeps.
Qed.

Lemma unparseable_status_counts_as_error_witness :
  row_success (request 0 "true" "200.0") = true /\
  error_mask true (request 0 "true" "200.0") = true.
Proof.
  split; [reflexivity|].
  apply (unparseable_status_counts_as_error (request 0 "true" "200.0")).
  reflexivity.
Defined.

(** ** Latency bins *)

Lemma bin_groups_fst (bm : Z) (jj : list timed) (g : Z * list value) :
  In g (bin_groups bm jj) ->
  snd g = map latency (filter (in_bin bm (fst g)) jj).
Proof.
  unfold bin_groups. intros H. apply in_map_iff in H as [k [<- _]]. reflexivity.
Qed.

Lemma bin_retained_iff (bm ms : Z) (jj : list timed) (b : Z) :
  In b (map fst (bin_groups bm jj)) ->
  In b (map fst (p95_series bm ms jj)) <->
  ms <= Z.of_nat (List.length (filter (in_bin bm b) jj)).
Proof.
  intros Hb. unfold p95_series. rewrite map_map. simpl.
  split.
  - intros H. apply in_map_iff in H as [g [Hg Hin]].
    apply filter_In in Hin as [Hin Hv]. subst b.
    unfold valid_bin in Hv. rewrite (bin_groups_fst _ _ _ Hin) in Hv.
    rewrite length_map in Hv. now apply Z.leb_le.
  - intros H. apply in_map_iff in Hb as [g [Hg Hin]]. subst b.
    apply in_map_iff. exists g. split; [reflexivity|].
    apply filter_In. split; [exact Hin|].
    unfold valid_bin. rewrite (bin_groups_fst _ _ _ Hin), length_map.
    now apply Z.leb_le.
Qed.

(** C6: a bin of the filtered requests stays in the p95 series exactly when
    it holds at least [min_samples_per_bin] requests, so one with a request
    less is dropped and one with exactly that many is kept; and a run that
    comes through the binning (the [elapsed] column is numeric, the bin
    width is not 0) with fewer than 5 bins kept reports an undefined slope,
    significance and delta. *)
Theorem bin_kept_iff_enough_samples nc nt (f : jtl_file) (c : config)
    (te : Z) (j jj : list timed) :
  let bm := bin_minutes c in
  let ms := min_samples_per_bin c in
  let samples b := Z.of_nat (List.length (filter (in_bin bm b) jj)) in
  (forall b, In b (map fst (bin_groups bm jj)) ->
     (In b (map fst (p95_series bm ms jj)) <-> ms <= samples b) /\
     (samples b = ms - 1 -> ~ In b (map fst (p95_series bm ms jj))) /\
     (samples b = ms -> In b (map fst (p95_series bm ms jj)))) /\
  (warm_requests nt f c = Ok (te, j) ->
   (10 <= List.length j)%nat ->
   latency_subset (latency_filter c) j = Ok jj ->
   (10 <= List.length jj)%nat ->
   bm <> 0 ->
   text_latencies nt f = false ->
   (List.length (p95_series bm ms jj) < 5)%nat ->
   compute_latency_metrics nc nt f c = Ok (NaN, PNaN, NaN, te)).
Proof.
  intros bm ms samples. split.
  - intros b Hb. pose proof (bin_retained_iff bm ms jj b Hb) as I.
    fold (samples b) in I. repeat split; try apply I; intros; try lia.
    + rewrite I. lia.
    + apply I. lia.
  - intros Hw Hj Hs Hjj Hbm Hnum Hp.
    unfold compute_latency_metrics. rewrite Hw. simpl.
    apply Nat.ltb_ge in Hj. rewrite Hj. rewrite Hs. simpl.
    apply Nat.ltb_ge in Hjj. rewrite Hjj.
    unfold binned_trend. fold bm ms.
    apply Z.eqb_neq in Hbm. rewrite Hbm, Hnum.
    apply Nat.ltb_lt in Hp. rewrite Hp. reflexivity.
Qed.

Lemma bin_kept_iff_enough_samples_witness :
  In 0 (map fst (p95_series 1 5 five_and_four)) /\
  ~ In 1 (map fst (p95_series 1 5 five_and_four)) /\
  compute_latency_metrics flat_cdf integers_only twelve_requests
    (with_filter "all") = Ok (NaN, PNaN, NaN, 1).
Proof.
  destruct (bin_kept_iff_enough_samples flat_cdf integers_only
              twelve_requests (with_filter "all") 1 twelve_timed five_and_four)
    as [K _].
  destruct (bin_kept_iff_enough_samples flat_cdf integers_only
              twelve_requests (with_filter "all") 1 twelve_timed twelve_timed)
    as [_ U].
  assert (G0 : In 0 (map fst (bin_groups 1 five_and_four))) by (vm_compute; auto).
  assert (G1 : In 1 (map fst (bin_groups 1 five_and_four))) by (vm_compute; auto).
  destruct (K 0 G0) as [_ [_ K0]].
  destruct (K 1 G1) as [_ [K1 _]].
  split; [|split].
  - apply K0. vm_compute. reflexivity.
  - apply K1. vm_compute. reflexivity.
  - apply U.
    + vm_compute. reflexivity.
    + vm_compute. lia.
    + reflexivity.
    + vm_compute. lia.
    + discriminate.
    + reflexivity.
    + vm_compute. lia.
Defined.

(** ** Inputs without a usable sample *)

(** C7, on the code: a resource table or a request log that leaves no sample
    with a timestamp makes the metric functions raise [IndexError] (the
    [iloc[0]] that reads the first timestamp) before their guards on the
    number of samples are reached. *)
Theorem empty_series_raises nc nt (c : config) :
  compute_memory_metrics nc header_only_monitor c = Raise IndexError /\
  compute_memory_metrics nc monitor_without_usage c = Raise IndexError /\
  compute_latency_metrics nc nt header_only_log c = Raise IndexError /\
  compute_latency_metrics nc nt log_without_time c = Raise IndexError.
Proof. repeat split. Qed.

(** Where the series has a first sample, the guards do answer: fewer than 3
    resource samples after the warm-up give undefined metrics. *)
Lemma memory_guard_answers nc (f mon : monitor_frame) (c : config)
    (built : series) (t0 : Z) (m0 : Q) (rest : series) :
  read_monitor_csv f = Ok mon ->
  build_memory_series mon = Ok built ->
  isort (fun a b => (fst a <=? fst b)%Z) built = (t0, m0) :: rest ->
  (List.length
     (filter (fun p => Qle_bool (warmup_hours c) (fst p))
        (map (fun tm => (ms_to_hours (inject_Z (fst tm - t0)), snd tm))
           ((t0, m0) :: rest))) < 3)%nat ->
  compute_memory_metrics nc f c = Ok (NaN, PNaN, NaN).
Proof.
  intros Hr Hb Hs Hl. unfold compute_memory_metrics.
  rewrite Hr. simpl. rewrite Hb. simpl. rewrite Hs.
  apply Nat.ltb_lt in Hl. now rewrite Hl.
Qed.

(** Fewer than 10 requests after the warm-up, or in the filtered subset,
    give undefined latency metrics and the error count. *)
Lemma latency_guard_answers nc nt (f : jtl_file) (c : config)
    (te : Z) (j : list timed) :
  warm_requests nt f c = Ok (te, j) ->
  ((List.length j < 10)%nat \/
   exists jj, latency_subset (latency_filter c) j = Ok jj /\
              (List.length jj < 10)%nat) ->
  compute_latency_metrics nc nt f c = Ok (NaN, PNaN, NaN, te).
Proof.
  intros Hw H. unfold compute_latency_metrics. rewrite Hw. simpl.
  destruct (List.length j <? 10)%nat eqn:E; [reflexivity|].
  destruct H as [H|[jj [Hs H]]].
  - apply Nat.ltb_lt in H. congruence.
  - rewrite Hs. simpl. apply Nat.ltb_lt in H. now rewrite H.
Qed.

(** ** The request-log loader *)

Lemma xml_fallback_rows nt (f : jtl_file) :
  xml_fallback nt f =
  match as_xml f, xml_rows nt f with
  | None, _ => Raise (ValueError "Could not parse as CSV or XML")
  | Some _, [] => Raise (ValueError "No JMeter sample nodes found in XML JTL")
  | Some _, rows => Ok {| jcolumns := xml_columns; jrows := rows |}
  end.
Proof.
  unfold xml_fallback, xml_rows. destruct (as_xml f); [|reflexivity].
  destruct (map _ _); reflexivity.
Qed.

Lemma xml_fallback_raises nt (f : jtl_file) :
  (exists e, xml_fallback nt f = Raise e) <-> xml_rows nt f = [].
Proof.
  rewrite xml_fallback_rows. unfold xml_rows.
  destruct (as_xml f) as [root|].
  - destruct (map _ _); split; intros H; try reflexivity; try discriminate.
    + now eexists.
    + destruct H; discriminate.
  - split; [reflexivity | now eexists].
Qed.

(** The statement of C8 fails on a CSV log with its header line only: no
    encoding yields a row, and the loader returns the empty table. *)
Lemma header_only_log_is_returned :
  csv_rows header_only_log = [] /\
  xml_rows integers_only header_only_log = [] /\
  ~ ((exists e, read_jmeter_jtl integers_only header_only_log = Raise e) <->
     (csv_rows header_only_log = [] /\
      xml_rows integers_only header_only_log = [])).
Proof.
  repeat split. intros [_ H].
  destruct H as [e He]; [split; reflexivity | discriminate].
Qed.

(** C8, as the loader does it: the CSV table is used exactly when it was
    read and has the three mandatory columns, with no condition on its rows;
    otherwise the rows come from the [httpSample] and [sample] elements of
    the XML document, reading their attributes ts, t, s, rc, lb and rm; and
    the loader raises exactly when the CSV table is not used and the XML
    document does not parse or has no such element. *)
Theorem loader_csv_first_then_xml nt (f : jtl_file) :
  (forall df, as_csv f = Some df ->
     issubset mandatory (jcolumns df) = true -> read_jmeter_jtl nt f = Ok df) /\
  (csv_attempt f = None -> read_jmeter_jtl nt f = xml_fallback nt f) /\
  (csv_attempt f = None -> xml_rows nt f <> [] ->
     read_jmeter_jtl nt f = Ok {| jcolumns := xml_columns; jrows := xml_rows nt f |}) /\
  (forall r, In r (xml_rows nt f) <->
     exists root e, as_xml f = Some root /\ In e (iter root) /\
       (xml_tag e = "httpSample" \/ xml_tag e = "sample") /\
       r = {| timeStamp := Number (nt (attrib_get "ts" (xml_attrib e)));
              elapsed := Number (nt (attrib_get "t" (xml_attrib e)));
              success := CBool (_to_bool (attr_cell (attrib_get "s" (xml_attrib e))));
              responseCode := attr_cell (attrib_get "rc" (xml_attrib e));
              label := attr_cell (attrib_get "lb" (xml_attrib e));
              responseMessage := attr_cell (attrib_get "rm" (xml_attrib e)) |}) /\
  ((exists e, read_jmeter_jtl nt f = Raise e) <->
     (csv_attempt f = None /\ xml_rows nt f = [])).
Proof.
  split; [|split; [|split; [|split]]].
  - intros df H1 H2. unfold read_jmeter_jtl, csv_attempt. now rewrite H1, H2.
  - intros H. unfold read_jmeter_jtl. now rewrite H.
  - intros H Hx. unfold read_jmeter_jtl. rewrite H, xml_fallback_rows.
    unfold xml_rows in *. destruct (as_xml f); [|contradiction].
    destruct (map _ _); [contradiction | reflexivity].
  - intros r. unfold xml_rows. destruct (as_xml f) as [root|].
    + rewrite in_map_iff. split.
      * intros [e [<- He]]. apply filter_In in He as [He Hs].
        exists root, e. repeat split; try assumption.
        unfold is_sample, mem_string in Hs. simpl in Hs.
        rewrite orb_false_r in Hs. apply orb_true_iff in Hs as [Hs|Hs];
          apply String.eqb_eq in Hs; auto.
      * intros [root' [e [Hr [He [Ht ->]]]]]. inversion Hr; subst root'.
        exists e. split; [reflexivity|]. apply filter_In. split; [assumption|].
        unfold is_sample, mem_string. simpl.
        destruct Ht as [-> | ->]; reflexivity.
    + split; [contradiction|]. intros [root [e [Hr _]]]. discriminate.
  - unfold read_jmeter_jtl. destruct (csv_attempt f) as [df|].
    + split; [intros [e He]; discriminate | intros [H _]; discriminate].
    + rewrite xml_fallback_raises. split; [now split | now intros [_ H]].
Qed.

Lemma loader_csv_first_then_xml_witness :
  (exists df, as_csv twelve_requests = Some df /\
              read_jmeter_jtl integers_only twelve_requests = Ok df) /\
  (exists r,
     read_jmeter_jtl integers_only one_sample_xml =
     Ok {| jcolumns := xml_columns; jrows := [r] |} /\
     timeStamp r = Number (Fin 1000) /\ responseCode r = CText "200").
Proof.
  split.
  - eexists. split; [reflexivity|].
    apply (loader_csv_first_then_xml integers_only twelve_requests);
      reflexivity.
  - eexists. split.
    + apply (loader_csv_first_then_xml integers_only one_sample_xml).
      * reflexivity.
      * discriminate.
    + split; reflexivity.
Defined.

(** ** The canonical resource series *)

Lemma strictly_sorted (l : list Z) :
  StronglySorted (fun a b => (a <=? b)%Z = true) l -> NoDup l ->
  StronglySorted Z.lt l.
Proof.
  induction 1 as [|a l Hs IH Ha]; intros Hn; [constructor|].
  inversion Hn as [|? ? Hnot Hd]; subst. constructor; [now apply IH|].
  rewrite Forall_forall in *. intros b Hb. pose proof (Ha b Hb) as L.
  apply Z.leb_le in L. assert (a <> b) by (intros ->; contradiction). lia.
Qed.

Lemma complete_row_in (rows : list mrow) (t : Z) (m : Q) :
  In (t, m) (flat_map complete_row rows) <->
  exists r, In r rows /\ timestamp r = Some t /\ memory_mib r = Fin m.
Proof.
  rewrite in_flat_map. unfold complete_row. split.
  - intros [r [Hr H]]. exists r. split; [exact Hr|].
    destruct (timestamp r), (memory_mib r); simpl in H; try contradiction.
    destruct H as [H|[]]. now inversion H.
  - intros [r [Hr [Ht Hm]]]. exists r. split; [exact Hr|].
    rewrite Ht, Hm. now left.
Qed.

Lemma timestamps_in (rows : list mrow) (t : Z) :
  In t (timestamps rows) <-> exists r, In r rows /\ timestamp r = Some t.
Proof.
  unfold timestamps. rewrite in_flat_map. split.
  - intros [r [Hr H]]. exists r. split; [exact Hr|].
    destruct (timestamp r); simpl in H; [|contradiction].
    destruct H as [->|[]]. reflexivity.
  - intros [r [Hr Ht]]. exists r. split; [exact Hr|]. rewrite Ht. now left.
Qed.

Lemma group_keys_in (rows : list mrow) (t : Z) :
  In t (group_keys rows) <-> In t (timestamps rows).
Proof.
  unfold group_keys. split; intros H.
  - apply (Permutation_in _ (isort_perm _ _)) in H. now apply nodup_In in H.
  - apply (Permutation_in _ (Permutation_sym (isort_perm _ _))).
    now apply nodup_In.
Qed.

Lemma group_keys_nodup (rows : list mrow) : NoDup (group_keys rows).
Proof.
  unfold group_keys. eapply Permutation_NoDup.
  - symmetry. apply isort_perm.
  - apply NoDup_nodup.
Qed.

Lemma build_memory_series_cases (f : monitor_frame) :
  has_column "timestamp" f = true ->
  has_column "memory_mib" f = true ->
  build_memory_series f =
  if tagged f then Ok (flat_map complete_row (filter is_project (mrows f)))
  else if sentinel f then Ok (flat_map complete_row (filter is_all (mrows f)))
  else if has_column "container_name" f
  then Ok (map (fun t => (t, group_sum (mrows f) t)) (group_keys (mrows f)))
  else Raise (ValueError "lacks both project markers and container_name").
Proof.
  intros Ht Hm. unfold build_memory_series, tagged, sentinel, select_dropna, groupby_sum.
  rewrite Ht, Hm. simpl.
  destruct (has_column "scope" f && _)%bool; [reflexivity|].
  destruct (has_column "container_name" f); simpl; [|reflexivity].
  destruct (existsb is_all (mrows f)); reflexivity.
Qed.

(** The statement of C4 fails on a loaded table that has neither a scope nor
    a component column: no branch is taken, the builder raises. *)
Lemma untagged_monitor_raises :
  exists mon,
    read_monitor_csv untagged_monitor = Ok mon /\
    build_memory_series mon =
      Raise (ValueError "lacks both project markers and container_name") /\
    ~ (exists s, build_memory_series mon = Ok s).
Proof.
  eexists. split; [reflexivity|]. split; [reflexivity|].
  intros [s H]. discriminate.
Qed.

Lemma group_keys_sorted (rows : list mrow) : StronglySorted Z.lt (group_keys rows).
Proof.
  apply strictly_sorted; [|apply group_keys_nodup].
  unfold group_keys. apply isort_sorted.
  - intros a b. destruct (Z.leb_spec a b); [now left | right; apply Z.leb_le; lia].
  - intros a b c. rewrite !Z.leb_le. lia.
Qed.

Lemma group_sum_usage (rows : list mrow) (t : Z) :
  group_sum rows t = fold_right Qplus 0%Q (usage_at t rows).
Proof.
  unfold group_sum, sumQ. f_equal.
  induction rows as [|r rows IH]; [reflexivity|].
  cbn [filter usage_at]. unfold at_time at 1.
  destruct (timestamp r) as [u|]; [|exact IH].
  destruct (Z.eq_dec u t) as [->|N].
  - rewrite Z.eqb_refl. cbn [map]. destruct (memory_mib r); [exact IH|].
    change (drop_nan (Fin q :: ?l)) with (q :: drop_nan l). now rewrite IH.
  - apply Z.eqb_neq in N. rewrite N. destruct (memory_mib r); exact IH.
Qed.

(** C4, as the builder does it, for a table with its timestamp and usage
    columns.  The branch depends on the tags only: with a scope column and a
    whole-run row, the series is the whole-run rows that have a timestamp
    and a usage value, and nothing else; else, with a component column and a
    sentinel row, it is those rows; else, with a component column, the
    series has each timestamp of the table once, in ascending order, with
    the sum of the usage values of all rows of that timestamp, and then no
    row is a whole-run or a sentinel row; and without a component column the
    builder raises. *)
Theorem series_branch_by_tags (f : monitor_frame) :
  has_column "timestamp" f = true ->
  has_column "memory_mib" f = true ->
  let rows := mrows f in
  (tagged f = true ->
     build_memory_series f = Ok (flat_map complete_row (filter is_project rows)) /\
     forall t m, In (t, m) (flat_map complete_row (filter is_project rows)) <->
       exists r, In r rows /\ scope r = "project" /\
                 timestamp r = Some t /\ memory_mib r = Fin m) /\
  (tagged f = false -> sentinel f = true ->
     build_memory_series f = Ok (flat_map complete_row (filter is_all rows)) /\
     forall t m, In (t, m) (flat_map complete_row (filter is_all rows)) <->
       exists r, In r rows /\ container_name r = "ALL" /\
                 timestamp r = Some t /\ memory_mib r = Fin m) /\
  (tagged f = false -> sentinel f = false ->
   has_column "container_name" f = true ->
     (exists s, build_memory_series f = Ok s /\
        StronglySorted Z.lt (map fst s) /\
        (forall t, In t (map fst s) <->
                   exists r, In r rows /\ timestamp r = Some t) /\
        (forall t m, In (t, m) s ->
                     m = fold_right Qplus 0%Q (usage_at t rows))) /\
     (has_column "scope" f = true -> forall r, In r rows -> scope r <> "project") /\
     (forall r, In r rows -> container_name r <> "ALL")) /\
  (tagged f = false -> has_column "container_name" f = false ->
     exists e, build_memory_series f = Raise e).
Proof.
  intros Ht Hm rows. rewrite (build_memory_series_cases f Ht Hm).
  assert (Hno : forall (p : mrow -> bool) r,
             existsb p rows = false -> In r rows -> p r = false).
  { intros p r He Hr. destruct (p r) eqn:E; [|reflexivity].
    rewrite <- He. symmetry. apply existsb_exists. now exists r. }
  split; [|split; [|split]].
  - intros ->. split; [reflexivity|]. intros t m. rewrite complete_row_in.
    split; intros [r [Hr H]]; exists r.
    + apply filter_In in Hr as [Hr Hp]. apply String.eqb_eq in Hp. tauto.
    + split; [|tauto]. apply filter_In. split; [tauto|].
      apply String.eqb_eq. tauto.
  - intros -> ->. split; [reflexivity|]. intros t m. rewrite complete_row_in.
    split; intros [r [Hr H]]; exists r.
    + apply filter_In in Hr as [Hr Hp]. apply String.eqb_eq in Hp. tauto.
    + split; [|tauto]. apply filter_In. split; [tauto|].
      apply String.eqb_eq. tauto.
  - intros Hg Hs Hc. rewrite Hg, Hs, Hc. split; [|split].
    + eexists. split; [reflexivity|]. rewrite map_map. cbn [fst]. rewrite map_id.
      split; [apply group_keys_sorted|]. split.
      * intros t. rewrite group_keys_in. apply timestamps_in.
      * intros t m H. apply in_map_iff in H as [u [E _]].
        inversion E; subst. apply group_sum_usage.
    + intros Hsc r Hr. unfold tagged in Hg. rewrite Hsc in Hg. simpl in Hg.
      apply (Hno is_project r Hg) in Hr. now apply String.eqb_neq in Hr.
    + intros r Hr. unfold sentinel in Hs. rewrite Hc in Hs. simpl in Hs.
      apply (Hno is_all r Hs) in Hr. now apply String.eqb_neq in Hr.
  - intros Hg Hc. rewrite Hg. unfold sentinel. rewrite Hc. simpl. now eexists.
Qed.

Lemma series_branch_by_tags_witness :
  build_memory_series doubled_project_rows = Ok [(1000, 10%Q); (1000, 30%Q)] /\
  build_memory_series sentinel_rows = Ok [(1000, 30%Q); (2000, 31%Q)] /\
  (exists s,
     build_memory_series containers_only = Ok s /\
     s = [(1000, 30%Q); (2000, 32%Q)] /\
     30%Q = fold_right Qplus 0%Q (usage_at 1000 (mrows containers_only)) /\
     32%Q = fold_right Qplus 0%Q (usage_at 2000 (mrows containers_only))) /\
  exists e, build_memory_series untagged_monitor = Raise e.
Proof.
  split; [|split; [|split]].
  - destruct (series_branch_by_tags doubled_project_rows eq_refl eq_refl)
      as [A _].
    apply A. reflexivity.
  - destruct (series_branch_by_tags sentinel_rows eq_refl eq_refl)
      as [_ [B _]].
    apply B; reflexivity.
  - destruct (series_branch_by_tags containers_only eq_refl eq_refl)
      as [_ [_ [C _]]].
    destruct C as [[s [E [_ [_ Sum]]]] _]; try reflexivity.
    exists s. split; [exact E|].
    assert (Es : s = [(1000, 30%Q); (2000, 32%Q)]).
    { vm_compute in E. now injection E as <-. }
    split; [exact Es|]. subst s. split.
    + apply (Sum 1000 30%Q). now left.
    + apply (Sum 2000 32%Q). right. now left.
  - destruct (series_branch_by_tags untagged_monitor eq_refl eq_refl)
      as [_ [_ [_ D]]].
    apply D; reflexivity.
Defined.

Lemma complete_rows_count (rows : list mrow) (t : Z) :
  count_occ Z.eq_dec (map fst (flat_map complete_row rows)) t =
  List.length (filter (sample_at t) rows).
Proof.
  induction rows as [|r rows IH]; [reflexivity|].
  cbn [flat_map filter]. rewrite map_app, count_occ_app, IH.
  unfold complete_row, sample_at, at_time.
  destruct (timestamp r) as [t'|]; [|reflexivity].
  destruct (memory_mib r); simpl; [now rewrite andb_false_r|].
  rewrite andb_true_r.
  destruct (Z.eq_dec t' t) as [->|N].
  - now rewrite Z.eqb_refl.
  - apply Z.eqb_neq in N. now rewrite N.
Qed.

Lemma filter_filter {A} (p q : A -> bool) (l : list A) :
  filter p (filter q l) = filter (fun a => (q a && p a)%bool) l.
Proof.
  induction l as [|a l IH]; [reflexivity|]. simpl.
  destruct (q a); simpl; [destruct (p a)|]; now rewrite IH.
Qed.

(** The statement of C9 fails on a table where two whole-run rows carry the
    same timestamp: both stay in the series. *)
Lemma doubled_timestamp_is_kept :
  build_memory_series doubled_project_rows = Ok [(1000, 10%Q); (1000, 30%Q)] /\
  ~ (forall s, build_memory_series doubled_project_rows = Ok s ->
               NoDup (map fst s)).
Proof.
  split; [reflexivity|]. intros H.
  specialize (H _ eq_refl). simpl in H. inversion H as [|x l Hn _]; subst.
  apply Hn. now left.
Qed.

(** C9, as the builder does it, for a table with its timestamp and usage
    columns.  In the summing branch the series has every timestamp of the
    table exactly once.  In the whole-run and sentinel branches a timestamp
    has as many values as there are selected rows that carry it with a
    usage value. *)
Theorem one_value_per_timestamp_when_summed (f : monitor_frame) (s : series) :
  has_column "timestamp" f = true ->
  has_column "memory_mib" f = true ->
  build_memory_series f = Ok s ->
  let rows := mrows f in
  (tagged f = false -> sentinel f = false ->
     NoDup (map fst s) /\
     forall t, In t (map fst s) <-> exists r, In r rows /\ timestamp r = Some t) /\
  (tagged f = true ->
     forall t, count_occ Z.eq_dec (map fst s) t =
               List.length (filter (fun r => (is_project r && sample_at t r)%bool) rows)) /\
  (tagged f = false -> sentinel f = true ->
     forall t, count_occ Z.eq_dec (map fst s) t =
               List.length (filter (fun r => (is_all r && sample_at t r)%bool) rows)).
Proof.
  intros Ht Hm Hb rows. rewrite (build_memory_series_cases f Ht Hm) in Hb.
  split; [|split].
  - intros Hg Hs. rewrite Hg, Hs in Hb.
    destruct (has_column "container_name" f); [|discriminate].
    inversion Hb; subst s. rewrite map_map. simpl. rewrite map_id.
    split; [apply group_keys_nodup|].
    intros t. rewrite group_keys_in. apply timestamps_in.
  - intros Hg t. rewrite Hg in Hb. inversion Hb; subst s.
    now rewrite complete_rows_count, filter_filter.
  - intros Hg Hs t. rewrite Hg, Hs in Hb. inversion Hb; subst s.
    now rewrite complete_rows_count, filter_filter.
Qed.

Lemma one_value_per_timestamp_when_summed_witness :
  NoDup [1000; 2000] /\
  count_occ Z.eq_dec [1000; 1000] 1000 = 2%nat.
Proof.
  split.
  - apply (one_value_per_timestamp_when_summed containers_only
             [(1000, group_sum (mrows containers_only) 1000);
              (2000, group_sum (mrows containers_only) 2000)]);
      reflexivity.
  - destruct (one_value_per_timestamp_when_summed doubled_project_rows
                [(1000, 10%Q); (1000, 30%Q)] eq_refl eq_refl eq_refl)
      as [_ [P _]].
    apply (P eq_refl 1000).
Defined.

(** ** The loop over the runs *)

Section Batch.
Variable norm_cdf : R -> R.
Variable to_numeric : option string -> fval.
Variable c : config.

Let summarize := summarize_run norm_cdf to_numeric c.
Let summarize_all' := summarize_all norm_cdf to_numeric c.

Lemma summarize_all_ok (runs : list run) (rows : list SummaryRow) :
  summarize_all' runs = Ok rows <->
  Forall2 (fun r row => summarize r = Ok row) runs rows.
Proof.
  subst summarize summarize_all'. revert rows.
  induction runs as [|r runs IH]; intros rows; simpl.
  - split; intros H; [inversion H; constructor | now inversion H].
  - destruct (summarize_run norm_cdf to_numeric c r) as [row|e] eqn:E; simpl.
    + destruct (summarize_all norm_cdf to_numeric c runs) as [rows'|e'] eqn:E'; simpl.
      * split; intros H.
        -- inversion H; subst. constructor; [exact E | now apply IH].
        -- inversion H as [|? row' ? rows'' H1 H2]; subst.
           apply IH in H2. congruence.
      * split; intros H; [discriminate|].
        inversion H as [|? row' ? rows'' H1 H2]; subst.
        apply IH in H2. discriminate.
    + split; intros H; [discriminate|].
      inversion H; subst. congruence.
Qed.

Lemma summarize_all_raise (before after : list run) (r : run) (e : exn) :
  (forall r', In r' before -> exists row, summarize r' = Ok row) ->
  summarize r = Raise e ->
  summarize_all' (before ++ r :: after) = Raise e.
Proof.
  subst summarize summarize_all'.
  induction before as [|b before IH]; intros Hb Hr; simpl.
  - now rewrite Hr.
  - destruct (Hb b (or_introl eq_refl)) as [row ->]. simpl.
    rewrite IH; [reflexivity | | exact Hr].
    intros r' Hr'. apply Hb. now right.
Qed.
End Batch.

(** The statement of C1 fails on a batch of two runs where the resource
    table of the first has no timestamp column: the second run alone gives
    its row, the batch gives no table. *)
Lemma failing_run_aborts_batch :
  main flat_cdf integers_only default_config [run_b] = Ok [row_b] /\
  main flat_cdf integers_only default_config [run_a; run_b] =
    Raise (ValueError "missing 'timestamp' column") /\
  ~ (exists rows,
       main flat_cdf integers_only default_config [run_a; run_b] = Ok rows).
Proof.
  split; [vm_compute; reflexivity|]. split; [reflexivity|].
  intros [rows H]. discriminate.
Qed.

(** C1, as the loop does it: there is no handler around the two metric
    computations, so the batch stops at the first run that raises, with that
    run's exception and without a table; a table comes out exactly when
    every run computes, and then it has one row per run.  A resource table
    without a timestamp column, or a request log that neither encoding
    reads, makes its run raise. *)
Theorem batch_stops_at_first_failing_run nc nt (c : config) (runs : list run) :
  (forall before r after e,
     runs = (before ++ r :: after)%list ->
     (forall r', In r' before -> exists row, summarize_run nc nt c r' = Ok row) ->
     summarize_run nc nt c r = Raise e ->
     main nc nt c runs = Raise e) /\
  (forall rows, main nc nt c runs = Ok rows ->
     List.length rows = List.length runs /\
     forall r, In r runs ->
       exists row, summarize_run nc nt c r = Ok row /\ In row rows) /\
  (runs <> [] ->
   (forall r, In r runs -> exists row, summarize_run nc nt c r = Ok row) ->
   exists rows, main nc nt c runs = Ok rows) /\
  (forall name mon jtl,
     has_column "timestamp" mon = false ->
     summarize_run nc nt c (name, mon, jtl) =
       Raise (ValueError "missing 'timestamp' column")) /\
  (forall name mon jtl m,
     compute_memory_metrics nc mon c = Ok m ->
     csv_attempt jtl = None -> xml_rows nt jtl = [] ->
     exists e, summarize_run nc nt c (name, mon, jtl) = Raise e).
Proof.
  split; [|split; [|split; [|split]]].
  - intros before r after e -> Hb Hr. unfold main.
    rewrite (summarize_all_raise nc nt c before after r e Hb Hr).
    destruct before; reflexivity.
  - intros rows H. unfold main in H.
    destruct runs as [|r0 runs']; [discriminate|]. remember (r0 :: runs') as rs.
    destruct (summarize_all nc nt c rs) as [rows'|] eqn:E; [|discriminate].
    simpl in H. inversion H; subst rows. clear H.
    apply summarize_all_ok in E. split.
    + rewrite isort_length. symmetry. eapply Forall2_length; eassumption.
    + intros r Hr. clear Heqrs. induction E as [|x y l l' Hxy Hl IH].
      * contradiction.
      * destruct Hr as [->|Hr].
        -- exists y. split; [exact Hxy|].
           apply (Permutation_in _ (Permutation_sym (isort_perm _ _))). now left.
        -- destruct (IH Hr) as [row [H1 H2]]. exists row. split; [exact H1|].
           apply (Permutation_in _ (Permutation_sym (isort_perm _ _))). right.
           now apply (Permutation_in _ (isort_perm _ _)) in H2.
  - intros Hne Hall.
    assert (E : exists rows, summarize_all nc nt c runs = Ok rows).
    { clear Hne. induction runs as [|r runs' IH]; [now eexists|].
      destruct (Hall r (or_introl eq_refl)) as [row Hrow].
      destruct IH as [rows Hrows]; [intros; apply Hall; now right|].
      simpl. rewrite Hrow, Hrows. simpl. now eexists. }
    destruct E as [rows E]. unfold main. rewrite E.
    destruct runs; [contradiction | simpl; now eexists].
  - intros name mon jtl H. unfold summarize_run, compute_memory_metrics, read_monitor_csv.
    unfold has_column in H. now rewrite H.
  - intros name mon jtl [[s p] d] Hm Hc Hx. unfold summarize_run. rewrite Hm. simpl.
    unfold compute_latency_metrics, warm_requests, read_jmeter_jtl. rewrite Hc.
    destruct (proj2 (xml_fallback_raises nt jtl) Hx) as [e ->]. now eexists.
Qed.

Lemma batch_stops_at_first_failing_run_witness :
  main flat_cdf integers_only default_config [run_b; run_a] =
    Raise (ValueError "missing 'timestamp' column") /\
  (exists row, summarize_run flat_cdf integers_only default_config run_b = Ok row /\
               In row [row_b]) /\
  exists e, summarize_run flat_cdf integers_only default_config
              ("app-c", containers_only, unreadable_log) = Raise e.
Proof.
  destruct (batch_stops_at_first_failing_run flat_cdf integers_only
              default_config [run_b; run_a]) as [A [_ [_ [T _]]]].
  destruct (batch_stops_at_first_failing_run flat_cdf integers_only
              default_config [run_b]) as [_ [B [_ [_ X]]]].
  split; [|split].
  - apply (A [run_b] run_a []).
    + reflexivity.
    + intros r' [<-|[]]. exists row_b. vm_compute. reflexivity.
    + apply T. reflexivity.
  - apply (B [row_b]); [vm_compute; reflexivity | now left].
  - apply (X "app-c" containers_only unreadable_log (NaN, PNaN, NaN)).
    + vm_compute. reflexivity.
    + reflexivity.
    + reflexivity.
Defined.

(** ** Pairs of positions *)

Lemma flat_map_map {A B C} (f : A -> B) (g : B -> list C) (l : list A) :
  flat_map g (map f l) = flat_map (fun a => g (f a)) l.
Proof. induction l; simpl; congruence. Qed.

Lemma map_flat_map {A B C} (f : B -> C) (g : A -> list B) (l : list A) :
  map f (flat_map g l) = flat_map (fun a => map f (g a)) l.
Proof.
  induction l; simpl; [reflexivity|]. now rewrite map_app, IHl.
Qed.

Lemma flat_map_cons {A B} (f : A -> list B) (a : A) (l : list A) :
  flat_map f (a :: l) = (f a ++ flat_map f l)%list.
Proof. reflexivity. Qed.

Lemma flat_map_single {A B} (f : A -> B) (l : list A) :
  flat_map (fun a => [f a]) l = map f l.
Proof. induction l; simpl; congruence. Qed.

Lemma map_nth_seq {A} (l : list A) (d : A) :
  map (fun i => nth i l d) (seq 0 (List.length l)) = l.
Proof.
  induction l as [|a t IH]; [reflexivity|].
  cbn [List.length seq map nth]. f_equal.
  rewrite <- seq_shift, map_map. exact IH.
Qed.

Lemma index_pairs_S (n : nat) :
  index_pairs (S n) =
  (map (fun j => (O, j)) (seq 1 n) ++ map shift (index_pairs n))%list.
Proof.
  unfold index_pairs. cbn [seq flat_map].
  replace (S n - 1)%nat with n by lia. f_equal.
  rewrite <- seq_shift, flat_map_map, map_flat_map.
  apply flat_map_ext. intros i.
  replace (S n - S (S i))%nat with (n - S i)%nat by lia.
  rewrite <- seq_shift, !map_map. reflexivity.
Qed.

Lemma pairs_from_index {A B} (g : A -> A -> list B) (l : list A) (d : A) :
  flat_map (fun ij => g (nth (fst ij) l d) (nth (snd ij) l d))
           (index_pairs (List.length l)) =
  pairs_from g l.
Proof.
  induction l as [|a t IH]; [reflexivity|].
  cbn [List.length pairs_from]. rewrite index_pairs_S, flat_map_app. f_equal.
  - rewrite flat_map_map. cbn [fst snd nth].
    rewrite <- seq_shift, flat_map_map. cbn [nth].
    rewrite <- (flat_map_map (fun i => nth i t d) (g a)).
    now rewrite map_nth_seq.
  - rewrite flat_map_map. exact IH.
Qed.

Lemma sumZ_cons (a : Z) (l : list Z) : sumZ (a :: l) = a + sumZ l.
Proof. reflexivity. Qed.

Lemma sumZ_app (l l' : list Z) : sumZ (l ++ l') = sumZ l + sumZ l'.
Proof. induction l; simpl; lia. Qed.

Lemma S_statistic_pairs (y : list Q) :
  S_statistic y = sumZ (pairs_from (fun a b => [sign (b - a)]) y).
Proof.
  induction y as [|a t IH]; [reflexivity|].
  cbn [S_statistic pairs_from]. now rewrite sumZ_app, flat_map_single, IH.
Qed.

Lemma sign_numerator (q : Q) : sign q = Z.sgn (Qnum q).
Proof.
  unfold sign, Qcompare. simpl. rewrite Z.mul_1_r. now destruct (Qnum q).
Qed.

Lemma Qle_bool_false (a b : Q) : Qle_bool a b = false <-> (b < a)%Q.
Proof.
  split; intros H.
  - apply Qnot_le_lt. intros L. apply Qle_bool_iff in L. congruence.
  - destruct (Qle_bool a b) eqn:E; [|reflexivity].
    apply Qle_bool_iff in E. lra.
Qed.


Lemma sign_pos (q : Q) : (0 < q)%Q -> sign q = 1.
Proof. intros H. unfold sign. now rewrite (proj1 (Qgt_alt q 0) H). Qed.


Lemma sign_neg (q : Q) : (q < 0)%Q -> sign q = -1.
Proof. intros H. unfold sign. now rewrite (proj1 (Qlt_alt q 0) H). Qed.


Lemma sign_zero (q : Q) : (q == 0)%Q -> sign q = 0.
Proof. intros H. unfold sign. now rewrite (proj1 (Qeq_alt q 0) H). Qed.


Lemma S_statistic_reference (y : list Q) : S_statistic y = S_reference y.
Proof.
  rewrite S_statistic_pairs, <- (pairs_from_index _ y 0%Q).
  unfold S_reference, sumZ. rewrite flat_map_single. f_equal.
  apply map_ext. intros ij. apply sign_numerator.
Qed.

(** ** The tie term *)

Lemma Qeq_bool_l (a a' x : Q) : (a == a')%Q -> Qeq_bool a x = Qeq_bool a' x.
Proof.
  intros H. destruct (Qeq_bool a x) eqn:E, (Qeq_bool a' x) eqn:E'; try reflexivity.
  - apply Qeq_bool_iff in E. apply Qeq_bool_neq in E'. exfalso. apply E'.
    now rewrite <- H.
  - apply Qeq_bool_iff in E'. apply Qeq_bool_neq in E. exfalso. apply E.
    now rewrite H.
Qed.

Lemma Qeq_bool_comm (a b : Q) : Qeq_bool a b = Qeq_bool b a.
Proof.
  destruct (Qeq_bool a b) eqn:E, (Qeq_bool b a) eqn:E'; try reflexivity.
  - apply Qeq_bool_iff in E. apply Qeq_bool_neq in E'. exfalso. now apply E'.
  - apply Qeq_bool_iff in E'. apply Qeq_bool_neq in E. exfalso. now apply E.
Qed.

Lemma Qeq_bool_refl (a : Q) : Qeq_bool a a = true.
Proof. now apply Qeq_bool_iff. Qed.

Lemma multiplicity_eq (a a' : Q) (l : list Q) :
  (a == a')%Q -> multiplicity a l = multiplicity a' l.
Proof.
  intros H. unfold multiplicity. do 2 f_equal. apply filter_ext.
  intros x. now apply Qeq_bool_l.
Qed.

Lemma multiplicity_perm (a : Q) (l l' : list Q) :
  Permutation l l' -> multiplicity a l = multiplicity a l'.
Proof. intros H. unfold multiplicity. f_equal. now apply filter_length_perm. Qed.

Lemma multiplicity_cons (v a : Q) (t : list Q) :
  multiplicity v (a :: t) = (if Qeq_bool v a then 1 else 0) + multiplicity v t.
Proof.
  unfold multiplicity. cbn [filter]. destruct (Qeq_bool v a); [|reflexivity].
  cbn [List.length]. lia.
Qed.

Lemma multiplicity_absent (a : Q) (t : list Q) :
  existsb (Qeq_bool a) t = false -> multiplicity a t = 0.
Proof.
  induction t as [|b t IH]; [reflexivity|]. simpl. intros H.
  apply orb_false_iff in H as [H1 H2]. rewrite multiplicity_cons, H1, IH; auto.
Qed.

Lemma sumZ_perm (l l' : list Z) : Permutation l l' -> sumZ l = sumZ l'.
Proof. induction 1; simpl; lia. Qed.

Lemma tie_by_element_perm (l l' : list Q) :
  Permutation l l' -> tie_by_element l = tie_by_element l'.
Proof.
  intros H. unfold tie_by_element.
  rewrite (sumZ_perm _ _ (Permutation_map _ H)). f_equal.
  apply map_ext. intros x. now rewrite (multiplicity_perm x l l' H).
Qed.

Lemma sum_filter_split {A} (p : A -> bool) (F : A -> Z) (l : list A) :
  sumZ (map F l) =
  sumZ (map F (filter p l)) + sumZ (map F (filter (fun a => negb (p a)) l)).
Proof.
  induction l as [|a l IH]; [reflexivity|]. simpl.
  destruct (p a); simpl; lia.
Qed.

Lemma sum_filter_eq (a : Q) (F : Q -> Z) (l : list Q) :
  (forall v, (a == v)%Q -> F v = F a) ->
  sumZ (map F (filter (Qeq_bool a) l)) = multiplicity a l * F a.
Proof.
  intros HF. induction l as [|b l IH]; [reflexivity|].
  rewrite multiplicity_cons. cbn [filter].
  destruct (Qeq_bool a b) eqn:E; cbn [map]; rewrite ?sumZ_cons, IH; [|ring].
  apply Qeq_bool_iff in E. rewrite (HF b E). ring.
Qed.

Lemma filter_none {A} (p : A -> bool) (l : list A) :
  (forall a, In a l -> p a = false) -> filter p l = [].
Proof.
  induction l as [|a l IH]; [reflexivity|]. intros H. simpl.
  rewrite (H a (or_introl eq_refl)). apply IH. intros; apply H; now right.
Qed.

Lemma multiplicity_distinct (a : Q) (t : list Q) :
  multiplicity a (distinct_values t) = if existsb (Qeq_bool a) t then 1 else 0.
Proof.
  induction t as [|b t IH]; [reflexivity|].
  cbn [distinct_values existsb]. rewrite multiplicity_cons.
  unfold multiplicity in *. rewrite filter_filter.
  destruct (Qeq_bool a b) eqn:E; simpl.
  - rewrite filter_none; [reflexivity|]. intros x _.
    apply Qeq_bool_iff in E. rewrite (Qeq_bool_l a b x E).
    now destruct (Qeq_bool b x).
  - rewrite <- IH. do 2 f_equal. apply filter_ext. intros x.
    destruct (Qeq_bool a x) eqn:Ex; [|now rewrite andb_false_r].
    rewrite andb_true_r. apply Qeq_bool_iff in Ex.
    rewrite (Qeq_bool_comm b x), <- (Qeq_bool_l a x b Ex). now rewrite E.
Qed.

(** A sum over the elements, grouped by distinct value. *)
Lemma sum_by_distinct_value (h : Q -> Z) (l : list Q) :
  (forall u v, (u == v)%Q -> h u = h v) ->
  sumZ (map (fun v => multiplicity v l * h v) (distinct_values l)) =
  sumZ (map h l).
Proof.
  intros Hh. induction l as [|a t IH]; [reflexivity|].
  cbn [distinct_values map sumZ fold_right]. fold (sumZ (map h t)).
  match goal with |- _ + fold_right Z.add 0 ?m = _ => fold (sumZ m) end.
  rewrite multiplicity_cons, Qeq_bool_refl.
  set (D := distinct_values t) in *.
  set (G := fun v => multiplicity v t * h v) in *.
  assert (E1 : sumZ (map (fun v => multiplicity v (a :: t) * h v)
                       (filter (fun b => negb (Qeq_bool a b)) D)) =
               sumZ (map G (filter (fun b => negb (Qeq_bool a b)) D))).
  { f_equal. apply map_ext_in. intros v Hv. apply filter_In in Hv as [_ Hv].
    rewrite multiplicity_cons, (Qeq_bool_comm v a).
    destruct (Qeq_bool a v); [discriminate|]. reflexivity. }
  rewrite E1.
  pose proof (sum_filter_split (Qeq_bool a) G D) as Sp.
  assert (E2 : sumZ (map G (filter (Qeq_bool a) D)) = multiplicity a t * h a).
  { rewrite sum_filter_eq.
    - subst D. rewrite multiplicity_distinct. subst G. cbv beta.
      destruct (existsb (Qeq_bool a) t) eqn:Ex; [lia|].
      rewrite (multiplicity_absent a t Ex). lia.
    - intros v Hv. subst G. cbv beta.
      now rewrite (multiplicity_eq a v t Hv), (Hh a v Hv). }
  rewrite IH, E2 in Sp. rewrite Z.mul_add_distr_r. lia.
Qed.

Lemma tie_reference_by_element (l : list Q) : tie_reference l = tie_by_element l.
Proof.
  unfold tie_reference, tie_by_element.
  rewrite <- (sum_by_distinct_value (fun x => tie_share (multiplicity x l)) l).
  - unfold sumZ. f_equal. apply map_ext. intros v. unfold tie_share. cbv zeta. ring.
  - intros u v H. now rewrite (multiplicity_eq u v l H).
Qed.

Lemma Qle_bool_total (a b : Q) : Qle_bool a b = true \/ Qle_bool b a = true.
Proof.
  destruct (Qlt_le_dec a b) as [H|H].
  - left. apply Qle_bool_iff. now apply Qlt_le_weak.
  - right. now apply Qle_bool_iff.
Qed.

Lemma Qle_bool_trans (a b c : Q) :
  Qle_bool a b = true -> Qle_bool b c = true -> Qle_bool a c = true.
Proof.
  rewrite !Qle_bool_iff. apply Qle_trans.
Qed.

Lemma sortQ_sorted (l : list Q) : StronglySorted Qle_b (sortQ l).
Proof. apply isort_sorted; [apply Qle_bool_total | apply Qle_bool_trans]. Qed.

Lemma sortQ_perm (l : list Q) : Permutation (sortQ l) l.
Proof. apply isort_perm. Qed.

(** A sum over the elements, grouped by run. *)
Lemma sum_by_run (h : Q -> Z) (s : list Q) :
  (forall u v, (u == v)%Q -> h u = h v) ->
  sumZ (map (fun vc => snd vc * h (fst vc)) (run_lengths s)) = sumZ (map h s).
Proof.
  intros Hh. induction s as [|a t IH]; [reflexivity|].
  cbn [run_lengths map]. rewrite sumZ_cons, <- IH.
  destruct (run_lengths t) as [|[b c] r];
    [cbn [map fst snd]; unfold sumZ; cbn [fold_right]; ring|].
  destruct (Qeq_bool a b) eqn:E; cbn [map fst snd]; rewrite !sumZ_cons.
  - apply Qeq_bool_iff in E. rewrite (Hh b a (Qeq_sym _ _ E)). ring.
  - ring.
Qed.

Lemma run_lengths_in (s : list Q) (v : Q) (c : Z) :
  In (v, c) (run_lengths s) -> In v s.
Proof.
  revert v c. induction s as [|a t IH]; intros v c; [contradiction|].
  cbn [run_lengths]. destruct (run_lengths t) as [|[b k] r].
  - intros [H|[]]. inversion H. now left.
  - destruct (Qeq_bool a b); intros [H|H].
    + inversion H. now left.
    + right. apply (IH v c). now right.
    + inversion H. now left.
    + right. now apply (IH v c).
Qed.

Lemma run_lengths_nil (s : list Q) : run_lengths s = [] -> s = [].
Proof.
  destruct s as [|a t]; [reflexivity|]. cbn [run_lengths].
  destruct (run_lengths t) as [|[b k] r]; [discriminate|].
  destruct (Qeq_bool a b); discriminate.
Qed.

Lemma sorted_head_le (a : Q) (t : list Q) (x : Q) :
  StronglySorted Qle_b (a :: t) -> In x t -> (a <= x)%Q.
Proof.
  intros H Hx. apply StronglySorted_inv in H as [_ H].
  rewrite Forall_forall in H. now apply Qle_bool_iff, H.
Qed.

(** In a sorted list, the runs after the first hold larger values. *)
Lemma run_lengths_increasing (s : list Q) (b : Q) (c : Z) (r : list (Q * Z)) :
  StronglySorted Qle_b s -> run_lengths s = (b, c) :: r ->
  forall v k, In (v, k) r -> (b < v)%Q.
Proof.
  revert b c r. induction s as [|a t IH]; intros b c r Hs; [discriminate|].
  cbn [run_lengths]. pose proof (StronglySorted_inv Hs) as [Ht _].
  destruct (run_lengths t) as [|[b2 c2] r2] eqn:Er.
  - intros H. inversion H; subst. contradiction.
  - assert (Hb2 : (a <= b2)%Q).
    { apply (sorted_head_le a t b2 Hs), (run_lengths_in t b2 c2).
      rewrite Er. now left. }
    pose proof (IH _ _ _ Ht eq_refl) as IH'.
    destruct (Qeq_bool a b2) eqn:E; intros H; inversion H; subst; intros v k Hv.
    + apply Qeq_bool_iff in E. rewrite E. apply (IH' v k Hv).
    + apply Qeq_bool_neq in E.
      assert (Hlt : (b < b2)%Q).
      { destruct (Qle_lt_or_eq _ _ Hb2) as [L|L]; [exact L | contradiction]. }
      destruct Hv as [Hv|Hv].
      * inversion Hv; subst. exact Hlt.
      * eapply Qlt_trans; [exact Hlt|]. apply (IH' v k Hv).
Qed.

Lemma Qeq_bool_lt (v a : Q) : (a < v)%Q -> Qeq_bool v a = false.
Proof.
  intros H. destruct (Qeq_bool v a) eqn:E; [|reflexivity].
  apply Qeq_bool_iff in E. rewrite E in H. now apply Qlt_irrefl in H.
Qed.

(** In a sorted list, the length of a run is the multiplicity of its value. *)
Lemma run_lengths_multiplicity (s : list Q) :
  StronglySorted Qle_b s ->
  forall v c, In (v, c) (run_lengths s) -> c = multiplicity v s.
Proof.
  induction s as [|a t IH]; intros Hs v c; [contradiction|].
  pose proof (StronglySorted_inv Hs) as [Ht _]. specialize (IH Ht).
  cbn [run_lengths]. destruct (run_lengths t) as [|[b k] r] eqn:Er.
  - apply run_lengths_nil in Er. subst t. intros [H|[]]. inversion H; subst.
    rewrite multiplicity_cons, Qeq_bool_refl. reflexivity.
  - assert (Hb : (a <= b)%Q).
    { apply (sorted_head_le a t b Hs), (run_lengths_in t b k).
      rewrite Er. now left. }
    assert (Hk : k = multiplicity b t) by (apply IH; now left).
    assert (Hr : forall v c, In (v, c) r -> (b < v)%Q /\ c = multiplicity v t).
    { intros v' c' H'. split.
      - apply (run_lengths_increasing t b k r Ht Er v' c' H').
      - apply IH. now right. }
    destruct (Qeq_bool a b) eqn:E.
    + apply Qeq_bool_iff in E. intros [H|H].
      * inversion H; subst. rewrite multiplicity_cons, Qeq_bool_refl.
        rewrite (multiplicity_eq v b t E). lia.
      * destruct (Hr v c H) as [Hlt ->].
        rewrite multiplicity_cons, Qeq_bool_lt; [reflexivity|]. now rewrite E.
    + apply Qeq_bool_neq in E.
      assert (Hlt : (a < b)%Q).
      { destruct (Qle_lt_or_eq _ _ Hb) as [L|L]; [exact L | contradiction]. }
      intros [H|[H|H]].
      * inversion H; subst. rewrite multiplicity_cons, Qeq_bool_refl.
        rewrite multiplicity_absent; [reflexivity|].
        destruct (existsb (Qeq_bool v) t) eqn:Ex; [|reflexivity].
        apply existsb_exists in Ex as [x [Hx Hvx]]. apply Qeq_bool_iff in Hvx.
        exfalso. apply (Qlt_irrefl v).
        eapply Qlt_le_trans; [exact Hlt|]. rewrite Hvx.
        destruct t as [|t0 t']; [contradiction|].
        assert (t0 = b).
        { cbn [run_lengths] in Er. destruct (run_lengths t') as [|[b' k'] r'];
            [|destruct (Qeq_bool t0 b')]; now inversion Er. }
        subst t0. destruct Hx as [<-|Hx]; [apply Qle_refl|].
        apply (sorted_head_le b t' x Ht Hx).
      * inversion H; subst. rewrite multiplicity_cons, Qeq_bool_lt; auto.
      * destruct (Hr v c H) as [Hv ->].
        rewrite multiplicity_cons, Qeq_bool_lt; [reflexivity|].
        eapply Qlt_trans; eassumption.
Qed.

Lemma tie_term_by_element (y : list Q) : exact_tie_term y = tie_by_element y.
Proof.
  unfold exact_tie_term, unique_counts.
  rewrite <- (tie_by_element_perm _ _ (sortQ_perm y)).
  set (s := sortQ y). unfold tie_by_element.
  rewrite <- (sum_by_run (fun x => tie_share (multiplicity x s)) s).
  - f_equal. apply map_ext_in. intros [v c] H. cbn [fst snd].
    rewrite <- (run_lengths_multiplicity s (sortQ_sorted y) v c H).
    unfold exact_weight, tie_share. ring.
  - intros u v H. now rewrite (multiplicity_eq u v s H).
Qed.

(** ** The int64 array of the counts *)

Lemma wrap64_small (z : Z) : - 2 ^ 63 <= z < 2 ^ 63 -> wrap64 z = z.
Proof.
  intros H. unfold wrap64. rewrite Z.mod_small; lia.
Qed.

Lemma wrap64_mod (z : Z) : wrap64 z mod 2 ^ 64 = z mod 2 ^ 64.
Proof.
  unfold wrap64. rewrite Zminus_mod_idemp_l. f_equal. lia.
Qed.

Lemma wrap64_congr (a b : Z) : a mod 2 ^ 64 = b mod 2 ^ 64 -> wrap64 a = wrap64 b.
Proof.
  intros H. unfold wrap64. f_equal.
  rewrite <- (Zplus_mod_idemp_l a), <- (Zplus_mod_idemp_l b). now rewrite H.
Qed.

Lemma mod_add_congr (a b a' b' m : Z) :
  a mod m = a' mod m -> b mod m = b' mod m -> (a + b) mod m = (a' + b') mod m.
Proof. intros H1 H2. now rewrite Zplus_mod, H1, H2, <- Zplus_mod. Qed.

Lemma mod_mul_congr (a b a' b' m : Z) :
  a mod m = a' mod m -> b mod m = b' mod m -> (a * b) mod m = (a' * b') mod m.
Proof. intros H1 H2. now rewrite Zmult_mod, H1, H2, <- Zmult_mod. Qed.

Lemma tie_weight_wraps (c : Z) : tie_weight c = wrap64 (exact_weight c).
Proof.
  unfold tie_weight, exact_weight, mul64, add64, sub64.
  apply wrap64_congr. apply mod_mul_congr.
  - rewrite wrap64_mod. apply mod_mul_congr; [reflexivity | apply wrap64_mod].
  - rewrite wrap64_mod. apply mod_add_congr; [apply wrap64_mod | reflexivity].
Qed.

Lemma sum64_wraps (l : list Z) :
  fold_right add64 0 (map tie_weight l) = wrap64 (sumZ (map exact_weight l)).
Proof.
  induction l as [|c l IH]; [reflexivity|].
  cbn [map fold_right]. rewrite IH, sumZ_cons. unfold add64.
  apply wrap64_congr. apply mod_add_congr.
  - rewrite tie_weight_wraps. apply wrap64_mod.
  - apply wrap64_mod.
Qed.

Lemma tie_term_wraps (y : list Q) : tie_term y = wrap64 (exact_tie_term y).
Proof.
  unfold tie_term, exact_tie_term.
  rewrite <- (map_map snd tie_weight), <- (map_map snd exact_weight).
  apply sum64_wraps.
Qed.

Lemma var_numerator_wraps (y : list Q) :
  var_numerator y =
  (let n := Z.of_nat (List.length y) in n * (n - 1) * (2 * n + 5))
  - wrap64 (tie_by_element y).
Proof.
  unfold var_numerator. now rewrite tie_term_wraps, tie_term_by_element.
Qed.

Lemma tie_share_bounds (k n : Z) :
  1 <= k <= n -> 0 <= tie_share k <= (n - 1) * (2 * n + 5).
Proof. intros H. unfold tie_share. nia. Qed.

Lemma multiplicity_bounds (x : Q) (y : list Q) :
  In x y -> 1 <= multiplicity x y <= Z.of_nat (List.length y).
Proof.
  intros H. unfold multiplicity. split.
  - assert (Hin : In x (filter (Qeq_bool x) y)).
    { apply filter_In. split; [exact H | apply Qeq_bool_refl]. }
    destruct (filter (Qeq_bool x) y); [contradiction | simpl; lia].
  - apply inj_le. apply filter_length_le.
Qed.

Lemma sumZ_bounds (l : list Z) (b : Z) :
  (forall z, In z l -> 0 <= z <= b) ->
  0 <= sumZ l <= Z.of_nat (List.length l) * b.
Proof.
  induction l as [|a l IH]; intros H; [simpl; lia|].
  rewrite sumZ_cons. cbn [List.length]. rewrite Nat2Z.inj_succ.
  pose proof (H a (or_introl eq_refl)).
  assert (0 <= sumZ l <= Z.of_nat (List.length l) * b)
    by (apply IH; intros; apply H; now right).
  nia.
Qed.

(** The tie term lies between 0 and n(n-1)(2n+5). *)
Lemma tie_by_element_bounds (y : list Q) :
  let n := Z.of_nat (List.length y) in
  0 <= tie_by_element y <= n * (n - 1) * (2 * n + 5).
Proof.
  intros n. unfold tie_by_element.
  pose proof (sumZ_bounds (map (fun x => tie_share (multiplicity x y)) y)
                ((n - 1) * (2 * n + 5))) as B.
  rewrite length_map in B. fold n in B.
  replace (n * (n - 1) * (2 * n + 5)) with (n * ((n - 1) * (2 * n + 5))) by ring.
  apply B. intros z Hz. apply in_map_iff in Hz as [x [<- Hx]].
  apply tie_share_bounds. now apply multiplicity_bounds.
Qed.

(** Below 1,664,511 values nothing wraps. *)
Lemma short_series_exact (y : list Q) :
  Z.of_nat (List.length y) < 1664511 ->
  tie_term y = tie_reference y /\ var_numerator y = exact_numerator y.
Proof.
  intros H. pose proof (tie_by_element_bounds y) as B. cbv zeta in B.
  set (n := Z.of_nat (List.length y)) in *.
  assert (Hn : 0 <= n) by (unfold n; lia).
  assert (L : n * (n - 1) * (2 * n + 5) < 2 ^ 63).
  { assert (n <= 1664510) by lia.
    assert (n * (n - 1) * (2 * n + 5) <= 1664510 * (1664510 - 1) * (2 * 1664510 + 5))
      by nia.
    change (2 ^ 63) with 9223372036854775808. lia. }
  assert (E : tie_term y = tie_by_element y).
  { rewrite tie_term_wraps, tie_term_by_element. apply wrap64_small.
    change (2 ^ 63) with 9223372036854775808 in *. lia. }
  split.
  - now rewrite E, tie_reference_by_element.
  - unfold var_numerator, exact_numerator. now rewrite E, tie_term_by_element.
Qed.

Lemma variance_is_reference (y : list Q) :
  Z.of_nat (List.length y) < 1664511 -> variance y = variance_reference y.
Proof.
  intros H. unfold variance, variance_reference, var_numerator.
  now rewrite (proj1 (short_series_exact y H)).
Qed.

(** ** The significance test *)

Lemma z_score_toward_zero (S : Z) (v : R) :
  z_score S v = (IZR (toward_zero S) / sqrt v)%R.
Proof.
  unfold z_score, toward_zero.
  destruct (0 <? S)%Z eqn:E1.
  - apply Z.ltb_lt in E1. now rewrite (Z.sgn_pos S E1).
  - destruct (S <? 0)%Z eqn:E2.
    + apply Z.ltb_lt in E2. rewrite (Z.sgn_neg S E2).
      now replace (S - -1) with (S + 1) by lia.
    + apply Z.ltb_ge in E1. apply Z.ltb_ge in E2.
      replace S with 0 by lia. simpl. unfold Rdiv. now rewrite Rmult_0_l.
Qed.

Lemma drop_nan_finite (y : list fval) : drop_nan y = finite y.
Proof.
  induction y as [|[|q] t IH]; [reflexivity | exact IH |].
  cbn [finite]. rewrite <- IH. reflexivity.
Qed.

Lemma finite_length (y : list fval) :
  (List.length (finite y) <= List.length y)%nat.
Proof. induction y as [|[|q] t IH]; simpl; lia. Qed.

Lemma mann_kendall_is_reference nc (y : list fval) :
  Z.of_nat (List.length y) < 1664511 ->
  mann_kendall_pvalue nc y = mann_kendall_reference nc y.
Proof.
  intros H. unfold mann_kendall_pvalue, mann_kendall_reference, two_sided.
  cbv zeta. rewrite drop_nan_finite.
  assert (Hf : Z.of_nat (List.length (finite y)) < 1664511)
    by (pose proof (finite_length y); lia).
  rewrite (variance_is_reference _ Hf), z_score_toward_zero.
  now rewrite S_statistic_reference.
Qed.

Lemma drop_nan_fin (l : list Q) : drop_nan (map Fin l) = l.
Proof.
  unfold drop_nan. rewrite flat_map_map. induction l; simpl; congruence.
Qed.

Lemma multiplicity_constant (c x : Q) (l : list Q) :
  Forall (Qeq c) l -> (c == x)%Q -> multiplicity x l = Z.of_nat (List.length l).
Proof.
  intros H Hx. unfold multiplicity. do 2 f_equal.
  induction H as [|a l Ha Hl IH]; [reflexivity|]. simpl.
  rewrite <- (Qeq_bool_l c x a Hx).
  apply Qeq_bool_iff in Ha. now rewrite Ha, IH.
Qed.

Lemma sumZ_constant {A} (k : Z) (l : list A) :
  sumZ (map (fun _ => k) l) = Z.of_nat (List.length l) * k.
Proof.
  induction l as [|a l IH]; [reflexivity|].
  cbn [map List.length]. rewrite sumZ_cons, IH, Nat2Z.inj_succ. ring.
Qed.

Lemma var_numerator_constant (c : Q) (l : list Q) :
  Z.of_nat (List.length l) < 1664511 ->
  Forall (Qeq c) l -> var_numerator l = 0.
Proof.
  intros Hn H. rewrite (proj2 (short_series_exact l Hn)).
  unfold exact_numerator. cbv zeta.
  rewrite tie_term_by_element. unfold tie_by_element.
  rewrite (map_ext_in _ (fun _ => tie_share (Z.of_nat (List.length l)))).
  - rewrite sumZ_constant. unfold tie_share. ring.
  - intros x Hx. rewrite (multiplicity_constant c x l H); [reflexivity|].
    rewrite Forall_forall in H. now apply H.
Qed.

(** On a series of fewer than 1,664,511 values, [mann_kendall_pvalue] is the
    reference Mann-Kendall test.  Without its NaN entries, an input of fewer
    than 3 values gives NaN; otherwise S is the sum of the signs of
    [y[j] - y[i]] over the pairs [i < j], the variance is n(n-1)(2n+5) less
    k(k-1)(2k+5) for each distinct value appearing k times, over 18, a
    variance that is not positive gives 1, and else the result is
    2(1 - Phi(|z|)) with S moved by 1 toward zero in z.  The result, when a
    number, lies in [0, 1], and a constant sequence of at least 3 values
    gives exactly 1.  The distribution function is taken with its range on
    the non-negative reals, [1/2, 1]. *)
Theorem mann_kendall_matches_reference (norm_cdf : R -> R)
    (norm_cdf_range : forall z, (0 <= z)%R -> (1 / 2 <= norm_cdf z <= 1)%R)
    (y : list fval) :
  Z.of_nat (List.length y) < 1664511 ->
  mann_kendall_pvalue norm_cdf y = mann_kendall_reference norm_cdf y /\
  ((List.length (finite y) < 3)%nat -> mann_kendall_pvalue norm_cdf y = PNaN) /\
  (forall p, mann_kendall_pvalue norm_cdf y = PVal p -> (0 <= p <= 1)%R) /\
  (forall (l : list Q) (c : Q),
     y = map Fin l -> (3 <= List.length l)%nat -> Forall (Qeq c) l ->
     mann_kendall_pvalue norm_cdf y = PVal 1).
Proof.
  intros Hn.
  split; [now apply mann_kendall_is_reference|]. split; [|split].
  - intros H. unfold mann_kendall_pvalue. cbv zeta. rewrite drop_nan_finite.
    apply Nat.ltb_lt in H. now rewrite H.
  - intros p. unfold mann_kendall_pvalue. cbv zeta.
    destruct (List.length (drop_nan y) <? 3)%nat; [discriminate|].
    destruct (Qle_bool (variance (drop_nan y)) 0).
    + intros H. inversion H. lra.
    + intros H. inversion H. unfold two_sided.
      pose proof (norm_cdf_range _ (Rabs_pos
        (z_score (S_statistic (drop_nan y)) (Q2R (variance (drop_nan y)))))).
      lra.
  - intros l c -> Hl Hc. unfold mann_kendall_pvalue. cbv zeta.
    rewrite drop_nan_fin. apply Nat.ltb_ge in Hl. rewrite Hl.
    rewrite length_map in Hn.
    unfold variance. now rewrite (var_numerator_constant c l Hn Hc).
Qed.

Lemma ramp_cdf_range (z : R) : (0 <= z)%R -> (1 / 2 <= ramp_cdf z <= 1)%R.
Proof.
  intros Hz. unfold ramp_cdf.
  assert (H0 : (0 < / (2 * (1 + z)))%R) by (apply Rinv_0_lt_compat; lra).
  assert (H1 : (/ (2 * (1 + z)) <= / 2)%R) by (apply Rinv_le_contravar; lra).
  lra.
Qed.

Lemma mann_kendall_matches_reference_witness :
  S_statistic [1; 2; 3; 2]%Q = 3 /\
  variance [1; 2; 3; 2]%Q = (138 # 18)%Q /\
  mann_kendall_pvalue ramp_cdf rising_with_gap =
    PVal (2 * (1 - ramp_cdf (Rabs (IZR 2 / sqrt (Q2R (138 # 18))))))%R /\
  mann_kendall_pvalue ramp_cdf [Fin 7; Fin (14 # 2); Fin 7] = PVal 1.
Proof.
  split; [reflexivity|]. split; [reflexivity|]. split.
  - destruct (mann_kendall_matches_reference ramp_cdf ramp_cdf_range
                rising_with_gap) as [E _]; [vm_compute; reflexivity|].
    rewrite E. unfold mann_kendall_reference. cbv zeta.
    change (finite rising_with_gap) with [1; 2; 3; 2]%Q.
    assert (ES : S_reference [1; 2; 3; 2]%Q = 3) by reflexivity.
    assert (EV : variance_reference [1; 2; 3; 2]%Q = (138 # 18)%Q) by reflexivity.
    rewrite ES, EV. reflexivity.
  - destruct (mann_kendall_matches_reference ramp_cdf ramp_cdf_range
                [Fin 7; Fin (14 # 2); Fin 7]) as [_ [_ [_ K]]];
      [vm_compute; reflexivity|].
    apply (K [7; 14 # 2; 7]%Q 7%Q).
    + reflexivity.
    + simpl. lia.
    + repeat constructor.
Defined.

(** *** A series with more than 1,664,510 equal values *)

Lemma insert_tied (c d : Q) (n : nat) :
  (c < d)%Q ->
  insert Qle_bool c (repeat c n ++ [d]) = (repeat c (S n) ++ [d])%list.
Proof.
  intros H. destruct n as [|n]; cbn [repeat app insert].
  - replace (Qle_bool c d) with true; [reflexivity|].
    symmetry. apply Qle_bool_iff. lra.
  - replace (Qle_bool c c) with true; [reflexivity|].
    symmetry. apply Qle_bool_iff, Qle_refl.
Qed.

Lemma sortQ_tied (c d : Q) (n : nat) :
  (c < d)%Q -> sortQ (repeat c n ++ [d]) = (repeat c n ++ [d])%list.
Proof.
  intros H. unfold sortQ. induction n as [|n IH]; [reflexivity|].
  cbn [repeat app isort]. rewrite IH. now apply insert_tied.
Qed.

Lemma run_lengths_tied (c d : Q) (n : nat) :
  (c < d)%Q -> (1 <= n)%nat ->
  run_lengths (repeat c n ++ [d]) = [(c, Z.of_nat n); (d, 1)].
Proof.
  intros H Hn. destruct n as [|n]; [lia|]. clear Hn. induction n as [|n IH].
  - cbn [repeat app run_lengths]. now rewrite (Qeq_bool_comm c d), (Qeq_bool_lt d c H).
  - change (repeat c (S (S n)) ++ [d])%list with (c :: (repeat c (S n) ++ [d]))%list.
    cbn [run_lengths]. rewrite IH, Qeq_bool_refl. do 2 f_equal. lia.
Qed.

Lemma S_statistic_tied (c d : Q) (n : nat) :
  (c < d)%Q -> S_statistic (repeat c n ++ [d]) = Z.of_nat n.
Proof.
  intros H. induction n as [|n IH]; [reflexivity|].
  cbn [repeat app S_statistic]. rewrite IH, map_app, sumZ_app.
  rewrite map_repeat, (sign_zero (c - c)) by ring.
  cbn [map]. rewrite sign_pos by lra.
  assert (Z0 : forall k, sumZ (repeat 0 k) = 0)
    by (induction k as [|k IHk]; [reflexivity | exact IHk]).
  rewrite Z0. change (sumZ [1]) with 1. lia.
Qed.

(** C2, on the code: the tie term is computed on the int64 array of the
    counts, where [k (k - 1) (2 k + 5)] wraps around from k = 1,664,511 on.
    For 1,664,511 values 1 followed by a 2, S is 1,664,511 as in the claim,
    the tie term of the claim is 9223386242217214470 and its variance
    numerator 16623601188858, but the tie term that the program subtracts
    is that number less 2^64, a negative number. *)
Theorem long_tied_series_overflows :
  List.length long_tied_series = N.to_nat 1664512 /\
  S_statistic long_tied_series = 1664511 /\
  S_reference long_tied_series = 1664511 /\
  tie_reference long_tied_series = 9223386242217214470 /\
  variance_reference long_tied_series = (16623601188858 # 18)%Q /\
  tie_term long_tied_series = 9223386242217214470 - 2 ^ 64 /\
  tie_term long_tied_series < 0 /\
  tie_term long_tied_series <> tie_reference long_tied_series.
Proof.
  assert (Hcd : (1 < 2)%Q) by reflexivity.
  assert (Hz : Z.of_nat (N.to_nat 1664511) = 1664511) by apply N_nat_Z.
  assert (Hz' : N.to_nat 1664512 = S (N.to_nat 1664511)) by lia.
  rewrite Hz'. unfold long_tied_series.
  remember (N.to_nat 1664511) as n eqn:En. clear En Hz'.
  assert (H1 : (1 <= n)%nat) by lia.
  set (y := (repeat 1%Q n ++ [2%Q])%list).
  assert (L : List.length y = S n).
  { unfold y. rewrite length_app, repeat_length. cbn [List.length]. lia. }
  assert (ES : S_statistic y = 1664511).
  { unfold y. now rewrite (S_statistic_tied 1 2 n Hcd). }
  assert (ER : exact_tie_term y = 9223386242217214470).
  { unfold exact_tie_term, unique_counts, y.
    rewrite (sortQ_tied 1 2 n Hcd), (run_lengths_tied 1 2 n Hcd H1), Hz.
    reflexivity. }
  assert (ET : tie_term y = 9223386242217214470 - 2 ^ 64).
  { rewrite tie_term_wraps, ER. reflexivity. }
  assert (EF : tie_reference y = 9223386242217214470).
  { now rewrite tie_reference_by_element, <- tie_term_by_element. }
  assert (EN : Z.of_nat (List.length y) = 1664512) by (rewrite L; lia).
  split; [exact L|]. split; [exact ES|].
  split; [now rewrite <- S_statistic_reference|].
  split; [exact EF|]. split.
  { unfold variance_reference. cbv zeta. rewrite EF, EN. reflexivity. }
  split; [exact ET|]. rewrite ET, EF. split; [reflexivity | discriminate].
Qed.

(** ** The slope estimator *)

Lemma masked_slopes_grid (pts : list (Q * Q)) :
  masked_slopes pts = flat_map (fun p => flat_map (masked_slope p) pts) pts.
Proof. reflexivity. Qed.

Lemma reference_slopes_pairs (pts : list (Q * Q)) :
  reference_slopes pts = pairs_from reference_slope pts.
Proof.
  unfold reference_slopes.
  now rewrite <- (pairs_from_index reference_slope pts (0, 0)%Q).
Qed.

Lemma grid_cons_r {A B} (m : A -> A -> list B) (l : list A) (b : A) (k : list A) :
  Permutation (flat_map (fun a => flat_map (m a) (b :: k)) l)
              (flat_map (fun a => m a b) l ++ flat_map (fun a => flat_map (m a) k) l).
Proof.
  induction l as [|a l IH]; [reflexivity|]. cbn [flat_map].
  rewrite IH, <- !app_assoc. apply Permutation_app_head.
  apply Permutation_app_swap_app.
Qed.

Lemma flat_map_both {A B} (f g : A -> list B) (l : list A) :
  Permutation (flat_map f l ++ flat_map g l) (flat_map (fun a => f a ++ g a)%list l).
Proof.
  induction l as [|a l IH]; [reflexivity|]. cbn [flat_map].
  rewrite <- IH, <- !app_assoc. apply Permutation_app_head.
  apply Permutation_app_swap_app.
Qed.

Lemma masked_slope_self (p : Q * Q) : masked_slope p p = [].
Proof.
  unfold masked_slope, Qlt_bool.
  replace (Qle_bool (fst p - fst p) 0) with true; [reflexivity|].
  symmetry. apply Qle_bool_iff. lra.
Qed.

(** The mask keeps each pair of points once, in one of its two cells. *)
Lemma masked_slopes_pairs (pts : list (Q * Q)) :
  Permutation (masked_slopes pts) (pairs_from both_cells pts).
Proof.
  rewrite masked_slopes_grid. induction pts as [|p ps IH]; [reflexivity|].
  rewrite flat_map_cons. cbv beta. rewrite (flat_map_cons (masked_slope p)).
  rewrite masked_slope_self. cbn [app pairs_from].
  rewrite grid_cons_r, IH, app_assoc. apply Permutation_app_tail.
  apply flat_map_both.
Qed.

Lemma both_cells_reference (p q : Q * Q) :
  map Qred (both_cells p q) = map Qred (reference_slope p q).
Proof.
  unfold both_cells, masked_slope, reference_slope, Qlt_bool.
  destruct p as [xp yp], q as [xq yq]. cbn [fst snd].
  destruct (Q_dec xp xq) as [[L|G]|E].
  - assert (E1 : Qle_bool (xp - xq) 0 = true) by (apply Qle_bool_iff; lra).
    assert (E2 : Qle_bool (xq - xp) 0 = false) by (apply Qle_bool_false; lra).
    assert (E3 : Qeq_bool xp xq = false).
    { destruct (Qeq_bool xp xq) eqn:E; [|reflexivity].
      apply Qeq_bool_iff in E. lra. }
    now rewrite E1, E2, E3.
  - assert (E1 : Qle_bool (xp - xq) 0 = false) by (apply Qle_bool_false; lra).
    assert (E2 : Qle_bool (xq - xp) 0 = true) by (apply Qle_bool_iff; lra).
    assert (E3 : Qeq_bool xp xq = false).
    { destruct (Qeq_bool xp xq) eqn:E; [|reflexivity].
      apply Qeq_bool_iff in E. lra. }
    rewrite E1, E2, E3. cbn [negb app map]. f_equal.
    apply Qred_complete. field. split; intros H; lra.
  - assert (E1 : Qle_bool (xp - xq) 0 = true) by (apply Qle_bool_iff; lra).
    assert (E2 : Qle_bool (xq - xp) 0 = true) by (apply Qle_bool_iff; lra).
    assert (E3 : Qeq_bool xp xq = true) by now apply Qeq_bool_iff.
    now rewrite E1, E2, E3.
Qed.

Lemma pairs_from_reduced (pts : list (Q * Q)) :
  map Qred (pairs_from both_cells pts) = map Qred (pairs_from reference_slope pts).
Proof.
  induction pts as [|p ps IH]; [reflexivity|].
  cbn [pairs_from]. rewrite !map_app, IH, !map_flat_map. f_equal.
  apply flat_map_ext. intros q. apply both_cells_reference.
Qed.

Lemma slopes_reduced_perm (pts : list (Q * Q)) :
  Permutation (map Qred (masked_slopes pts)) (map Qred (reference_slopes pts)).
Proof.
  rewrite reference_slopes_pairs, <- pairs_from_reduced.
  apply Permutation_map, masked_slopes_pairs.
Qed.

(** *** Ranks and the median *)

Lemma filter_map_length {A B} (f : A -> B) (p : B -> bool) (l : list A) :
  List.length (filter p (map f l)) = List.length (filter (fun a => p (f a)) l).
Proof.
  induction l as [|a l IH]; [reflexivity|]. cbn [map filter].
  destruct (p (f a)); cbn [List.length]; now rewrite IH.
Qed.

Lemma of_rank_perm (l l' : list Q) (k : nat) (v : Q) :
  Permutation l l' -> of_rank l k v -> of_rank l' k v.
Proof.
  intros P [H1 H2]. unfold of_rank.
  now rewrite <- (filter_length_perm _ l l' P), <- (filter_length_perm _ l l' P).
Qed.

Lemma of_rank_reduced (l : list Q) (k : nat) (v : Q) :
  of_rank (map Qred l) k v <-> of_rank l k v.
Proof.
  unfold of_rank. rewrite !filter_map_length.
  rewrite (filter_ext (fun a => negb (Qle_bool v (Qred a)))
                      (fun u => negb (Qle_bool v u))).
  2: { intros a. f_equal. apply Qleb_comp; [reflexivity | apply Qred_correct]. }
  rewrite (filter_ext (fun a => Qle_bool (Qred a) v) (fun u => Qle_bool u v)).
  2: { intros a. apply Qleb_comp; [apply Qred_correct | reflexivity]. }
  reflexivity.
Qed.

(** In a sorted list the element at position [k] has rank [k]. *)
Lemma sorted_rank (s : list Q) :
  StronglySorted Qle_b s ->
  forall k, (k < List.length s)%nat -> of_rank s k (nth k s 0%Q).
Proof.
  induction 1 as [|a t Hs IH Ha]; intros k Hk; [simpl in Hk; lia|].
  rewrite Forall_forall in Ha. unfold of_rank.
  destruct k as [|k]; cbn [nth filter].
  - assert (E : Qle_bool a a = true) by (apply Qle_bool_iff, Qle_refl).
    rewrite E. cbn [negb List.length]. split; [|lia].
    rewrite filter_none; [simpl; lia|].
    intros u Hu. now rewrite (Ha u Hu).
  - assert (Hin : In (nth k t 0%Q) t) by (apply nth_In; simpl in Hk; lia).
    destruct (IH k) as [L1 L2]; [simpl in Hk; lia|].
    rewrite (Ha _ Hin). cbn [List.length]. split; [|lia].
    destruct (negb (Qle_bool (nth k t 0%Q) a)); cbn [List.length]; lia.
Qed.

Lemma median_is_median_of (l : list Q) :
  l <> [] -> exists m, median l = Fin m /\ median_of l m.
Proof.
  intros Hne. unfold median, median_sorted.
  pose proof (sortQ_perm l) as P. pose proof (sortQ_sorted l) as S.
  assert (Hlen : List.length (sortQ l) = List.length l)
    by now apply Permutation_length.
  destruct (sortQ l) as [|a t] eqn:E.
  { apply (isort_nil_inv Qle_bool) in E. contradiction. }
  set (s := a :: t) in *. set (n := List.length s) in *.
  assert (Hn : (1 <= n)%nat) by (unfold n, s; simpl; lia).
  assert (R : forall k, (k < n)%nat -> of_rank l k (nth k s 0%Q)).
  { intros k Hk. apply (of_rank_perm s l k _ P). now apply sorted_rank. }
  unfold median_of. rewrite <- Hlen. fold n.
  destruct (Nat.even n) eqn:Ev.
  - apply Nat.even_spec in Ev. destruct Ev as [h Hh].
    assert (E1 : ((n - 1) / 2 = h - 1)%nat).
    { symmetry. apply (Nat.div_unique _ 2 _ 1); lia. }
    assert (E2 : (n / 2 = h)%nat).
    { symmetry. apply (Nat.div_unique _ 2 _ 0); lia. }
    rewrite E1, E2.
    eexists. split; [reflexivity|].
    exists (nth (h - 1) s 0%Q), (nth h s 0%Q).
    split; [apply R; lia|]. split; [apply R; lia|]. reflexivity.
  - assert (Od : Nat.odd n = true) by (unfold Nat.odd; now rewrite Ev).
    apply Nat.odd_spec in Od. destruct Od as [h Hh].
    assert (E1 : ((n - 1) / 2 = h)%nat).
    { symmetry. apply (Nat.div_unique _ 2 _ 0); lia. }
    assert (E2 : (n / 2 = h)%nat).
    { symmetry. apply (Nat.div_unique _ 2 _ 1); lia. }
    rewrite E1, E2.
    eexists. split; [reflexivity|].
    exists (nth h s 0%Q), (nth h s 0%Q).
    split; [apply R; lia|]. split; [apply R; lia|]. field.
Qed.

Lemma median_of_reduced_perm (l1 l2 : list Q) (m : Q) :
  Permutation (map Qred l1) (map Qred l2) -> median_of l1 m -> median_of l2 m.
Proof.
  intros P [a [b [Ha [Hb Hm]]]].
  assert (L : List.length l1 = List.length l2).
  { apply Permutation_length in P. now rewrite !length_map in P. }
  exists a, b. rewrite <- L. split; [|split; [|exact Hm]].
  - apply of_rank_reduced, (of_rank_perm _ _ _ _ P), of_rank_reduced, Ha.
  - apply of_rank_reduced, (of_rank_perm _ _ _ _ P), of_rank_reduced, Hb.
Qed.

Lemma valid_points_paired (y x : list fval) :
  List.length y = List.length x -> valid_points y x = paired y x.
Proof.
  intros L. unfold valid_points, paired.
  rewrite <- (map_nth_seq (combine y x) (NaN, NaN)) at 1.
  rewrite length_combine, <- L, Nat.min_id, flat_map_map.
  apply flat_map_ext. intros i. rewrite (combine_nth y x i NaN NaN L).
  destruct (nth i y NaN), (nth i x NaN); reflexivity.
Qed.

Lemma reduced_nil (l1 l2 : list Q) :
  Permutation (map Qred l1) (map Qred l2) -> l2 = [] -> l1 = [].
Proof.
  intros P ->. apply Permutation_sym, Permutation_nil in P.
  now apply map_eq_nil in P.
Qed.

(** C3: on parallel arrays, [theil_sen_slope] is NaN when fewer than 2 points
    are left once the positions with a NaN in x or y are excluded, and else
    it is the median of the slopes [(y[j] - y[i]) / (x[j] - x[i])] over the
    pairs of positions [i < j] with different x: the value of the middle
    rank among these slopes, or the mean of the two middle ones.  Where no
    two points differ in x there is no slope and the result is NaN. *)
Theorem theil_sen_is_pairwise_median (y x : list fval) :
  List.length y = List.length x ->
  let slopes := reference_slopes (paired y x) in
  ((List.length (paired y x) < 2)%nat -> theil_sen_slope y x = NaN) /\
  ((2 <= List.length (paired y x))%nat -> slopes = [] ->
     theil_sen_slope y x = NaN) /\
  ((2 <= List.length (paired y x))%nat -> slopes <> [] ->
     exists m, theil_sen_slope y x = Fin m /\ median_of slopes m).
Proof.
  intros L slopes. subst slopes. rewrite <- (valid_points_paired y x L).
  unfold theil_sen_slope, theilslopes. cbv zeta.
  pose proof (slopes_reduced_perm (valid_points y x)) as P.
  split; [|split].
  - intros H. apply Nat.ltb_lt in H. now rewrite H.
  - intros H E. apply Nat.ltb_ge in H. rewrite H.
    now rewrite (reduced_nil _ _ P E).
  - intros H N. apply Nat.ltb_ge in H. rewrite H.
    destruct (median_is_median_of (masked_slopes (valid_points y x)))
      as [m [Hm Hmed]].
    + intros E. rewrite E in P. apply N.
      apply Permutation_nil in P. now apply map_eq_nil in P.
    + exists m. split; [exact Hm|].
      now apply (median_of_reduced_perm _ _ m P).
Qed.

Lemma theil_sen_is_pairwise_median_witness :
  reference_slopes (paired sample_y sample_x) = [4 # 2; 1; 3]%Q /\
  exists m, theil_sen_slope sample_y sample_x = Fin m /\ (m == 2)%Q /\
            median_of (reference_slopes (paired sample_y sample_x)) m.
Proof.
  split; [vm_compute; reflexivity|].
  destruct (theil_sen_is_pairwise_median sample_y sample_x eq_refl)
    as [_ [_ M]].
  destruct M as [m [Hm Hmed]].
  - vm_compute. lia.
  - intros E. vm_compute in E. discriminate E.
  - exists m. split; [exact Hm|]. split; [|exact Hmed].
    vm_compute in Hm. injection Hm as <-. reflexivity.
Defined.

(** * Further properties of the code *)

(** ** Errors and the default latency filter *)

Lemma ge_400_or_isna (o : option Z) : (ge_400 o || isna o)%bool = negb (lt_400 o).
Proof.
  destruct o as [z|]; [|reflexivity]. simpl. rewrite orb_false_r.
  destruct (400 <=? z)%Z eqn:E1, (z <? 400)%Z eqn:E2; try reflexivity.
  - apply Z.leb_le in E1. apply Z.ltb_lt in E2. lia.
  - apply Z.leb_gt in E1. apply Z.ltb_ge in E2. lia.
Qed.

Lemma error_mask_complement (has_code : bool) (r : jrow) :
  error_mask has_code r =
  negb (row_success r && lt_400 (row_resp_int has_code r)).
Proof.
  unfold error_mask. rewrite <- orb_assoc, ge_400_or_isna.
  now rewrite negb_andb.
Qed.

Lemma timed_row_fields nt (has_code : bool) (t0 : Q) (r : jrow) (tr : timed) :
  In tr (timed_row nt has_code t0 r) ->
  success_bool tr = row_success r /\ resp_int tr = row_resp_int has_code r /\
  timed_row nt has_code t0 r = [tr].
Proof.
  unfold timed_row. destruct (numeric nt (timeStamp r)); [contradiction|].
  destruct (elapsed r) as [[|e]|e]; [contradiction| |];
    intros [<-|[]]; repeat split.
Qed.

(** A request counts as an error exactly when the default filter
    ["http<400"] leaves it out of the latency series: of the requests that
    get a time, [latency_subset] keeps the ones that the mask of
    [total_errors] does not count; so, in a log where every request gets a
    time, the errors and the requests of the default series add up to the
    log. *)
Theorem errors_are_the_requests_the_default_filter_drops
    nt (has_code : bool) (t0 : Q) (rows : list jrow) :
  exists kept,
    latency_subset "http<400" (flat_map (timed_row nt has_code t0) rows) = Ok kept /\
    (forall r tr, In r rows -> In tr (timed_row nt has_code t0 r) ->
       (In tr kept <-> error_mask has_code r = false)) /\
    ((forall r, In r rows -> timed_row nt has_code t0 r <> []) ->
     count_errors has_code rows + Z.of_nat (List.length kept) =
     Z.of_nat (List.length rows)).
Proof.
  eexists. split; [reflexivity|]. split.
  - intros r tr Hr Htr.
    destruct (timed_row_fields nt has_code t0 r tr Htr) as [Es [Er _]].
    rewrite filter_In, Es, Er, error_mask_complement.
    split.
    + intros [_ H]. now rewrite H.
    + intros H. split.
      * apply in_flat_map. now exists r.
      * now apply negb_false_iff.
  - induction rows as [|r rows IH]; intros Hall; [reflexivity|].
    unfold count_errors in *. cbn [flat_map filter List.length].
    destruct (timed_row nt has_code t0 r) as [|tr rest] eqn:E.
    { exfalso. apply (Hall r); [now left | exact E]. }
    destruct (timed_row_fields nt has_code t0 r tr) as [Es [Er E1]];
      [rewrite E; now left|].
    rewrite E in E1. injection E1 as ->. cbn [app filter].
    rewrite Es, Er, <- (negb_involutive (_ && _)%bool), <- error_mask_complement.
    assert (IH' := IH (fun r' H' => Hall r' (or_intror H'))).
    destruct (error_mask has_code r); cbn [negb List.length]; lia.
Qed.

(** ** What the latency function raises *)

Lemma loader_frame_has_mandatory nt (f : jtl_file) (df : jtl_frame) :
  read_jmeter_jtl nt f = Ok df -> issubset mandatory (jcolumns df) = true.
Proof.
  unfold read_jmeter_jtl, csv_attempt.
  destruct (as_csv f) as [d|].
  - destruct (issubset mandatory (jcolumns d)) eqn:E.
    + intros H. inversion H; subst. exact E.
    + rewrite xml_fallback_rows. destruct (as_xml f); [|discriminate].
      destruct (xml_rows nt f); [discriminate|]. intros H. now inversion H.
  - rewrite xml_fallback_rows. destruct (as_xml f); [|discriminate].
    destruct (xml_rows nt f); [discriminate|]. intros H. now inversion H.
Qed.

Ltac binned_cases N :=
  match goal with
  | |- context [binned_trend ?nc ?c ?t ?jj] =>
    let Eb := fresh "Eb" in
    destruct (binned_trend nc c t jj) as [[[? ?] ?]|?] eqn:Eb; cbn [bind];
    [discriminate | intros X; inversion X; subst; exact (N jj Eb)]
  end.

(** The frame that [read_jmeter_jtl] returns always has the three mandatory
    columns, from either encoding, so the schema check of
    [compute_latency_metrics] (line 332) never fires: the function never
    raises its "Unexpected JMeter schema" error. *)
Theorem unexpected_schema_is_never_raised nc nt (f : jtl_file) (c : config) :
  (forall df, read_jmeter_jtl nt f = Ok df ->
              issubset mandatory (jcolumns df) = true) /\
  compute_latency_metrics nc nt f c <> Raise (ValueError "Unexpected JMeter schema").
Proof.
  split; [intros df; apply loader_frame_has_mandatory|].
  assert (N : forall jj,
             binned_trend nc c (text_latencies nt f) jj <>
             Raise (ValueError "Unexpected JMeter schema")).
  { intros jj. unfold binned_trend.
    destruct (bin_minutes c =? 0)%Z; [discriminate|].
    destruct (text_latencies nt f); [discriminate|].
    destruct (List.length _ <? 5)%nat; discriminate. }
  unfold compute_latency_metrics, warm_requests.
  destruct (read_jmeter_jtl nt f) as [df|e] eqn:E.
  - cbn [bind]. destruct (sort_values_cases (jrows df)) as [Es|Es]; rewrite Es;
      cbn [bind]; [discriminate|].
    rewrite (loader_frame_has_mandatory nt f df E). cbn [negb].
    destruct (drop_nan _); cbn [bind]; [discriminate|].
    destruct (List.length _ <? 10)%nat; [discriminate|].
    unfold latency_subset.
    destruct (String.eqb _ "all"); cbn [bind].
    + destruct (List.length _ <? 10)%nat; [discriminate | binned_cases N].
    + destruct (String.eqb _ "success"); cbn [bind].
      * destruct (List.length _ <? 10)%nat; [discriminate | binned_cases N].
      * destruct (String.eqb _ "http<400"); cbn [bind]; [|discriminate].
        destruct (List.length _ <? 10)%nat; [discriminate | binned_cases N].
  - simpl. unfold read_jmeter_jtl in E. destruct (csv_attempt f); [discriminate|].
    rewrite xml_fallback_rows in E. destruct (as_xml f).
    + destruct (xml_rows nt f); inversion E; discriminate.
    + inversion E. discriminate.
Qed.

(** A filter mode that is none of the three names is only noticed once at
    least 10 requests are left after the warm-up: with fewer, the function
    answers with undefined metrics and the error count, and with 10 or more
    it raises the [ValueError] of the mode. *)
Theorem unknown_filter_is_noticed_late nc nt (f : jtl_file) (c : config)
    (te : Z) (j : list timed) :
  warm_requests nt f c = Ok (te, j) ->
  latency_filter c <> "all" -> latency_filter c <> "success" ->
  latency_filter c <> "http<400" ->
  ((List.length j < 10)%nat ->
     compute_latency_metrics nc nt f c = Ok (NaN, PNaN, NaN, te)) /\
  ((10 <= List.length j)%nat ->
     compute_latency_metrics nc nt f c =
     Raise (ValueError "--latency-filter must be one of: all, success, http<400")).
Proof.
  intros Hw H1 H2 H3. unfold compute_latency_metrics. rewrite Hw. simpl. split.
  - intros H. apply Nat.ltb_lt in H. now rewrite H.
  - intros H. apply Nat.ltb_ge in H. rewrite H. unfold latency_subset.
    apply String.eqb_neq in H1, H2, H3. now rewrite H1, H2, H3.
Qed.

Lemma errors_are_the_requests_the_default_filter_drops_witness :
  exists kept,
    latency_subset "http<400"
      (flat_map (timed_row integers_only true 0) (csv_rows four_outcomes)) =
      Ok kept /\
    List.length kept = 1%nat /\
    count_errors true (csv_rows four_outcomes) = 3 /\
    count_errors true (csv_rows four_outcomes) + Z.of_nat (List.length kept) = 4.
Proof.
  destruct (errors_are_the_requests_the_default_filter_drops
              integers_only true 0 (csv_rows four_outcomes)) as [kept [E [_ C]]].
  exists kept. split; [exact E|]. split; [|split; [reflexivity|]].
  - vm_compute in E. injection E as <-. reflexivity.
  - change 4 with (Z.of_nat (List.length (csv_rows four_outcomes))).
    apply C. intros r Hr.
    vm_compute in Hr. destruct Hr as [<-|[<-|[<-|[<-|[]]]]]; discriminate.
Defined.

Lemma unexpected_schema_is_never_raised_witness :
  issubset mandatory xml_columns = true.
Proof.
  destruct (unexpected_schema_is_never_raised flat_cdf integers_only
              one_sample_xml default_config) as [T _].
  apply (T {| jcolumns := xml_columns;
              jrows := xml_rows integers_only one_sample_xml |}).
  reflexivity.
Defined.

Lemma unknown_filter_is_noticed_late_witness :
  compute_latency_metrics flat_cdf integers_only one_sample_xml
    (with_filter "served") = Ok (NaN, PNaN, NaN, 0) /\
  compute_latency_metrics flat_cdf integers_only twelve_requests
    (with_filter "served") =
  Raise (ValueError "--latency-filter must be one of: all, success, http<400").
Proof.
  split.
  - eapply (unknown_filter_is_noticed_late flat_cdf integers_only one_sample_xml
              (with_filter "served") 0).
    + vm_compute. reflexivity.
    + discriminate.
    + discriminate.
    + discriminate.
    + vm_compute. lia.
  - apply (unknown_filter_is_noticed_late flat_cdf integers_only twelve_requests
             (with_filter "served") 1 twelve_timed).
    + vm_compute. reflexivity.
    + discriminate.
    + discriminate.
    + discriminate.
    + vm_compute. lia.
Defined.

(** ** Samples at any depth of the XML log *)

Lemma xml_induction (P : xml -> Prop) :
  (forall t a cs, Forall P cs -> P (Element t a cs)) -> forall e, P e.
Proof.
  intros H. fix IH 1. intros [t a cs]. apply H.
  induction cs as [|c cs IHcs]; constructor; [apply IH | exact IHcs].
Qed.

Lemma iter_within (root e : xml) : In e (iter root) <-> within e root.
Proof.
  split.
  - revert e. induction root as [t a cs IH] using xml_induction.
    intros e [<-|H]; [constructor|].
    apply in_flat_map in H as [c [Hc He]].
    rewrite Forall_forall in IH.
    apply (within_child e c t a cs Hc). now apply IH.
  - induction 1 as [[t a cs]|e c t a cs Hc _ IH].
    + now left.
    + right. apply in_flat_map. now exists c.
Qed.

Lemma within_trans (a b c : xml) : within a b -> within b c -> within a c.
Proof.
  intros Hab Hbc. induction Hbc as [b|b c' t at' cs Hin _ IH]; [exact Hab|].
  apply (within_child a c' t at' cs Hin). now apply IH.
Qed.

(** [root.iter()] visits every descendant, so a sample element gives a row
    wherever it sits in the document: the rows of the XML encoding are the
    rows of the [httpSample] and [sample] elements at any depth, and a
    sample nested in another sample is a row beside its parent. *)
Theorem samples_at_any_depth_are_rows nt (f : jtl_file) (root : xml) :
  as_xml f = Some root ->
  (forall r, In r (xml_rows nt f) <->
     exists e, within e root /\ is_sample e = true /\ r = sample_row nt e) /\
  (forall t a cs child,
     within (Element t a cs) root -> is_sample (Element t a cs) = true ->
     In child cs -> is_sample child = true ->
     In (sample_row nt (Element t a cs)) (xml_rows nt f) /\
     In (sample_row nt child) (xml_rows nt f)).
Proof.
  intros Hr.
  assert (R : forall r, In r (xml_rows nt f) <->
     exists e, within e root /\ is_sample e = true /\ r = sample_row nt e).
  { intros r. unfold xml_rows. rewrite Hr, in_map_iff. split.
    - intros [e [<- He]]. apply filter_In in He as [He Hs].
      exists e. rewrite <- iter_within. auto.
    - intros [e [He [Hs ->]]]. exists e. split; [reflexivity|].
      apply filter_In. rewrite iter_within. auto. }
  split; [exact R|].
  intros t a cs child Hp Hsp Hc Hsc. split; apply R.
  - now exists (Element t a cs).
  - exists child. repeat split; [|exact Hsc].
    apply (within_trans child (Element t a cs) root); [|exact Hp].
    apply (within_child child child t a cs Hc). constructor.
Qed.

Lemma samples_at_any_depth_are_rows_witness :
  List.length (xml_rows integers_only nested_xml) = 3%nat /\
  In (sample_row integers_only
        (Element "httpSample" [("t", "40"); ("ts", "1000"); ("s", "true")] []))
     (xml_rows integers_only nested_xml).
Proof.
  split; [reflexivity|].
  destruct (samples_at_any_depth_are_rows integers_only nested_xml
              (Element "testResults" []
               [Element "sample" [("t", "90"); ("ts", "1000"); ("s", "true")]
                  [Element "httpSample" [("t", "40"); ("ts", "1000"); ("s", "true")] [];
                   Element "httpSample" [("t", "50"); ("ts", "1040"); ("s", "true")]
                     [Element "assertionResult" [] []]]]) eq_refl) as [_ N].
  eapply N.
  - eapply within_child; [now left | constructor].
  - reflexivity.
  - now left.
  - reflexivity.
Defined.

(** ** Coercions of cells *)

Lemma lstrip_padding (p s : string) : all_space p -> lstrip (p ++ s) = lstrip s.
Proof.
  unfold all_space. induction p as [|c p IH]; simpl; intros H; [reflexivity|].
  inversion H as [|? ? Hc Hp]; subst. rewrite Hc. now apply IH.
Qed.

Lemma lstrip_spaces (p : string) : all_space p -> lstrip p = "".
Proof.
  unfold all_space. induction p as [|c p IH]; simpl; intros H; [reflexivity|].
  inversion H as [|? ? Hc Hp]; subst. rewrite Hc. now apply IH.
Qed.

Lemma rstrip_spaces (p : string) : all_space p -> rstrip p = "".
Proof.
  unfold all_space. induction p as [|c p IH]; simpl; intros H; [reflexivity|].
  inversion H as [|? ? Hc Hp]; subst. now rewrite (IH Hp), Hc.
Qed.

Lemma rstrip_padding (s p : string) : all_space p -> rstrip (s ++ p) = rstrip s.
Proof.
  intros H. induction s as [|c s IH]; simpl; [now apply rstrip_spaces|].
  now rewrite IH.
Qed.

Lemma strip_right_padding (s p : string) : all_space p -> strip (s ++ p) = strip s.
Proof.
  intros H. unfold strip. induction s as [|c s IH]; simpl.
  - now rewrite (lstrip_spaces p H).
  - destruct (is_space c); [exact IH|].
    now rewrite <- (rstrip_padding (String c s) p H).
Qed.

Lemma strip_padding (p1 s p2 : string) :
  all_space p1 -> all_space p2 -> strip (p1 ++ s ++ p2) = strip s.
Proof.
  intros H1 H2. rewrite <- (strip_right_padding s p2 H2).
  unfold strip. now rewrite lstrip_padding.
Qed.

Lemma is_space_lower (c : ascii) : is_space (lower_char c) = is_space c.
Proof.
  destruct c as [[|] [|] [|] [|] [|] [|] [|] [|]]; reflexivity.
Qed.

Lemma lower_lstrip (s : string) : lower (lstrip s) = lstrip (lower s).
Proof.
  induction s as [|c s IH]; [reflexivity|]. simpl.
  rewrite is_space_lower. destruct (is_space c); [exact IH | reflexivity].
Qed.

Lemma lower_rstrip (s : string) : lower (rstrip s) = rstrip (lower s).
Proof.
  induction s as [|c s IH]; [reflexivity|]. cbn [rstrip lower].
  rewrite <- IH, is_space_lower.
  destruct (rstrip s); [destruct (is_space c)|]; reflexivity.
Qed.

Lemma lower_strip (s : string) : lower (strip s) = strip (lower s).
Proof. unfold strip. now rewrite lower_rstrip, lower_lstrip. Qed.

(** [_to_bool] reads a text without regard to its case or to white space
    around it, gives a bool back as it is, and so may be applied a second
    time to its own result, as happens to the success column of an XML
    log. *)
Theorem to_bool_ignores_case_and_padding :
  (forall s s', lower s = lower s' -> _to_bool (CText s) = _to_bool (CText s')) /\
  (forall p1 s p2, all_space p1 -> all_space p2 ->
     _to_bool (CText (p1 ++ s ++ p2)) = _to_bool (CText s)) /\
  (forall v, _to_bool (CBool (_to_bool v)) = _to_bool v).
Proof.
  split; [|split].
  - intros s s' H. unfold _to_bool, py_str. now rewrite !lower_strip, H.
  - intros p1 s p2 H1 H2. unfold _to_bool, py_str. now rewrite strip_padding.
  - reflexivity.
Qed.

Lemma to_bool_ignores_case_and_padding_witness :
  _to_bool (CText "  TRUE ") = _to_bool (CText "true") /\
  _to_bool (CText "Yes") = _to_bool (CText "yES").
Proof.
  destruct to_bool_ignores_case_and_padding as [C [P _]]. split.
  - rewrite <- (P "  " "true" " ").
    + apply C. reflexivity.
    + repeat constructor.
    + repeat constructor.
  - apply C. reflexivity.
Defined.


Lemma digits_of_text (u : Decimal.uint) :
  forall (after_digit : bool) (acc : Z),
    u <> Decimal.Nil \/ after_digit = true ->
    digits after_digit acc (digit_text u) = Some (uint_value acc u).
Proof.
  induction u; intros b acc H; cbn [digit_text DecimalString.NilEmpty.string_of_uint];
    try (cbn [digits is_digit]; simpl nat_of_ascii; cbn;
         apply IHu; now right).
  destruct H as [H | ->]; [contradiction | reflexivity].
Qed.

Lemma uint_value_acc (u : Decimal.uint) (a : positive) :
  uint_value (Z.pos a) u = Z.pos (Pos.of_uint_acc u a).
Proof.
  revert a. induction u; intros a; cbn [uint_value Pos.of_uint_acc];
    [reflexivity | ..];
    match goal with
    | |- uint_value ?x _ = Z.pos (Pos.of_uint_acc _ ?y) =>
      replace x with (Z.pos y) by lia
    end; apply IHu.
Qed.

Lemma uint_value_of_uint (u : Decimal.uint) :
  uint_value 0 u = Z.of_N (Pos.of_uint u).
Proof.
  induction u; cbn [uint_value Pos.of_uint]; try reflexivity;
    try (exact IHu); apply uint_value_acc.
Qed.

Lemma text_without_space (s : string) :
  Forall (fun c => is_space c = false) (chars s) -> strip s = s.
Proof.
  intros H. unfold strip.
  assert (L : lstrip s = s).
  { destruct s as [|c s]; [reflexivity|]. simpl. inversion H; subst.
    now replace (is_space c) with false. }
  rewrite L. induction s as [|c s IH]; [reflexivity|].
  inversion H as [|? ? Hc Hs]; subst. cbn [rstrip].
  rewrite IH; [|exact Hs|].
  - destruct s; [now rewrite Hc | reflexivity].
  - destruct s as [|d s]; [reflexivity|]. simpl. inversion Hs; subst.
    now replace (is_space d) with false.
Qed.

Lemma digit_text_chars (u : Decimal.uint) :
  Forall (fun c => is_space c = false) (chars (digit_text u)).
Proof. induction u; simpl; constructor; auto. Qed.

Lemma digit_text_head (u : Decimal.uint) :
  u <> Decimal.Nil ->
  exists c t, digit_text u = String c t /\
              Ascii.eqb c "+" = false /\ Ascii.eqb c "-" = false.
Proof.
  destruct u; intros H; [contradiction|..]; simpl; eexists; eexists;
    repeat split; reflexivity.
Qed.

Lemma py_int_decimal (z : Z) :
  (digit_count (decimal z) <= int_max_str_digits)%nat ->
  py_int (decimal z) = Some z.
Proof.
  intros Hd. unfold py_int.
  assert (Hs : strip (decimal z) = decimal z).
  { apply text_without_space. unfold decimal.
    destruct z; cbn [Z.to_int DecimalString.NilEmpty.string_of_int].
    - repeat constructor.
    - apply digit_text_chars.
    - constructor; [reflexivity | apply digit_text_chars]. }
  rewrite Hs. apply Nat.ltb_ge in Hd. rewrite Hd. clear Hd Hs.
  unfold decimal. destruct z as [|p|p]; [reflexivity|..];
    cbn [Z.to_int DecimalString.NilEmpty.string_of_int];
    fold (digit_text (Pos.to_uint p));
    pose proof (DecimalPos.Unsigned.to_uint_nonnil p) as Hn;
    pose proof (DecimalPos.Unsigned.of_to p) as Hv.
  - destruct (digit_text_head _ Hn) as [c [t [E [E1 E2]]]].
    rewrite E, E1, E2, <- E, digits_of_text by now left.
    now rewrite uint_value_of_uint, Hv.
  - replace (Ascii.eqb "-" "+") with false by reflexivity.
    replace (Ascii.eqb "-" "-") with true by reflexivity.
    rewrite digits_of_text by now left.
    now rewrite uint_value_of_uint, Hv.
Qed.

Lemma decimal_chars (z : Z) :
  Forall (fun c => is_space c = false) (chars (decimal z)).
Proof.
  unfold decimal. destruct z; cbn [Z.to_int DecimalString.NilEmpty.string_of_int].
  - repeat constructor.
  - apply digit_text_chars.
  - constructor; [reflexivity | apply digit_text_chars].
Qed.

(** A status code written as an integer is read back as that integer: for
    an integer [z] that [str(z)] writes with at most 4300 digits,
    [_to_int_or_nan] of that text, also with white space around it, is [z];
    with more digits [int()] refuses the text and the result is missing. *)
Theorem integer_text_round_trip (z : Z) (p1 p2 : string) :
  all_space p1 -> all_space p2 ->
  ((digit_count (decimal z) <= int_max_str_digits)%nat ->
   _to_int_or_nan (CText (p1 ++ decimal z ++ p2)) = Some z) /\
  ((int_max_str_digits < digit_count (decimal z))%nat ->
   _to_int_or_nan (CText (p1 ++ decimal z ++ p2)) = None).
Proof.
  intros H1 H2. unfold _to_int_or_nan, py_str.
  rewrite strip_padding by assumption.
  rewrite (text_without_space _ (decimal_chars z)). split.
  - apply py_int_decimal.
  - intros H. unfold py_int.
    rewrite (text_without_space _ (decimal_chars z)).
    apply Nat.ltb_lt in H. now rewrite H.
Qed.

Lemma integer_text_round_trip_witness :
  _to_int_or_nan (CText " 404 ") = Some 404 /\
  _to_int_or_nan (CText "-17") = Some (-17).
Proof.
  split.
  - apply (integer_text_round_trip 404 " " " "); [repeat constructor ..|].
    vm_compute. lia.
  - apply (integer_text_round_trip (-17) "" ""); [constructor ..|].
    vm_compute. lia.
Defined.

(** ** When the slope is undefined *)

Lemma flat_map_nil {A B} (f : A -> list B) (l : list A) :
  flat_map f l = [] <-> forall a, In a l -> f a = [].
Proof.
  induction l as [|a l IH]; simpl.
  - split; [intros _ a [] | reflexivity].
  - split.
    + intros H. apply app_eq_nil in H as [H1 H2]. intros b [<-|Hb]; [exact H1|].
      now apply IH.
    + intros H. rewrite (H a (or_introl eq_refl)). apply IH.
      intros b Hb. apply H. now right.
Qed.

Lemma median_nan (l : list Q) : median l = NaN <-> l = [].
Proof.
  unfold median, median_sorted. split.
  - intros H. apply (isort_nil_inv Qle_bool).
    fold sortQ. destruct (sortQ l) as [|a t]; [reflexivity|].
    destruct (Nat.even (List.length (a :: t))); discriminate.
  - intros ->. reflexivity.
Qed.

Lemma masked_slope_nil (p q : Q * Q) :
  masked_slope p q = [] <-> (fst p <= fst q)%Q.
Proof.
  unfold masked_slope, Qlt_bool.
  destruct (Qle_bool (fst p - fst q) 0) eqn:E; simpl.
  - apply Qle_bool_iff in E. split; [intros _; lra | reflexivity].
  - apply Qle_bool_false in E. split; [discriminate | intros H; lra].
Qed.

Lemma masked_slopes_nil (pts : list (Q * Q)) :
  masked_slopes pts = [] <->
  forall p q, In p pts -> In q pts -> (fst p == fst q)%Q.
Proof.
  rewrite masked_slopes_grid, flat_map_nil. split.
  - intros H p q Hp Hq.
    pose proof (proj1 (flat_map_nil _ _) (H p Hp) q Hq) as H1.
    pose proof (proj1 (flat_map_nil _ _) (H q Hq) p Hp) as H2.
    apply masked_slope_nil in H1, H2. lra.
  - intros H p Hp. apply flat_map_nil. intros q Hq.
    apply masked_slope_nil. rewrite (H p q Hp Hq). lra.
Qed.

(** [theil_sen_slope] is undefined in two cases only: fewer than 2 points
    are left without NaN, or all the points left share one x (then
    [theilslopes] has no pair to take a slope from).  In every other case it
    is a number. *)
Theorem slope_undefined_iff_no_two_x (y x : list fval) :
  List.length y = List.length x ->
  theil_sen_slope y x = NaN <->
  (List.length (valid_points y x) < 2)%nat \/
  (forall p q, In p (valid_points y x) -> In q (valid_points y x) ->
               (fst p == fst q)%Q).
Proof.
  intros _. unfold theil_sen_slope, theilslopes. cbv zeta.
  destruct (List.length (valid_points y x) <? 2)%nat eqn:E.
  - apply Nat.ltb_lt in E. split; [now left | reflexivity].
  - apply Nat.ltb_ge in E. rewrite median_nan, masked_slopes_nil.
    split; [now right | intros [H|H]; [lia | exact H]].
Qed.

Lemma slope_undefined_iff_no_two_x_witness :
  theil_sen_slope [Fin 1; Fin 2; Fin 4] [Fin 3; Fin 3; Fin (6 # 2)] = NaN.
Proof.
  apply (slope_undefined_iff_no_two_x [Fin 1; Fin 2; Fin 4] [Fin 3; Fin 3; Fin (6 # 2)]).
  - reflexivity.
  - right. intros p q Hp Hq. simpl in Hp, Hq.
    destruct Hp as [<-|[<-|[<-|[]]]], Hq as [<-|[<-|[<-|[]]]]; reflexivity.
Defined.

Lemma valid_points_of_pairs (pts : list (Q * Q)) :
  valid_points (values_of pts) (times_of pts) = pts.
Proof.
  unfold valid_points, values_of, times_of.
  induction pts as [|[t v] pts IH]; [reflexivity|]. simpl. now rewrite IH.
Qed.

Lemma kept_keys_nodup {K V} (key : V -> K) (keep : V -> bool) (rows : list V)
    (distinct : NoDup (map key rows)) :
  NoDup (map key (filter keep rows)).
Proof.
  induction rows as [|r rows IH]; cbn [filter map]; [constructor|].
  cbn [map] in distinct. apply NoDup_cons_iff in distinct as [Hn Hd].
  destruct (keep r); cbn [map]; [|now apply IH].
  apply NoDup_cons; [|now apply IH].
  intros Hin. apply Hn. apply in_map_iff in Hin as [b [Hb Hin]].
  apply filter_In in Hin as [Hin _]. apply in_map_iff. now exists b.
Qed.

Lemma bin_groups_keys (bm : Z) (jj : list timed) :
  map fst (bin_groups bm jj) = isort Z.leb (nodup Z.eq_dec (map (bin_of bm) jj)).
Proof. unfold bin_groups. rewrite map_map. simpl. apply map_id. Qed.

Lemma p95_bins_nodup (bm ms : Z) (jj : list timed) :
  NoDup (map fst (p95_series bm ms jj)).
Proof.
  unfold p95_series. rewrite map_map. simpl.
  apply kept_keys_nodup. rewrite bin_groups_keys.
  eapply Permutation_NoDup; [symmetry; apply isort_perm | apply NoDup_nodup].
Qed.

Lemma bin_hours_injective (bm : Z) (a b : Z * Q) :
  bm <> 0%Z -> (fst (bin_hours bm a) == fst (bin_hours bm b))%Q -> fst a = fst b.
Proof.
  intros Hbm H. unfold bin_hours in H. cbn [fst] in H.
  assert (Hk : ~ (inject_Z bm / 60 == 0)%Q).
  { intros E. apply Hbm. apply (proj1 (inject_Z_injective bm 0)).
    assert (E' : (inject_Z bm == (inject_Z bm / 60) * 60)%Q) by (field).
    rewrite E' , E. reflexivity. }
  apply (proj1 (inject_Z_injective (fst a) (fst b))).
  now apply Qmult_inj_r in H.
Qed.

(** From the binning on, [compute_latency_metrics] works on bins that are
    all different, so once 5 bins are kept (and the bin width is not 0) the
    latency slope and significance are numbers: of the three metrics only
    the delta can still be undefined. *)
Theorem latency_trend_is_defined_on_five_bins nc (c : config) (text : bool)
    (jj : list timed) (slope : fval) (pv : pval) (delta : fval) :
  binned_trend nc c text jj = Ok (slope, pv, delta) ->
  (5 <= List.length (p95_series (bin_minutes c) (min_samples_per_bin c) jj))%nat ->
  NoDup (map fst (p95_series (bin_minutes c) (min_samples_per_bin c) jj)) /\
  (exists q, slope = Fin q) /\ (exists p, pv = PVal p).
Proof.
  intros H H5. split; [apply p95_bins_nodup|].
  unfold binned_trend in H.
  destruct (bin_minutes c =? 0)%Z eqn:Ebm; [discriminate|].
  destruct text; [discriminate|].
  apply Z.eqb_neq in Ebm.
  set (p95 := p95_series _ _ jj) in *.
  pose proof (proj2 (Nat.ltb_ge _ _) H5) as E5. rewrite E5 in H.
  fold (bin_hours (bin_minutes c)) in H.
  set (pts := map (bin_hours (bin_minutes c)) p95) in *.
  fold (values_of pts) (times_of pts) in H.
  inversion H as [[Hs Hp Hd]]. clear H Hd. split.
  - destruct (theil_sen_slope (values_of pts) (times_of pts)) as [|q] eqn:E;
      [|now exists q].
    exfalso. apply slope_undefined_iff_no_two_x in E.
    2: { unfold values_of, times_of. now rewrite !length_map. }
    rewrite valid_points_of_pairs in E. destruct E as [E|E].
    + unfold pts in E. rewrite length_map in E. lia.
    + pose proof (p95_bins_nodup (bin_minutes c) (min_samples_per_bin c) jj) as N.
      fold p95 in N. subst pts.
      destruct p95 as [|a [|b rest]]; simpl in H5; try lia.
      simpl in N. inversion N as [|? ? Hn _]; subst. apply Hn. left.
      symmetry. apply (bin_hours_injective (bin_minutes c) a b Ebm).
      apply E; simpl; auto.
  - unfold mann_kendall_pvalue. cbv zeta.
    unfold values_of. fold (map Fin (map snd pts)).
    replace (map (fun p => Fin (snd p)) pts) with (map Fin (map snd pts))
      by (now rewrite map_map).
    rewrite drop_nan_fin, length_map. unfold pts. rewrite length_map.
    replace (List.length p95 <? 3)%nat with false
      by (symmetry; apply Nat.ltb_ge; lia).
    destruct (Qle_bool _ 0); eexists; reflexivity.
Qed.

Lemma latency_trend_is_defined_on_five_bins_witness :
  exists q,
    theil_sen_slope
      (values_of (map (bin_hours 1) (p95_series 1 5 forty_requests)))
      (times_of (map (bin_hours 1) (p95_series 1 5 forty_requests))) = Fin q.
Proof.
  assert (L : (List.length (p95_series 1 5 forty_requests) <? 5)%nat = false)
    by (vm_compute; reflexivity).
  eapply (latency_trend_is_defined_on_five_bins flat_cdf (with_filter "all")
            false forty_requests).
  - unfold binned_trend.
    cbn [bin_minutes min_samples_per_bin with_filter]. rewrite L.
    change (1 =? 0)%Z with false. cbv iota. reflexivity.
  - apply Nat.ltb_ge. exact L.
Defined.

(** ** The significance test and the order of the values *)

Lemma sign_opp (a b : Q) : sign (a - b) = - sign (b - a).
Proof.
  destruct (Q_dec a b) as [[L|G]|E].
  - rewrite (sign_neg (a - b)), (sign_pos (b - a)); [reflexivity | lra | lra].
  - rewrite (sign_pos (a - b)), (sign_neg (b - a)); [reflexivity | lra | lra].
  - rewrite (sign_zero (a - b)), (sign_zero (b - a)); [reflexivity | lra | lra].
Qed.

Section Increasing.
Variable g : Q -> Q.
Hypothesis g_proper : forall a b, (a == b)%Q -> (g a == g b)%Q.
Hypothesis g_increasing : forall a b, (a < b)%Q -> (g a < g b)%Q.

Lemma sign_increasing (a b : Q) : sign (g b - g a) = sign (b - a).
Proof.
  destruct (Q_dec a b) as [[L|G]|E].
  - pose proof (g_increasing a b L).
    rewrite !sign_pos; [reflexivity | lra | lra].
  - pose proof (g_increasing b a G).
    rewrite !sign_neg; [reflexivity | lra | lra].
  - pose proof (g_proper a b E).
    rewrite !sign_zero; [reflexivity | lra | lra].
Qed.

Lemma Qeq_bool_increasing (a b : Q) : Qeq_bool (g a) (g b) = Qeq_bool a b.
Proof.
  destruct (Qeq_bool a b) eqn:E.
  - apply Qeq_bool_iff in E. now apply Qeq_bool_iff, g_proper.
  - apply Qeq_bool_neq in E.
    destruct (Qeq_bool (g a) (g b)) eqn:E'; [|reflexivity].
    apply Qeq_bool_iff in E'. exfalso.
    destruct (Q_dec a b) as [[L|G]|Q]; [| |contradiction].
    + pose proof (g_increasing a b L). lra.
    + pose proof (g_increasing b a G). lra.
Qed.

Lemma S_statistic_increasing (l : list Q) : S_statistic (map g l) = S_statistic l.
Proof.
  induction l as [|a t IH]; [reflexivity|]. cbn [map S_statistic].
  rewrite IH, map_map. do 2 f_equal. apply map_ext. intros b.
  apply sign_increasing.
Qed.

Lemma multiplicity_increasing (a : Q) (l : list Q) :
  multiplicity (g a) (map g l) = multiplicity a l.
Proof.
  unfold multiplicity. f_equal.
  induction l as [|b t IH]; [reflexivity|]. cbn [map filter].
  rewrite Qeq_bool_increasing. destruct (Qeq_bool a b); simpl; now rewrite IH.
Qed.

Lemma var_numerator_increasing (l : list Q) :
  var_numerator (map g l) = var_numerator l.
Proof.
  rewrite !var_numerator_wraps. cbv zeta. rewrite length_map. do 2 f_equal.
  unfold tie_by_element. rewrite map_map.
  f_equal. apply map_ext. intros a. now rewrite multiplicity_increasing.
Qed.

Lemma drop_nan_rescale (y : list fval) :
  drop_nan (map (rescale g) y) = map g (drop_nan y).
Proof.
  unfold drop_nan. induction y as [|[|q] y IH]; [reflexivity| |]; simpl;
    now rewrite IH.
Qed.

Lemma mann_kendall_increasing nc (y : list fval) :
  mann_kendall_pvalue nc (map (rescale g) y) = mann_kendall_pvalue nc y.
Proof.
  unfold mann_kendall_pvalue, variance. cbv zeta.
  now rewrite drop_nan_rescale, length_map, S_statistic_increasing,
    var_numerator_increasing.
Qed.
End Increasing.

(** The significance test looks at the order of the values only: applying a
    strictly increasing function to every value (a change of unit, an
    offset, a logarithmic scale) leaves the p-value as it is. *)
Theorem significance_depends_on_order_only nc (g : Q -> Q) (y : list fval) :
  (forall a b, (a == b)%Q -> (g a == g b)%Q) ->
  (forall a b, (a < b)%Q -> (g a < g b)%Q) ->
  mann_kendall_pvalue nc (map (rescale g) y) = mann_kendall_pvalue nc y.
Proof. intros H1 H2. now apply mann_kendall_increasing. Qed.

Lemma significance_depends_on_order_only_witness :
  mann_kendall_pvalue ramp_cdf (map (rescale mib_to_bytes) rising_with_gap) =
  mann_kendall_pvalue ramp_cdf rising_with_gap.
Proof.
  apply (significance_depends_on_order_only ramp_cdf mib_to_bytes rising_with_gap).
  - intros a b H. unfold mib_to_bytes. now rewrite H.
  - intros a b H. unfold mib_to_bytes. lra.
Defined.

(** ** Rising and falling series *)

Lemma sumZ_opp {A} (f : A -> Z) (l : list A) :
  sumZ (map (fun a => - f a) l) = - sumZ (map f l).
Proof.
  induction l as [|a l IH]; [reflexivity|]. cbn [map]. rewrite !sumZ_cons, IH. ring.
Qed.

Lemma S_statistic_snoc (l : list Q) (a : Q) :
  S_statistic (l ++ [a]) = S_statistic l + sumZ (map (fun b => sign (a - b)) l).
Proof.
  induction l as [|b l IH]; [reflexivity|].
  cbn [app S_statistic map]. rewrite IH, map_app, sumZ_app, sumZ_cons.
  cbn [map]. rewrite sumZ_cons. cbn [sumZ fold_right]. ring.
Qed.

Lemma S_statistic_rev (l : list Q) : S_statistic (rev l) = - S_statistic l.
Proof.
  induction l as [|a t IH]; [reflexivity|].
  cbn [rev S_statistic]. rewrite S_statistic_snoc, IH.
  rewrite (sumZ_perm _ (map (fun b => sign (a - b)) t)).
  - rewrite (map_ext _ (fun b => - sign (b - a))) by (intros b; apply sign_opp).
    rewrite sumZ_opp. ring.
  - apply Permutation_map. symmetry. apply Permutation_rev.
Qed.

Lemma var_numerator_rev (l : list Q) : var_numerator (rev l) = var_numerator l.
Proof.
  rewrite !var_numerator_wraps. cbv zeta. rewrite length_rev. do 2 f_equal.
  apply tie_by_element_perm. symmetry. apply Permutation_rev.
Qed.

Lemma drop_nan_rev (y : list fval) : drop_nan (rev y) = rev (drop_nan y).
Proof.
  unfold drop_nan. induction y as [|v y IH]; [reflexivity|].
  cbn [rev flat_map]. rewrite flat_map_app, IH. cbn [flat_map].
  rewrite app_nil_r. destruct v; [now rewrite app_nil_r | reflexivity].
Qed.

Lemma toward_zero_opp (S : Z) : toward_zero (- S) = - toward_zero S.
Proof. unfold toward_zero. rewrite Z.sgn_opp. ring. Qed.

Lemma two_sided_opp nc (S : Z) (v : Q) : two_sided nc (- S) v = two_sided nc S v.
Proof.
  unfold two_sided. rewrite !z_score_toward_zero, toward_zero_opp, opp_IZR.
  do 3 f_equal. unfold Rdiv. now rewrite Ropp_mult_distr_l_reverse, Rabs_Ropp.
Qed.

(** The test is two-sided: a series read backwards, where every rise is a
    fall, has the opposite S and the same p-value. *)
Theorem significance_of_reversed_series nc (y : list fval) :
  S_statistic (drop_nan (rev y)) = - S_statistic (drop_nan y) /\
  mann_kendall_pvalue nc (rev y) = mann_kendall_pvalue nc y.
Proof.
  rewrite drop_nan_rev. split; [apply S_statistic_rev|].
  unfold mann_kendall_pvalue, variance. cbv zeta.
  rewrite drop_nan_rev, length_rev, S_statistic_rev, var_numerator_rev.
  destruct (_ <? 3)%nat; [reflexivity|].
  destruct (Qle_bool _ 0); [reflexivity|]. f_equal. apply two_sided_opp.
Qed.

Lemma increasing_multiplicity (l : list Q) :
  StronglySorted Qlt l -> forall x, In x l -> multiplicity x l = 1.
Proof.
  induction 1 as [|a t Hs IH Ha]; intros x Hx; [contradiction|].
  rewrite multiplicity_cons. rewrite Forall_forall in Ha. destruct Hx as [<-|Hx].
  - rewrite Qeq_bool_refl, multiplicity_absent; [reflexivity|].
    destruct (existsb (Qeq_bool a) t) eqn:E; [|reflexivity].
    apply existsb_exists in E as [b [Hb E]]. apply Qeq_bool_iff in E.
    pose proof (Ha b Hb). lra.
  - rewrite (Qeq_bool_lt x a (Ha x Hx)), (IH x Hx). reflexivity.
Qed.

Lemma increasing_var_numerator (l : list Q) :
  StronglySorted Qlt l ->
  var_numerator l = untied_numerator (Z.of_nat (List.length l)).
Proof.
  intros H. rewrite var_numerator_wraps. unfold untied_numerator. cbv zeta.
  unfold tie_by_element.
  rewrite (map_ext_in _ (fun _ => 0)).
  - rewrite sumZ_constant, Z.mul_0_r. change (wrap64 0) with 0. ring.
  - intros x Hx. now rewrite (increasing_multiplicity l H x Hx).
Qed.

Lemma increasing_S_statistic (l : list Q) :
  StronglySorted Qlt l ->
  2 * S_statistic l = Z.of_nat (List.length l) * (Z.of_nat (List.length l) - 1).
Proof.
  induction 1 as [|a t Hs IH Ha]; [reflexivity|].
  cbn [S_statistic List.length]. rewrite Nat2Z.inj_succ.
  rewrite (map_ext_in _ (fun _ => 1)).
  - rewrite sumZ_constant. lia.
  - intros b Hb. rewrite Forall_forall in Ha. apply sign_pos.
    pose proof (Ha b Hb). lra.
Qed.

Lemma Q2R_over_18 (m : Z) : Q2R (inject_Z m / 18) = (IZR m / 18)%R.
Proof.
  unfold Q2R, Qdiv, Qmult, Qinv, inject_Z. cbn [Qnum Qden].
  now rewrite Z.mul_1_r.
Qed.

(** On a strictly rising series of [n >= 3] values nothing is tied and every
    pair counts for the rise: S is n(n-1)/2, the variance is
    n(n-1)(2n+5)/18, which is positive, and the p-value is
    2(1 - Phi((S - 1) / sqrt(variance))); the degenerate answer 1.0 is not
    given. *)
Theorem significance_of_rising_series nc (l : list Q) :
  StronglySorted Qlt l -> (3 <= List.length l)%nat ->
  let n := Z.of_nat (List.length l) in
  S_statistic l = pair_count n /\
  variance l = (inject_Z (untied_numerator n) / 18)%Q /\
  mann_kendall_pvalue nc (map Fin l) =
    PVal (2 * (1 - nc (Rabs (IZR (pair_count n - 1)
                              / sqrt (IZR (untied_numerator n) / 18)))))%R.
Proof.
  intros H H3 n.
  pose proof (increasing_S_statistic l H) as HS. fold n in HS.
  pose proof (increasing_var_numerator l H) as HV. fold n in HV.
  assert (Hn : 3 <= n) by (unfold n; lia).
  assert (ES : S_statistic l = pair_count n).
  { unfold pair_count. apply Z.div_unique_exact; [lia|]. lia. }
  assert (EV : variance l = (inject_Z (untied_numerator n) / 18)%Q)
    by (unfold variance; now rewrite HV).
  split; [exact ES|]. split; [exact EV|].
  unfold mann_kendall_pvalue. cbv zeta. rewrite drop_nan_fin.
  apply Nat.ltb_ge in H3. rewrite H3, EV, ES.
  assert (Pos : 0 < untied_numerator n) by (unfold untied_numerator; nia).
  replace (Qle_bool (inject_Z (untied_numerator n) / 18) 0) with false.
  - unfold two_sided, z_score. rewrite Q2R_over_18.
    replace (0 <? pair_count n)%Z with true; [reflexivity|].
    symmetry. apply Z.ltb_lt. rewrite <- ES. nia.
  - symmetry. apply Qle_bool_false. unfold Qdiv, Qmult, Qlt. simpl. lia.
Qed.

Lemma significance_of_rising_series_witness :
  S_statistic [1; 2; 4; 8]%Q = 6 /\
  variance [1; 2; 4; 8]%Q = (inject_Z 156 / 18)%Q.
Proof.
  destruct (significance_of_rising_series flat_cdf [1; 2; 4; 8]%Q) as [A [B _]].
  - repeat constructor.
  - simpl. lia.
  - split; [exact A | exact B].
Defined.

(** ** The loaded resource table *)

Lemma option_leb_total (a b : option Z) : option_leb a b = true \/ option_leb b a = true.
Proof.
  destruct a as [x|], b as [y|]; simpl; auto.
  destruct (Z.leb_spec x y); [now left | right; apply Z.leb_le; lia].
Qed.

Lemma option_leb_trans (a b c : option Z) :
  option_leb a b = true -> option_leb b c = true -> option_leb a c = true.
Proof.
  destruct a as [x|], b as [y|], c as [z|]; simpl; try congruence.
  rewrite !Z.leb_le. lia.
Qed.

(** [read_monitor_csv] raises exactly when the table has no timestamp
    column; otherwise it returns the same columns and the same rows,
    rearranged in ascending order of timestamp with the rows without a
    timestamp last. *)
Theorem loaded_monitor_is_sorted (f : monitor_frame) :
  ((exists e, read_monitor_csv f = Raise e) <->
   mem_string "timestamp" (mcolumns f) = false) /\
  (forall mon, read_monitor_csv f = Ok mon ->
     mcolumns mon = mcolumns f /\
     Permutation (mrows mon) (mrows f) /\
     StronglySorted (fun a b => option_leb (timestamp a) (timestamp b) = true)
       (mrows mon)).
Proof.
  unfold read_monitor_csv.
  destruct (mem_string "timestamp" (mcolumns f)); simpl; split.
  - split; [intros [e H]; discriminate | discriminate].
  - intros mon H. inversion H; subst. simpl. repeat split.
    + apply isort_perm.
    + apply (isort_sorted (fun a b => option_leb (timestamp a) (timestamp b))).
      * intros a b. apply option_leb_total.
      * intros a b c. apply option_leb_trans.
  - split; [reflexivity | now eexists].
  - intros mon H. discriminate.
Qed.

Lemma loaded_monitor_is_sorted_witness :
  StronglySorted (fun a b => option_leb (timestamp a) (timestamp b) = true)
    (isort (fun a b => option_leb (timestamp a) (timestamp b))
           (mrows hourly_monitor)).
Proof.
  destruct (loaded_monitor_is_sorted hourly_monitor) as [_ L].
  destruct (L {| mcolumns := mcolumns hourly_monitor;
                 mrows := isort (fun a b => option_leb (timestamp a) (timestamp b))
                                (mrows hourly_monitor) |} eq_refl) as [_ [_ S]].
  exact S.
Defined.

(** ** The resource metrics *)

Lemma compute_memory_metrics_stages nc (f : monitor_frame) (c : config) :
  compute_memory_metrics nc f c =
  (pts <- warm_samples f c ;;
   if (List.length pts <? 3)%nat then Ok (NaN, PNaN, NaN)
   else Ok (theil_sen_slope (values_of pts) (times_of pts),
            mann_kendall_pvalue nc (values_of pts),
            early_late_delta c pts)).
Proof.
  unfold compute_memory_metrics, warm_samples.
  destruct (read_monitor_csv f) as [mon|]; [|reflexivity]. cbn [bind].
  destruct (build_memory_series mon) as [built|]; [|reflexivity]. cbn [bind].
  destruct (isort _ built) as [|[t0 m0] rest]; reflexivity.
Qed.

Lemma sorted_series_head (s : series) (t0 : Z) (m0 : Q) (rest : series) :
  isort (fun a b => (fst a <=? fst b)%Z) s = (t0, m0) :: rest ->
  forall tm, In tm ((t0, m0) :: rest) -> t0 <= fst tm.
Proof.
  intros E tm Hin.
  assert (S : StronglySorted (fun a b : Z * Q => (fst a <=? fst b)%Z = true)
                ((t0, m0) :: rest)).
  { rewrite <- E. apply isort_sorted.
    - intros a b. destruct (Z.leb_spec (fst a) (fst b)); [now left|].
      right. apply Z.leb_le. lia.
    - intros a b c. rewrite !Z.leb_le. lia. }
  destruct Hin as [<-|Hin]; [simpl; lia|].
  apply StronglySorted_inv in S as [_ S]. rewrite Forall_forall in S.
  apply Z.leb_le. exact (S tm Hin).
Qed.

Lemma ms_to_hours_nonneg (z : Z) : 0 <= z -> (0 <= ms_to_hours (inject_Z z))%Q.
Proof.
  intros H. unfold ms_to_hours.
  assert (0 <= inject_Z z)%Q by (unfold Qle; simpl; lia).
  apply Qle_shift_div_l; [reflexivity|]. apply Qle_shift_div_l; [reflexivity|].
  lra.
Qed.

(** The time axis of the resource metrics starts at the earliest sample:
    every sample kept after the warm-up has an elapsed time that is not
    negative and not before the warm-up cutoff. *)
Theorem resource_times_start_at_first_sample (f : monitor_frame) (c : config)
    (pts : list (Q * Q)) :
  warm_samples f c = Ok pts ->
  forall p, In p pts -> (0 <= fst p)%Q /\ (warmup_hours c <= fst p)%Q.
Proof.
  unfold warm_samples.
  destruct (read_monitor_csv f) as [mon|]; [|discriminate]. cbn [bind].
  destruct (build_memory_series mon) as [built|]; [|discriminate]. cbn [bind].
  destruct (isort _ built) as [|[t0 m0] rest] eqn:E; [discriminate|].
  remember ((t0, m0) :: rest) as sorted eqn:Es.
  intros H p Hp. injection H as <-.
  apply filter_In in Hp as [Hp Hw]. split; [|now apply Qle_bool_iff].
  apply in_map_iff in Hp as [tm [<- Hin]]. cbn [fst]. subst sorted.
  apply ms_to_hours_nonneg.
  pose proof (sorted_series_head built t0 m0 rest E tm Hin). lia.
Qed.

Lemma resource_times_start_at_first_sample_witness :
  (0 <= ms_to_hours (inject_Z (3600000 - 0)))%Q /\
  (1 # 2 <= ms_to_hours (inject_Z (3600000 - 0)))%Q.
Proof.
  apply (resource_times_start_at_first_sample hourly_monitor command_line_defaults
           [(ms_to_hours (inject_Z (3600000 - 0)), 110%Q);
            (ms_to_hours (inject_Z (7200000 - 0)), 120%Q);
            (ms_to_hours (inject_Z (10800000 - 0)), 130%Q);
            (ms_to_hours (inject_Z (14400000 - 0)), 140%Q)]
           eq_refl (ms_to_hours (inject_Z (3600000 - 0)), 110%Q)).
  now left.
Defined.

Lemma Qmax_cases (a b : Q) : (Qmax a b = a \/ Qmax a b = b) /\ (a <= Qmax a b)%Q /\ (b <= Qmax a b)%Q.
Proof.
  unfold Qmax. destruct (Qle_bool a b) eqn:E.
  - apply Qle_bool_iff in E. repeat split; auto; lra.
  - apply Qle_bool_false in E. repeat split; auto; lra.
Qed.

Lemma fold_left_Qmax (t : list Q) :
  forall a, (fold_left Qmax t a = a \/ In (fold_left Qmax t a) t) /\
            (a <= fold_left Qmax t a)%Q /\
            (forall x, In x t -> (x <= fold_left Qmax t a)%Q).
Proof.
  induction t as [|b t IH]; intros a; cbn [fold_left].
  - repeat split; auto; [lra | intros x []].
  - destruct (IH (Qmax a b)) as [I1 [I2 I3]].
    destruct (Qmax_cases a b) as [C1 [C2 C3]]. repeat split.
    + destruct I1 as [I1|I1]; [|right; now right].
      rewrite I1. destruct C1 as [->| ->]; [now left | right; now left].
    + lra.
    + intros x [<-|Hx]; [lra | now apply I3].
Qed.

Lemma nanmax_spec (l : list Q) :
  l <> [] -> In (nanmax l) l /\ forall x, In x l -> (x <= nanmax l)%Q.
Proof.
  destruct l as [|a t]; [contradiction|]. intros _. unfold nanmax.
  destruct (fold_left_Qmax t a) as [I1 [I2 I3]]. split.
  - destruct I1 as [->|I1]; [now left | now right].
  - intros x [<-|Hx]; [exact I2 | now apply I3].
Qed.

Lemma median_of_some (l : list Q) : l <> [] -> exists q, median l = Fin q.
Proof.
  intros H. destruct (median l) as [|q] eqn:E; [|now exists q].
  apply median_nan in E. contradiction.
Qed.

Lemma early_late_delta_nan (c : config) (pts : list (Q * Q)) :
  pts <> [] ->
  (forall p, In p pts -> (warmup_hours c <= fst p)%Q) ->
  (0 <= late_duration_h c)%Q ->
  early_late_delta c pts = NaN <-> filter (in_early c) pts = [].
Proof.
  intros Hne Hw Hd. unfold early_late_delta. cbv zeta.
  fold (in_early c). set (tmax := nanmax (map fst pts)).
  set (late_start := Qmax (warmup_hours c) (tmax - late_duration_h c)).
  destruct (nanmax_spec (map fst pts)) as [Hin Hmax].
  { destruct pts; [contradiction | discriminate]. }
  fold tmax in Hin, Hmax.
  apply in_map_iff in Hin as [pm [Hpm Hin]].
  assert (Hlate : In pm (filter (fun p => (Qle_bool late_start (fst p)
                                            && Qle_bool (fst p) tmax)%bool) pts)).
  { apply filter_In. split; [exact Hin|]. rewrite Hpm.
    apply andb_true_iff. split; apply Qle_bool_iff; [|lra].
    unfold late_start. destruct (Qmax_cases (warmup_hours c) (tmax - late_duration_h c))
      as [[-> | ->] _]; [|lra].
    rewrite <- Hpm. now apply Hw. }
  destruct (filter (in_early c) pts) as [|e es] eqn:Ee.
  - split; reflexivity.
  - destruct (filter _ pts) as [|l ls] eqn:El; [contradiction|].
    split; [|discriminate]. intros H. exfalso.
    destruct (median_of_some (map snd (l :: ls))) as [q1 E1]; [discriminate|].
    destruct (median_of_some (map snd (e :: es))) as [q2 E2]; [discriminate|].
    rewrite E1, E2 in H. discriminate.
Qed.

(** With a late duration that is not negative, the late window of the
    resource metrics always holds the last sample, so the early/late delta
    of a run with 3 or more samples is undefined exactly when no sample
    falls in the early window [early_start, early_end). *)
Theorem resource_delta_needs_an_early_sample nc (f : monitor_frame) (c : config)
    (pts : list (Q * Q)) :
  warm_samples f c = Ok pts ->
  (3 <= List.length pts)%nat ->
  (0 <= late_duration_h c)%Q ->
  exists slope pv delta,
    compute_memory_metrics nc f c = Ok (slope, pv, delta) /\
    (delta = NaN <-> filter (in_early c) pts = []).
Proof.
  intros Hw H3 Hd. rewrite compute_memory_metrics_stages, Hw. cbn [bind].
  apply Nat.ltb_ge in H3 as E. rewrite E.
  do 3 eexists. split; [reflexivity|].
  apply early_late_delta_nan; [| |exact Hd].
  - destruct pts; [simpl in H3; lia | discriminate].
  - intros p Hp. now apply (resource_times_start_at_first_sample f c pts Hw p Hp).
Qed.

Lemma resource_delta_needs_an_early_sample_witness :
  exists slope pv delta,
    compute_memory_metrics flat_cdf hourly_monitor command_line_defaults =
      Ok (slope, pv, delta) /\
    (delta = NaN <->
     filter (in_early command_line_defaults)
       [(ms_to_hours (inject_Z (3600000 - 0)), 110%Q);
        (ms_to_hours (inject_Z (7200000 - 0)), 120%Q);
        (ms_to_hours (inject_Z (10800000 - 0)), 130%Q);
        (ms_to_hours (inject_Z (14400000 - 0)), 140%Q)] = []).
Proof.
  apply (resource_delta_needs_an_early_sample flat_cdf hourly_monitor
           command_line_defaults).
  - reflexivity.
  - simpl. lia.
  - vm_compute. discriminate.
Defined.

(** ** The summary table *)

Section LocallySorted.
Context {A : Type} (leb : A -> A -> bool).
Hypothesis leb_total : forall a b, leb a b = true \/ leb b a = true.

Lemma insert_hd (a b : A) (l : list A) :
  leb b a = true -> HdRel (fun x y => leb x y = true) b l ->
  HdRel (fun x y => leb x y = true) b (insert leb a l).
Proof.
  intros Hba H. destruct l as [|c l]; simpl; [now constructor|].
  inversion H; subst. destruct (leb a c); now constructor.
Qed.

Lemma insert_locally_sorted (a : A) (l : list A) :
  Sorted (fun x y => leb x y = true) l ->
  Sorted (fun x y => leb x y = true) (insert leb a l).
Proof.
  induction 1 as [|b t Hs IH Hb]; simpl; [repeat constructor|].
  destruct (leb a b) eqn:E.
  - constructor; [now constructor|]. now constructor.
  - constructor; [exact IH|]. apply insert_hd; [|exact Hb].
    destruct (leb_total a b); [congruence | assumption].
Qed.

Lemma isort_locally_sorted (l : list A) :
  Sorted (fun x y => leb x y = true) (isort leb l).
Proof. induction l; simpl; [constructor | now apply insert_locally_sorted]. Qed.
End LocallySorted.

Lemma summarize_run_name nc nt (c : config) (r : run) (row : SummaryRow) :
  summarize_run nc nt c r = Ok row -> app_name row = run_name r.
Proof.
  destruct r as [[name mon] jtl]. unfold summarize_run, run_name.
  destruct (compute_memory_metrics nc mon c) as [[[s p] d]|]; [|discriminate].
  cbn [bind].
  destruct (compute_latency_metrics nc nt jtl c) as [[[[s' p'] d'] te]|];
    [|discriminate].
  cbn [bind]. intros H. now inversion H.
Qed.

(** When [main] writes a table, its rows are in ascending order of
    [app_name], and the names in it are the names of the discovered runs,
    each as often as it was discovered. *)
Theorem summary_is_sorted_by_app_name nc nt (c : config) (runs : list run)
    (rows : list SummaryRow) :
  main nc nt c runs = Ok rows ->
  Sorted (fun a b => String.leb (app_name a) (app_name b) = true) rows /\
  Permutation (map app_name rows) (map run_name runs).
Proof.
  unfold main. destruct runs as [|r0 runs']; [discriminate|].
  remember (r0 :: runs') as rs.
  destruct (summarize_all nc nt c rs) as [rows'|] eqn:E; [|discriminate].
  cbn [bind]. intros H. injection H as <-. split.
  - apply (isort_locally_sorted (fun a b => String.leb (app_name a) (app_name b))).
    intros a b. apply String.leb_total.
  - rewrite (Permutation_map app_name (isort_perm _ rows')).
    apply summarize_all_ok in E. clear Heqrs.
    induction E as [|r row l l' Hr _ IH]; [constructor|].
    cbn [map]. rewrite (summarize_run_name nc nt c r row Hr). now constructor.
Qed.

Lemma summary_is_sorted_by_app_name_witness :
  Sorted (fun a b => String.leb (app_name a) (app_name b) = true)
    [row_alpha; row_b] /\
  Permutation (map app_name [row_alpha; row_b]) (map run_name [run_b; run_alpha]).
Proof.
  apply (summary_is_sorted_by_app_name flat_cdf integers_only default_config
           [run_b; run_alpha] [row_alpha; row_b]).
  vm_compute. reflexivity.
Defined.

(** ** Bins *)

Lemma list_sum_add {A} (f g : A -> nat) (l : list A) :
  list_sum (map (fun a => (f a + g a)%nat) l) =
  (list_sum (map f l) + list_sum (map g l))%nat.
Proof. induction l as [|a l IH]; simpl; lia. Qed.

Lemma list_sum_zero {A} (l : list A) : list_sum (map (fun _ => 0%nat) l) = 0%nat.
Proof. induction l; simpl; auto. Qed.

Lemma indicator_sum (k : Z) (keys : list Z) :
  NoDup keys -> In k keys ->
  list_sum (map (fun k' => if (k =? k')%Z then 1%nat else 0%nat) keys) = 1%nat.
Proof.
  induction 1 as [|a l Hn Hd IH]; [contradiction|]. intros [->|Hin]; simpl.
  - rewrite Z.eqb_refl.
    rewrite (map_ext_in _ (fun _ => 0%nat)).
    + now rewrite list_sum_zero.
    + intros b Hb. destruct (Z.eqb_spec k b); [subst; contradiction | reflexivity].
  - destruct (Z.eqb_spec k a); [subst; contradiction|]. simpl. now apply IH.
Qed.

Lemma groups_cover {A} (key : A -> Z) (l : list A) (keys : list Z) :
  NoDup keys -> (forall a, In a l -> In (key a) keys) ->
  list_sum (map (fun k => List.length (filter (fun a => (key a =? k)%Z) l)) keys) =
  List.length l.
Proof.
  intros Hn. induction l as [|a l IH]; intros Hk.
  - apply list_sum_zero.
  - cbn [List.length].
    rewrite (map_ext _ (fun k => ((if (key a =? k)%Z then 1 else 0)
                                  + List.length (filter (fun a => (key a =? k)%Z) l))%nat)).
    + rewrite list_sum_add, indicator_sum, IH; auto.
      * intros b Hb. apply Hk. now right.
      * apply Hk. now left.
    + intros k. cbn [filter]. destruct (key a =? k)%Z; reflexivity.
Qed.

(** The binning loses no request and counts none twice: the sizes of the
    groups add up to the number of requests, no group is empty, and the bins
    come in strictly ascending order. *)
Theorem bins_partition_the_requests (bm : Z) (jj : list timed) :
  list_sum (map (fun g => List.length (snd g)) (bin_groups bm jj)) = List.length jj /\
  (forall g, In g (bin_groups bm jj) -> snd g <> []) /\
  StronglySorted Z.lt (map fst (bin_groups bm jj)).
Proof.
  set (keys := isort Z.leb (nodup Z.eq_dec (map (bin_of bm) jj))).
  assert (Hn : NoDup keys).
  { eapply Permutation_NoDup; [symmetry; apply isort_perm | apply NoDup_nodup]. }
  assert (Hin : forall k, In k keys <-> In k (map (bin_of bm) jj)).
  { intros k. unfold keys. split; intros H.
    - apply (Permutation_in _ (isort_perm _ _)) in H. now apply nodup_In in H.
    - apply (Permutation_in _ (Permutation_sym (isort_perm _ _))).
      now apply nodup_In. }
  split; [|split].
  - unfold bin_groups. fold keys. rewrite map_map. cbn [snd].
    rewrite (map_ext _ (fun k => List.length (filter (fun r => (bin_of bm r =? k)%Z) jj)))
      by (intros k; now rewrite length_map).
    apply groups_cover; [exact Hn|].
    intros r Hr. apply Hin. now apply in_map.
  - intros g Hg. rewrite (bin_groups_fst bm jj g Hg).
    assert (Hk : In (fst g) keys).
    { unfold bin_groups in Hg. apply in_map_iff in Hg as [k [<- Hk]]. exact Hk. }
    apply Hin in Hk. apply in_map_iff in Hk as [r [Hr Hrin]].
    intros E. apply map_eq_nil in E.
    assert (In r (filter (in_bin bm (fst g)) jj)).
    { apply filter_In. split; [exact Hrin|]. unfold in_bin. now apply Z.eqb_eq. }
    rewrite E in H. contradiction.
  - rewrite bin_groups_keys. fold keys. apply strictly_sorted; [|exact Hn].
    apply isort_sorted.
    + intros a b. destruct (Z.leb_spec a b); [now left | right; apply Z.leb_le; lia].
    + intros a b c. rewrite !Z.leb_le. lia.
Qed.

(** ** The time axis of the requests *)

Lemma fval_leb_total (a b : fval) : fval_leb a b = true \/ fval_leb b a = true.
Proof. destruct a, b; simpl; auto. apply Qle_bool_total. Qed.

Lemma fval_leb_trans (a b c : fval) :
  fval_leb a b = true -> fval_leb b c = true -> fval_leb a c = true.
Proof.
  destruct a, b, c; simpl; try congruence. apply Qle_bool_trans.
Qed.

Lemma sorted_by_key {A B} (key : A -> B) (R : B -> B -> Prop) (l : list A) :
  StronglySorted (fun a b => R (key a) (key b)) l -> StronglySorted R (map key l).
Proof.
  induction 1 as [|a l Hs IH Ha]; cbn [map]; constructor; [exact IH|].
  apply Forall_map. exact Ha.
Qed.

Lemma drop_nan_in (l : list fval) (q : Q) : In q (drop_nan l) <-> In (Fin q) l.
Proof.
  unfold drop_nan. rewrite in_flat_map. split.
  - intros [[|q'] [Hv H]]; simpl in H; [contradiction|].
    destruct H as [->|[]]. exact Hv.
  - intros H. exists (Fin q). split; [exact H | now left].
Qed.

Lemma drop_nan_sorted (l : list fval) :
  StronglySorted (fun a b => fval_leb a b = true) l ->
  StronglySorted Qle_b (drop_nan l).
Proof.
  induction 1 as [|v l Hs IH Hv]; [constructor|].
  destruct v as [|a]; [exact IH|].
  change (drop_nan (Fin a :: l)) with (a :: drop_nan l).
  constructor; [exact IH|]. apply Forall_forall. intros q Hq.
  apply drop_nan_in in Hq. rewrite Forall_forall in Hv. exact (Hv _ Hq).
Qed.

Lemma ms_to_hours_nonnegative (q : Q) : (0 <= q)%Q -> (0 <= ms_to_hours q)%Q.
Proof.
  intros H. unfold ms_to_hours.
  apply Qle_shift_div_l; [reflexivity|]. apply Qle_shift_div_l; [reflexivity|].
  lra.
Qed.

Lemma bin_of_nonnegative (bm : Z) (r : timed) :
  0 < bm -> (0 <= t_hours r)%Q -> 0 <= bin_of bm r.
Proof.
  intros Hb Ht. unfold bin_of. change 0 with (Qfloor 0) at 1.
  apply Qfloor_resp_le. apply Qle_shift_div_l.
  - unfold Qlt. simpl. lia.
  - lra.
Qed.

Lemma insert_ext_in {A} (leb leb' : A -> A -> bool) (a : A) (l : list A) :
  (forall b, In b l -> leb a b = leb' a b) -> insert leb a l = insert leb' a l.
Proof.
  induction l as [|b t IH]; intros H; [reflexivity|]. cbn [insert].
  rewrite (H b (or_introl eq_refl)). destruct (leb' a b); [reflexivity|].
  f_equal. apply IH. intros x Hx. apply H. now right.
Qed.

(** Sorting depends on the order between the elements of the list only. *)
Lemma isort_ext_in {A} (leb leb' : A -> A -> bool) (l : list A) :
  (forall a b, In a l -> In b l -> leb a b = leb' a b) ->
  isort leb l = isort leb' l.
Proof.
  induction l as [|a t IH]; intros H; [reflexivity|]. cbn [isort].
  rewrite IH by (intros x y Hx Hy; apply H; now right).
  apply insert_ext_in. intros b Hb. apply H; [now left | right].
  now apply (Permutation_in _ (isort_perm leb' t)).
Qed.

Lemma value_leb_numbers (a b : value) :
  is_text a = false -> is_text b = false ->
  forall nt, value_leb a b = fval_leb (numeric nt a) (numeric nt b).
Proof. destruct a, b; simpl; intros; congruence. Qed.

(** In a log whose [timeStamp] column is numeric, the elapsed time of the
    requests is measured from the earliest timestamp: every request kept
    after the warm-up has an elapsed time that is not negative and not below
    the warm-up cutoff, and, for a positive bin width, a bin number that is
    not negative. *)
Theorem request_times_start_at_first_request nt (f : jtl_file) (c : config)
    (df : jtl_frame) (te : Z) (j : list timed) :
  read_jmeter_jtl nt f = Ok df ->
  (forall r, In r (jrows df) -> is_text (timeStamp r) = false) ->
  warm_requests nt f c = Ok (te, j) ->
  forall r, In r j ->
    (0 <= t_hours r)%Q /\ (warmup_hours c <= t_hours r)%Q /\
    (0 < bin_minutes c -> 0 <= bin_of (bin_minutes c) r).
Proof.
  intros Hread Hnum. unfold warm_requests. rewrite Hread. cbn [bind].
  rewrite (sort_values_numbers _ Hnum). cbn [bind].
  destruct (negb _); [discriminate|].
  rewrite (isort_ext_in _
             (fun a b => fval_leb (numeric nt (timeStamp a))
                                  (numeric nt (timeStamp b)))).
  2: { intros a b Ha Hb. apply value_leb_numbers; now apply Hnum. }
  set (key := fun r : jrow => numeric nt (timeStamp r)).
  set (sorted := isort _ (jrows df)).
  destruct (drop_nan (map key sorted)) as [|t0 ts] eqn:E; [discriminate|].
  intros H r Hr. injection H as _ <-.
  apply filter_In in Hr as [Hr Hw].
  assert (H0 : (0 <= t_hours r)%Q).
  { apply in_flat_map in Hr as [row [Hrow Hr]]. unfold timed_row in Hr.
    fold (key row) in Hr.
    destruct (key row) as [|q] eqn:Eq; [contradiction|].
    assert (Ht : t_hours r = ms_to_hours (q - t0)).
    { destruct (elapsed row) as [[|e]|e]; [contradiction| |];
        destruct Hr as [<-|[]]; reflexivity. }
    rewrite Ht. apply ms_to_hours_nonnegative.
    assert (S : StronglySorted Qle_b (t0 :: ts)).
    { rewrite <- E. apply drop_nan_sorted.
      apply (sorted_by_key key (fun a b => fval_leb a b = true)).
      apply (isort_sorted (fun a b => fval_leb (key a) (key b))).
      - intros a b. apply fval_leb_total.
      - intros a b d. apply fval_leb_trans. }
    assert (Hq : In q (t0 :: ts)).
    { rewrite <- E. apply drop_nan_in. rewrite <- Eq. now apply in_map. }
    destruct Hq as [->|Hq]; [lra|].
    pose proof (sorted_head_le t0 ts q S Hq). lra. }
  repeat split; [exact H0 | now apply Qle_bool_iff |].
  intros Hb. now apply bin_of_nonnegative.
Qed.

Lemma request_times_start_at_first_request_witness :
  (0 <= t_hours (served 60))%Q /\ 0 <= bin_of 1 (served 60).
Proof.
  destruct (request_times_start_at_first_request integers_only twelve_requests
              (with_filter "all")
              {| jcolumns := ["timeStamp"; "elapsed"; "success"; "responseCode"];
                 jrows := csv_rows twelve_requests |}
              1 twelve_timed) with (r := served 60)
    as [A [_ B]].
  - vm_compute. reflexivity.
  - intros r Hr. vm_compute in Hr.
    repeat (destruct Hr as [<-|Hr]; [reflexivity|]). contradiction.
  - vm_compute. reflexivity.
  - vm_compute. do 6 right. now left.
  - split; [exact A | exact (B eq_refl)].
Defined.

(** ** When the latency function returns *)

Lemma latency_subset_known (mode : string) (j : list timed) :
  known_filter mode -> exists jj, latency_subset mode j = Ok jj.
Proof.
  intros [-> | [-> | ->]]; unfold latency_subset; simpl; eexists; reflexivity.
Qed.

Lemma binned_trend_returns nc (c : config) (jj : list timed) :
  bin_minutes c <> 0 -> exists m, binned_trend nc c false jj = Ok m.
Proof.
  intros H. unfold binned_trend. apply Z.eqb_neq in H. rewrite H.
  destruct (List.length _ <? 5)%nat; eexists; reflexivity.
Qed.

Lemma text_latencies_of_frame nt (f : jtl_file) (df : jtl_frame) :
  read_jmeter_jtl nt f = Ok df -> text_latencies nt f = elapsed_is_text df.
Proof. intros H. unfold text_latencies. now rewrite H. Qed.

(** What [compute_latency_metrics] raises.  An error of the loader is passed
    on; a [timeStamp] column with a text beside a number gives [TypeError];
    a log without any numeric timestamp gives [IndexError].  A log with one,
    read with one of the three filter names and a bin width that is not 0,
    always gives metrics when its [elapsed] column is numeric; when that
    column holds a text, the percentile raises [TypeError] as soon as 10
    requests reach it. *)
Theorem latency_metrics_return_unless nc nt (f : jtl_file) (c : config) :
  (forall e, read_jmeter_jtl nt f = Raise e ->
     compute_latency_metrics nc nt f c = Raise e) /\
  (forall df, read_jmeter_jtl nt f = Ok df ->
     existsb is_text (map timeStamp (jrows df)) = true ->
     existsb is_number (map timeStamp (jrows df)) = true ->
     compute_latency_metrics nc nt f c = Raise TypeError) /\
  (forall df sorted, read_jmeter_jtl nt f = Ok df ->
     sort_values (jrows df) = Ok sorted ->
     (forall r, In r (jrows df) -> numeric nt (timeStamp r) = NaN) ->
     compute_latency_metrics nc nt f c = Raise IndexError) /\
  (forall df sorted r q, read_jmeter_jtl nt f = Ok df ->
     sort_values (jrows df) = Ok sorted ->
     In r (jrows df) -> numeric nt (timeStamp r) = Fin q ->
     known_filter (latency_filter c) -> bin_minutes c <> 0 ->
     (elapsed_is_text df = false ->
        exists m, compute_latency_metrics nc nt f c = Ok m) /\
     (elapsed_is_text df = true ->
        forall te j jj,
          warm_requests nt f c = Ok (te, j) ->
          latency_subset (latency_filter c) j = Ok jj ->
          (10 <= List.length j)%nat -> (10 <= List.length jj)%nat ->
          compute_latency_metrics nc nt f c = Raise TypeError)).
Proof.
  split; [|split; [|split]].
  - intros e H. unfold compute_latency_metrics, warm_requests. now rewrite H.
  - intros df H Ht Hn. unfold compute_latency_metrics, warm_requests.
    rewrite H. cbn [bind]. unfold sort_values. now rewrite Ht, Hn.
  - intros df sorted H Hs Hall. unfold compute_latency_metrics, warm_requests.
    rewrite H. cbn [bind]. rewrite Hs. cbn [bind].
    rewrite (loader_frame_has_mandatory nt f df H). cbn [negb].
    replace (drop_nan _) with (@nil Q); [reflexivity|].
    symmetry. unfold drop_nan. apply flat_map_nil. intros v Hv.
    apply in_map_iff in Hv as [r [<- Hr]].
    apply (Permutation_in _ (sort_values_perm _ _ Hs)) in Hr.
    now rewrite (Hall r Hr).
  - intros df sorted r q H Hs Hr Hq Hmode Hbm. split.
    + intros Hnum. unfold compute_latency_metrics, warm_requests.
      rewrite (text_latencies_of_frame nt f df H), Hnum.
      rewrite H. cbn [bind]. rewrite Hs. cbn [bind].
      rewrite (loader_frame_has_mandatory nt f df H). cbn [negb].
      destruct (drop_nan _) as [|t0 ts] eqn:E.
      * exfalso. assert (Hin : In q (@nil Q)); [|contradiction].
        rewrite <- E. apply drop_nan_in. rewrite <- Hq.
        apply (in_map (fun r => numeric nt (timeStamp r))).
        apply (Permutation_in _ (Permutation_sym (sort_values_perm _ _ Hs))).
        exact Hr.
      * cbn [bind]. destruct (List.length _ <? 10)%nat; [now eexists|].
        match goal with |- context [latency_subset _ ?j] =>
          destruct (latency_subset_known (latency_filter c) j Hmode) as [jj ->]
        end.
        cbn [bind]. destruct (List.length jj <? 10)%nat; [now eexists|].
        destruct (binned_trend_returns nc c jj Hbm) as [[[s p] d] ->].
        cbn [bind]. now eexists.
    + intros Htext te j jj Hw Hsub Hj Hjj. unfold compute_latency_metrics.
      rewrite Hw. cbn [bind]. apply Nat.ltb_ge in Hj, Hjj.
      rewrite Hj, Hsub. cbn [bind]. rewrite Hjj.
      rewrite (text_latencies_of_frame nt f df H), Htext.
      unfold binned_trend. apply Z.eqb_neq in Hbm. now rewrite Hbm.
Qed.

Lemma latency_metrics_return_unless_witness :
  compute_latency_metrics flat_cdf integers_only log_without_time default_config =
    Raise IndexError /\
  (exists m,
     compute_latency_metrics flat_cdf integers_only twelve_requests default_config =
       Ok m) /\
  compute_latency_metrics flat_cdf integers_only text_latency_log
    (with_filter "all") = Raise TypeError.
Proof.
  destruct (latency_metrics_return_unless flat_cdf integers_only log_without_time
              default_config) as [_ [_ [I _]]].
  destruct (latency_metrics_return_unless flat_cdf integers_only twelve_requests
              default_config) as [_ [_ [_ R]]].
  destruct (latency_metrics_return_unless flat_cdf integers_only text_latency_log
              (with_filter "all")) as [_ [_ [_ T]]].
  split; [|split].
  - eapply I; [reflexivity | reflexivity |]. intros r [<-|[]]. reflexivity.
  - eapply (R _ _ (request 0 "true" "200") (inject_Z 0)).
    + reflexivity.
    + reflexivity.
    + now left.
    + reflexivity.
    + right. now right.
    + discriminate.
    + reflexivity.
  - eapply (T _ _ (slow_request 0 "timeout") (inject_Z 0)).
    + reflexivity.
    + reflexivity.
    + now left.
    + reflexivity.
    + now left.
    + discriminate.
    + reflexivity.
    + vm_compute. reflexivity.
    + reflexivity.
    + vm_compute. lia.
    + vm_compute. lia.
Defined.

(** ** Missing usage values in the summing branch *)

(** Where [build_memory_series] sums the components, a sample time whose
    usage cells are all missing stays in the series with the usage 0 (the
    sum of nothing), while the two other branches drop a row without a
    usage value. *)
Theorem missing_usage_is_zero_when_summed (f : monitor_frame) (t : Z) :
  has_column "timestamp" f = true ->
  has_column "memory_mib" f = true ->
  has_column "container_name" f = true ->
  tagged f = false -> sentinel f = false ->
  (exists r, In r (mrows f) /\ timestamp r = Some t) ->
  (forall r, In r (mrows f) -> timestamp r = Some t -> memory_mib r = NaN) ->
  exists s, build_memory_series f = Ok s /\ In (t, 0%Q) s.
Proof.
  intros Ht Hm Hc Hg Hs Hex Hall.
  rewrite (build_memory_series_cases f Ht Hm), Hg, Hs, Hc.
  eexists. split; [reflexivity|].
  apply in_map_iff. exists t. split.
  - f_equal. unfold group_sum.
    replace (drop_nan _) with (@nil Q); [reflexivity|].
    symmetry. unfold drop_nan. apply flat_map_nil. intros v Hv.
    apply in_map_iff in Hv as [r [<- Hr]]. apply filter_In in Hr as [Hr Ha].
    rewrite (Hall r Hr); [reflexivity|].
    unfold at_time in Ha. destruct (timestamp r) as [t'|]; [|discriminate].
    apply Z.eqb_eq in Ha. now subst.
  - apply group_keys_in, timestamps_in. exact Hex.
Qed.

Lemma missing_usage_is_zero_when_summed_witness :
  exists s, build_memory_series containers_with_gap = Ok s /\ In (2000, 0%Q) s.
Proof.
  apply (missing_usage_is_zero_when_summed containers_with_gap 2000);
    try reflexivity.
  - eexists. split; [do 2 right; now left | reflexivity].
  - intros r [<-|[<-|[<-|[<-|[]]]]]; simpl; intros H; try reflexivity;
      discriminate.
Defined.

(** ** The percentile of a bin *)

Lemma sorted_nth_le (s : list Q) :
  StronglySorted Qle_b s ->
  forall i j, (i <= j)%nat -> (j < List.length s)%nat ->
              (nth i s 0 <= nth j s 0)%Q.
Proof.
  induction 1 as [|a t Hs IH Ha]; intros i j Hij Hj; [simpl in Hj; lia|].
  destruct i as [|i], j as [|j]; cbn [nth]; simpl in Hj; try lia.
  - apply Qle_refl.
  - rewrite Forall_forall in Ha. apply Qle_bool_iff, Ha, nth_In. lia.
  - apply IH; lia.
Qed.

(** The 95th percentile of a bin lies between two latencies of the bin: the
    interpolation never leaves the range of the latencies it is taken
    from. *)
Theorem percentile_is_within_the_bin (vals : list Q) :
  vals <> [] ->
  exists a b, In a vals /\ In b vals /\
              (a <= quantile95 vals)%Q /\ (quantile95 vals <= b)%Q.
Proof.
  intros Hne. unfold quantile95. cbv zeta.
  set (s := sortQ vals). set (m := List.length s).
  assert (Hm : (1 <= m)%nat).
  { unfold m, s, sortQ. rewrite isort_length. destruct vals; [contradiction|simpl; lia]. }
  set (pos := ((19 # 20) * inject_Z (Z.of_nat (m - 1)))%Q).
  assert (Hpos : (0 <= pos)%Q).
  { unfold pos. apply Qmult_le_0_compat; [discriminate|].
    unfold Qle. simpl. lia. }
  assert (Hup : (pos <= inject_Z (Z.of_nat (m - 1)))%Q).
  { unfold pos. assert (0 <= inject_Z (Z.of_nat (m - 1)))%Q by (unfold Qle; simpl; lia).
    lra. }
  pose proof (Qfloor_le pos) as F1. pose proof (Qlt_floor pos) as F2.
  assert (F0 : 0 <= Qfloor pos).
  { change 0 with (Qfloor 0). now apply Qfloor_resp_le. }
  assert (F3 : Qfloor pos <= Z.of_nat (m - 1)).
  { rewrite Zle_Qle. lra. }
  set (lo := Z.to_nat (Qfloor pos)).
  assert (Hlo : (lo <= m - 1)%nat) by (unfold lo; lia).
  set (hi := Nat.min (lo + 1) (m - 1)).
  assert (Hhi : (lo <= hi)%nat /\ (hi < m)%nat) by (unfold hi; lia).
  set (frac := (pos - inject_Z (Qfloor pos))%Q).
  assert (Hf : (0 <= frac)%Q /\ (frac <= 1)%Q).
  { unfold frac. rewrite inject_Z_plus in F2.
    change (inject_Z 1) with 1%Q in F2. split; lra. }
  assert (Hab : (nth lo s 0 <= nth hi s 0)%Q).
  { apply sorted_nth_le; [apply sortQ_sorted | lia | fold m; lia]. }
  exists (nth lo s 0%Q), (nth hi s 0%Q). repeat split.
  - apply (Permutation_in _ (sortQ_perm vals)). apply nth_In. fold s m. lia.
  - apply (Permutation_in _ (sortQ_perm vals)). apply nth_In. fold s m. lia.
  - destruct Hf as [Hf0 Hf1]. nra.
  - destruct Hf as [Hf0 Hf1]. nra.
Qed.

Lemma percentile_is_within_the_bin_witness :
  exists a b, In a [50; 70; 60]%Q /\ In b [50; 70; 60]%Q /\
              (a <= quantile95 [50; 70; 60])%Q /\ (quantile95 [50; 70; 60] <= b)%Q.
Proof.
  apply (percentile_is_within_the_bin [50; 70; 60]%Q). discriminate.
Defined.

(** ** When the resource function returns *)

(** [compute_memory_metrics] passes on the error of the loader and of the
    series builder, raises [IndexError] when the series comes out empty, and
    returns metrics for every series with at least one sample. *)
Theorem memory_metrics_return_unless nc (f : monitor_frame) (c : config) :
  (forall e, read_monitor_csv f = Raise e ->
     compute_memory_metrics nc f c = Raise e) /\
  (forall mon e, read_monitor_csv f = Ok mon -> build_memory_series mon = Raise e ->
     compute_memory_metrics nc f c = Raise e) /\
  (forall mon, read_monitor_csv f = Ok mon -> build_memory_series mon = Ok [] ->
     compute_memory_metrics nc f c = Raise IndexError) /\
  (forall mon s, read_monitor_csv f = Ok mon -> build_memory_series mon = Ok s ->
     s <> [] -> exists m, compute_memory_metrics nc f c = Ok m).
Proof.
  unfold compute_memory_metrics. repeat split.
  - intros e ->. reflexivity.
  - intros mon e -> H. cbn [bind]. now rewrite H.
  - intros mon -> H. cbn [bind]. now rewrite H.
  - intros mon s -> H Hne. cbn [bind]. rewrite H. cbn [bind].
    destruct (isort _ s) as [|[t0 m0] rest] eqn:E.
    + apply isort_nil_inv in E. contradiction.
    + destruct (List.length _ <? 3)%nat; eexists; reflexivity.
Qed.

Lemma memory_metrics_return_unless_witness :
  compute_memory_metrics flat_cdf monitor_without_usage command_line_defaults =
    Raise IndexError /\
  exists m,
    compute_memory_metrics flat_cdf hourly_monitor command_line_defaults = Ok m.
Proof.
  destruct (memory_metrics_return_unless flat_cdf monitor_without_usage
              command_line_defaults) as [_ [_ [I _]]].
  destruct (memory_metrics_return_unless flat_cdf hourly_monitor
              command_line_defaults) as [_ [_ [_ R]]].
  split.
  - eapply I; reflexivity.
  - eapply R; [reflexivity | reflexivity | discriminate].
Defined.

(** ** The slope of points on a line *)

Lemma median_of_equal_values (l : list Q) (k : Q) :
  l <> [] -> (forall q, In q l -> (q == k)%Q) -> feq (median l) (Fin k).
Proof.
  intros Hne Hall. unfold median, median_sorted.
  assert (Hs : forall i, (i < List.length (sortQ l))%nat ->
                         (nth i (sortQ l) 0 == k)%Q).
  { intros i Hi. apply Hall. apply (Permutation_in _ (sortQ_perm l)).
    now apply nth_In. }
  destruct (sortQ l) as [|a t] eqn:E.
  - apply (isort_nil_inv Qle_bool) in E. contradiction.
  - set (n := List.length (a :: t)) in *.
    assert (Hn : (1 <= n)%nat) by (unfold n; simpl; lia).
    assert (Hd : (n / 2 < n)%nat) by (apply Nat.div_lt; lia).
    destruct (Nat.even n); unfold feq.
    + rewrite (Hs (n / 2 - 1)%nat), (Hs (n / 2)%nat) by lia. field.
    + apply Hs. lia.
Qed.

Lemma masked_slope_on_line (k c0 : Q) (p q : Q * Q) :
  (snd p == k * fst p + c0)%Q -> (snd q == k * fst q + c0)%Q ->
  forall v, In v (masked_slope p q) -> (v == k)%Q.
Proof.
  intros Hp Hq v. unfold masked_slope, Qlt_bool.
  destruct (Qle_bool (fst p - fst q) 0) eqn:E; simpl; [contradiction|].
  apply Qle_bool_false in E. intros [<-|[]]. rewrite Hp, Hq. field. lra.
Qed.

(** On points that lie on one line [y = k x + c], with at least two
    different x, [theil_sen_slope] is the slope [k] of the line. *)
Theorem slope_of_a_line (k c0 : Q) (y x : list fval) :
  List.length y = List.length x ->
  (forall p, In p (valid_points y x) -> (snd p == k * fst p + c0)%Q) ->
  (exists p q, In p (valid_points y x) /\ In q (valid_points y x) /\
               (fst p < fst q)%Q) ->
  feq (theil_sen_slope y x) (Fin k).
Proof.
  intros _ Hline [p [q [Hp [Hq Hlt]]]].
  unfold theil_sen_slope, theilslopes. cbv zeta.
  set (pts := valid_points y x) in *.
  assert (H2 : (List.length pts <? 2)%nat = false).
  { apply Nat.ltb_ge. destruct pts as [|a [|b rest]]; simpl; try lia.
    - contradiction.
    - destruct Hp as [<-|[]], Hq as [<-|[]]. lra. }
  rewrite H2. apply median_of_equal_values.
  - intros E. apply (proj1 (masked_slopes_nil pts)) with (p := p) (q := q) in E;
      auto. lra.
  - intros v Hv. rewrite masked_slopes_grid in Hv.
    apply in_flat_map in Hv as [a [Ha Hv]].
    apply in_flat_map in Hv as [b [Hb Hv]].
    apply (masked_slope_on_line k c0 a b); auto.
Qed.

Lemma slope_of_a_line_witness :
  feq (theil_sen_slope [Fin 100; Fin 200; NaN; Fin 400]
                        [Fin 0; Fin 1; Fin 2; Fin 3]) (Fin 100).
Proof.
  apply (slope_of_a_line 100 100 [Fin 100; Fin 200; NaN; Fin 400]
           [Fin 0; Fin 1; Fin 2; Fin 3]).
  - reflexivity.
  - intros p [<-|[<-|[<-|[]]]]; reflexivity.
  - exists (0, 100)%Q, (1, 200)%Q. repeat split; simpl; auto.
Defined.
